(** * Water-quality monitoring backend: scoring, alerting, device tracking

    A shallow embedding of the backend's core:

    - [calculateQualityScore], [determineStatus] and the pre-save hook of the
      WaterQuality model (backend/models/Review.js, second model of the file);
    - [checkForAlerts] and the [POST /data] handler (backend/routes/esp32.js);
    - [validateSensorData], the validation middleware of [POST /data];
    - the two review submission handlers (backend/routes/reviews.js and the
      [POST /review] handler of the water-quality router);
    - [updateStatus], [recordReading], [isOnline] and [getOnlineDevices]
      of the ESP32Device model;
    - the device status job and the data cleanup job of
      backend/services/cronService.js;
    - [determineSensorStatus], the registration and the deletion of a
      device (backend/routes/esp32.js);
    - [calculateLocationStats] and the paging of the listings (the
      water-quality router, backend/routes/reviews.js);
    - the cache middleware.

    JavaScript values are embedded as a small universe (undefined, null,
    numbers, plain objects) with the language's own rules for property access,
    truthiness and numeric conversion, so that guards such as
    [this.reviewData[param] && this.reviewData[param].rating] read as in the
    source.  The code is written over an interface of Number operations,
    implemented by IEEE-754 binary64, the Numbers of the JavaScript engine.

    Conventions. Dates are milliseconds since the epoch, and a request or a
    run of the job sees one instant, [now]. A document is read through
    the paths it holds, as a plain object; what the model's constructor
    makes of the [sensorData] it is given is [cast_sensorData]. [save()]
    validates the document before it runs the hook registered with
    [pre('save')]; after the checks embedded, a write is refused when the
    environment says so ([save_error]). The lookups of a store succeed.
    Strings occur as keys, as [source] and as identifiers only: the [unit]
    and [status] of a sensor entry, addresses, descriptions and the weather
    snapshot are left out, and an alert keeps the fixed part of its
    message. The body of a request to [POST /data] has a [location], whose
    reads are not embedded either. *)

From Stdlib Require Import ZArith QArith Qround Lqa Lia List String Bool.
From Stdlib Require Import Floats.SpecFloat.
Import ListNotations.

Set Implicit Arguments.
Set Warnings "-register-all".

Local Open Scope string_scope.
Local Open Scope list_scope.
Local Open Scope Z_scope.

(* ================================================================== *)
(** ** Numbers *)

(** The Number operations the backend uses, on a carrier [N].
    [decimal n d] is the literal whose decimal expansion is worth [n/d]
    (0.45 is [decimal 45 100]); [a > b] is [ltb b a] and [a >= b] is
    [leb b a], both false on NaN. *)
Class Arith (N : Type) : Type := {
  of_Z : Z -> N;
  decimal : Z -> Z -> N;
  NaN : N;
  add : N -> N -> N;
  sub : N -> N -> N;
  mul : N -> N -> N;
  div : N -> N -> N;
  ltb : N -> N -> bool;
  leb : N -> N -> bool;
  falsy : N -> bool;          (* +0, -0 and NaN *)
  Math_round : N -> N
}.

Arguments of_Z N {Arith} _.
Arguments decimal N {Arith} _ _.
Arguments NaN N {Arith}.
Arguments add N {Arith} _ _.
Arguments sub N {Arith} _ _.
Arguments mul N {Arith} _ _.
Arguments div N {Arith} _ _.
Arguments ltb N {Arith} _ _.
Arguments leb N {Arith} _ _.
Arguments falsy N {Arith} _.
Arguments Math_round N {Arith} _.

(** [floor (z * 2^e + 1/2)], the integer [Math.round] returns on [z * 2^e]. *)
Definition round_half_up_dyadic (z e : Z) : Z :=
  if 0 <=? e then z * 2 ^ e else (2 * z + 2 ^ (- e)) / 2 ^ (1 - e).

(** [floor (q + 1/2)]: nearest integer, ties towards plus infinity. *)
Definition round_half_up (q : Q) : Z := Qfloor (q + (1 # 2)).

(** IEEE-754 binary64, the Number type of the engine. *)
Module Binary64.

Definition prec : Z := 53.
Definition emax : Z := 1024.

Definition of_Z (z : Z) : spec_float := binary_normalize prec emax z 0 false.

Definition decimal (n d : Z) : spec_float :=
  SFdiv prec emax (of_Z n) (of_Z d).

Definition falsy (x : spec_float) : bool :=
  match x with
  | S754_zero _ | S754_nan => true
  | _ => false
  end.

(** [Math.round]: NaN, the infinities and the zeros are returned as they
    are; a negative number that rounds to zero gives [-0]. *)
Definition Math_round (x : spec_float) : spec_float :=
  match x with
  | S754_finite s m e =>
      let z := round_half_up_dyadic (if s then Z.neg m else Z.pos m) e in
      if z =? 0 then S754_zero s else of_Z z
  | _ => x
  end.

#[global] Instance ops : Arith spec_float :=
  @Build_Arith spec_float of_Z decimal S754_nan
    (SFadd prec emax) (SFsub prec emax) (SFmul prec emax) (SFdiv prec emax)
    SFltb SFleb falsy Math_round.

End Binary64.

(* ================================================================== *)
(** ** Values, property access, completions *)

Inductive exn : Type :=
  | TypeError                       (* property read on undefined or null *)
  | ValidationError
  | StorageError (message : string).

(** The outcome of evaluating a piece of code: a value, or a thrown error. *)
Inductive completion (T : Type) : Type :=
  | Normal (t : T)
  | Throw (e : exn).
Arguments Normal {T} t.
Arguments Throw {T} e.

Definition bind {T U : Type} (c : completion T) (k : T -> completion U)
  : completion U :=
  match c with
  | Normal t => k t
  | Throw e => Throw e
  end.

Notation "x <- c ;; k" := (bind c (fun x => k))
  (at level 61, c at next level, right associativity).

(** [forEach]: run [body] on every element in order, threading the
    variables the callback assigns to; a throw leaves the loop. *)
Fixpoint forEach {K S : Type} (keys : list K) (body : S -> K -> completion S)
  (s : S) : completion S :=
  match keys with
  | [] => Normal s
  | k :: rest => s' <- body s k ;; forEach rest body s'
  end.

Section Values.

Context (N : Type) {A : Arith N}.

Inductive val : Type :=
  | VUndefined
  | VNull
  | VNum (n : N)
  | VObj (props : list (string * val)).

Fixpoint lookup (props : list (string * val)) (key : string) : val :=
  match props with
  | [] => VUndefined
  | (k, v) :: rest => if String.eqb k key then v else lookup rest key
  end.

(** [o[key]]: a TypeError on undefined and null, [undefined] on a number
    (the keys read here are not on Number.prototype), the first binding
    of [key] on an object. *)
Definition get (o : val) (key : string) : completion val :=
  match o with
  | VUndefined | VNull => Throw TypeError
  | VNum _ => Normal VUndefined
  | VObj props => Normal (lookup props key)
  end.

Definition truthy (v : val) : bool :=
  match v with
  | VUndefined | VNull => false
  | VNum n => negb (falsy N n)
  | VObj _ => true
  end.

Definition is_undefined (v : val) : bool :=
  match v with
  | VUndefined => true
  | _ => false
  end.

(** ToNumber: NaN for undefined and for a plain object, +0 for null. *)
Definition ToNumber (v : val) : N :=
  match v with
  | VUndefined => NaN N
  | VNull => of_Z N 0
  | VNum n => n
  | VObj _ => NaN N
  end.

Definition lt (a b : val) : bool := ltb N (ToNumber a) (ToNumber b).
Definition gt (a b : val) : bool := ltb N (ToNumber b) (ToNumber a).
Definition le (a b : val) : bool := leb N (ToNumber a) (ToNumber b).
Definition ge (a b : val) : bool := leb N (ToNumber b) (ToNumber a).

Definition lit (z : Z) : val := VNum (of_Z N z).

(** The keys of an object in insertion order, each once. *)
Fixpoint uniq (keys : list string) : list string :=
  match keys with
  | [] => []
  | k :: rest => k :: filter (fun k' => negb (String.eqb k' k)) (uniq rest)
  end.

Definition Object_keys (o : val) : completion (list string) :=
  match o with
  | VUndefined | VNull => Throw TypeError
  | VNum _ => Normal []
  | VObj props => Normal (uniq (map fst props))
  end.

End Values.

Arguments VUndefined {N}.
Arguments VNull {N}.
Arguments VNum {N} n.
Arguments VObj {N} props.
Arguments lit N {A} z.

(* ================================================================== *)
(** ** The WaterQuality model (backend/models/Review.js) *)

Module WaterQuality.

Inductive status : Type := excellent | good | fair | poor | critical.

Section Model.

Context (N : Type) {A : Arith N}.

Let val : Type := val N.
Let num : Type := N.

(** The paths of a WaterQuality document that the methods read or
    write. String-valued leaves ([unit], [status] of a sensor entry,
    descriptions) are not part of the embedding. *)
Record doc : Type := {
  source : string;
  deviceId : string;
  timestamp : Z;
  sensorData : val;
  reviewData : val;
  qualityScore : val;
  assessment_status : option status
}.

Definition sensorWeights : list (string * num) :=
  [ ("turbidity", decimal N 45 100);
    ("tds", decimal N 20 100);
    ("temperature", decimal N 15 100);
    ("dissolvedOxygen", decimal N 20 100) ].

Definition reviewWeights : list (string * num) :=
  [ ("overallRating", decimal N 4 10);
    ("taste", decimal N 2 10);
    ("clarity", decimal N 2 10);
    ("odor", decimal N 2 10) ].

(** The sub-score of one sensor parameter (lines 280-308). *)
Definition paramScore (param : string) (value : val) : num :=
  if (param =? "turbidity")%string then
    if lt value (lit N 5) then of_Z N 100
    else if lt value (lit N 10) then of_Z N 80
    else if lt value (lit N 20) then of_Z N 60
    else of_Z N 30
  else if (param =? "tds")%string then
    if ge value (lit N 150) && le value (lit N 500) then of_Z N 100
    else if ge value (lit N 100) && le value (lit N 750) then of_Z N 80
    else if ge value (lit N 50) && le value (lit N 1000) then of_Z N 60
    else of_Z N 40
  else if (param =? "temperature")%string then
    if ge value (lit N 10) && le value (lit N 25) then of_Z N 100
    else if ge value (lit N 5) && le value (lit N 30) then of_Z N 80
    else of_Z N 60
  else if (param =? "dissolvedOxygen")%string then
    if gt value (lit N 6) then of_Z N 100
    else if gt value (lit N 4) then of_Z N 80
    else if gt value (lit N 2) then of_Z N 60
    else of_Z N 30
  else of_Z N 100.

(** The callback of the sensor loop; the state is
    [(score, totalWeight)]. *)
Definition sensor_body (this : doc) (s : num * num) (pw : string * num)
  : completion (num * num) :=
  let '(score, totalWeight) := s in
  let '(param, weight) := pw in
  reading <- get (sensorData this) param ;;
  if truthy reading then
    value <- get reading "value" ;;
    if negb (is_undefined value) then
      Normal (add N score (mul N (paramScore param value) weight),
              add N totalWeight weight)
    else Normal s
  else Normal s.

(** The callback of the review loop. *)
Definition review_body (this : doc) (s : num * num) (pw : string * num)
  : completion (num * num) :=
  let '(score, totalWeight) := s in
  let '(param, weight) := pw in
  field <- get (reviewData this) param ;;
  if truthy field then
    rating <- get field "rating" ;;
    if truthy rating then
      let paramScore :=
        mul N (div N (ToNumber rating) (of_Z N 5)) (of_Z N 100) in
      Normal (add N score (mul N paramScore weight),
              add N totalWeight weight)
    else Normal s
  else Normal s.

Definition calculateQualityScore (this : doc) : completion num :=
  st <- (if (source this =? "esp32")%string && truthy (sensorData this)
         then forEach sensorWeights (sensor_body this)
                (of_Z N 0, of_Z N 0)
         else if (source this =? "user_review")%string
                 && truthy (reviewData this)
         then forEach reviewWeights (review_body this)
                (of_Z N 0, of_Z N 0)
         else Normal (of_Z N 0, of_Z N 0)) ;;
  let '(score, totalWeight) := st in
  Normal (if ltb N (of_Z N 0) totalWeight
          then Math_round N (div N score totalWeight)
          else of_Z N 50).

Definition determineStatus (this : doc) : status :=
  if ge (qualityScore this) (lit N 80) then excellent
  else if ge (qualityScore this) (lit N 60) then good
  else if ge (qualityScore this) (lit N 40) then fair
  else if ge (qualityScore this) (lit N 20) then poor
  else critical.

Definition set_qualityScore (this : doc) (q : val) : doc :=
  {| source := source this; deviceId := deviceId this;
     timestamp := timestamp this; sensorData := sensorData this;
     reviewData := reviewData this; qualityScore := q;
     assessment_status := assessment_status this |}.

Definition set_assessment_status (this : doc) (s : status) : doc :=
  {| source := source this; deviceId := deviceId this;
     timestamp := timestamp this; sensorData := sensorData this;
     reviewData := reviewData this; qualityScore := qualityScore this;
     assessment_status := Some s |}.

(** The pre-save hook; [isModified] tells which paths changed. *)
Definition pre_save (isModified : string -> bool) (this : doc)
  : completion doc :=
  if isModified "sensorData" || isModified "reviewData" then
    q <- calculateQualityScore this ;;
    let this1 := set_qualityScore this (VNum q) in
    Normal (set_assessment_status this1 (determineStatus this1))
  else Normal this.

(** The sensors of the schema, in its order (lines 102-133; the schema
    literal names [turbidity] twice, which makes one path). *)
Definition sensor_paths : list string :=
  ["turbidity"; "temperature"; "tds"; "conductivity"; "dissolvedOxygen"].

(** What [new WaterQuality({..., sensorData})] holds under
    [sensorData.<path>]: an object in any case, since the [unit] of every
    sensor has a default, with the [value] given for the sensor when
    there is one. [value] is a Number path: a value that is not a Number
    does not cast (the requests that pass [validateSensorData] carry
    Numbers). *)
Definition cast_sensor (given : val) (path : string) : string * val :=
  (path,
   match given with
   | VObj props =>
       match lookup props path with
       | VObj entry =>
           match lookup entry "value" with
           | VNum n => VObj [("value", VNum n)]
           | VNull => VObj [("value", VNull)]
           | _ => VObj []
           end
       | _ => VObj []
       end
   | _ => VObj []
   end).

(** The [sensorData] of the document: the sensors of the schema in the
    order of the schema, whatever the keys of the object given and their
    order; a key the schema does not name is dropped. *)
Definition cast_sensorData (given : val) : val :=
  VObj (map (cast_sensor given) sensor_paths).

(** Validation, on the paths embedded: [qualityScore] is required and
    lies between 0 and 100 (lines 162-167), [assessment.status] is
    required (lines 181-186). *)
Definition validates (this : doc) : bool :=
  match qualityScore this, assessment_status this with
  | VNum q, Some _ => leb N (of_Z N 0) q && leb N q (of_Z N 100)
  | _, _ => false
  end.

(** [save()]: the document is validated, then the hook registered with
    [pre('save')] runs, then the document is written, unless it is
    refused ([save_error], decided by the environment: a validator of a
    path that is not embedded, or the store). Validation comes first: the
    score and the status the hook computes are not there yet when the
    required paths are checked. *)
Definition save (save_error : option exn) (isModified : string -> bool)
  (collection : list doc) (this : doc) : completion (doc * list doc) :=
  if negb (validates this) then Throw ValidationError else
  this' <- pre_save isModified this ;;
  match save_error with
  | Some e => Throw e
  | None => Normal (this', collection ++ [this'])
  end.

End Model.

Arguments sensorWeights N {A}.
Arguments reviewWeights N {A}.

End WaterQuality.

(* ================================================================== *)
(** ** The ESP32Device model *)

Module ESP32Device.

Inductive status_t : Type := online | offline | maintenance | error.

Definition status_eqb (a b : status_t) : bool :=
  match a, b with
  | online, online | offline, offline
  | maintenance, maintenance | error, error => true
  | _, _ => false
  end.

Section Model.

Context (N : Type) {A : Arith N}.

Let val : Type := val N.
Let num : Type := N.

(** The paths of a device document the core reads or writes; dates are
    milliseconds since the epoch. *)
Record doc : Type := {
  deviceId : string;
  status : status_t;
  lastSeen : Z;
  thresholds : val;
  batteryLevel : val;
  signalStrength : val;
  temperature : val;
  errorCount : Z;
  totalReadings : Z;
  successfulReadings : Z;
  failedReadings : Z;
  lastReadingTime : option Z;
  averageQualityScore : num
}.

Definition set_status (this : doc) (s : status_t) : doc :=
  {| deviceId := deviceId this; status := s; lastSeen := lastSeen this;
     thresholds := thresholds this; batteryLevel := batteryLevel this;
     signalStrength := signalStrength this;
     temperature := temperature this; errorCount := errorCount this;
     totalReadings := totalReadings this;
     successfulReadings := successfulReadings this;
     failedReadings := failedReadings this;
     lastReadingTime := lastReadingTime this;
     averageQualityScore := averageQualityScore this |}.

Definition set_lastSeen (this : doc) (t : Z) : doc :=
  {| deviceId := deviceId this; status := status this; lastSeen := t;
     thresholds := thresholds this; batteryLevel := batteryLevel this;
     signalStrength := signalStrength this;
     temperature := temperature this; errorCount := errorCount this;
     totalReadings := totalReadings this;
     successfulReadings := successfulReadings this;
     failedReadings := failedReadings this;
     lastReadingTime := lastReadingTime this;
     averageQualityScore := averageQualityScore this |}.

Definition set_health (this : doc) (battery signal temp : val) : doc :=
  {| deviceId := deviceId this; status := status this;
     lastSeen := lastSeen this; thresholds := thresholds this;
     batteryLevel := battery; signalStrength := signal;
     temperature := temp; errorCount := errorCount this;
     totalReadings := totalReadings this;
     successfulReadings := successfulReadings this;
     failedReadings := failedReadings this;
     lastReadingTime := lastReadingTime this;
     averageQualityScore := averageQualityScore this |}.

Definition set_statistics (this : doc) (total ok failed : Z)
  (last : option Z) : doc :=
  {| deviceId := deviceId this; status := status this;
     lastSeen := lastSeen this; thresholds := thresholds this;
     batteryLevel := batteryLevel this;
     signalStrength := signalStrength this;
     temperature := temperature this; errorCount := errorCount this;
     totalReadings := total; successfulReadings := ok;
     failedReadings := failed; lastReadingTime := last;
     averageQualityScore := averageQualityScore this |}.

(** The schema's default thresholds (the second [turbidity] entry of the
    schema literal overwrites the first, with the same content). *)
Definition default_thresholds : val :=
  VObj [ ("turbidity",
           VObj [("max", lit N 5); ("criticalMax", lit N 20)]);
         ("temperature",
           VObj [("min", lit N 10); ("max", lit N 25);
                 ("criticalMin", lit N 5); ("criticalMax", lit N 35)]);
         ("tds",
           VObj [("min", lit N 150); ("max", lit N 500);
                 ("criticalMin", lit N 50);
                 ("criticalMax", lit N 1000)]) ].

(** [new ESP32Device({deviceId, ..., status})] with the schema defaults
    ([lastSeen] defaults to [Date.now]). *)
Definition create (now : Z) (id : string) (s : status_t) : doc :=
  {| deviceId := id; status := s; lastSeen := now;
     thresholds := default_thresholds;
     batteryLevel := lit N 100; signalStrength := lit N 100;
     temperature := lit N 25; errorCount := 0;
     totalReadings := 0; successfulReadings := 0; failedReadings := 0;
     lastReadingTime := None; averageQualityScore := of_Z N 0 |}.

(** The persisted collection, with [deviceId] as its unique key. *)
Fixpoint findOne (collection : list doc) (id : string) : option doc :=
  match collection with
  | [] => None
  | d :: rest =>
      if (deviceId d =? id)%string then Some d else findOne rest id
  end.

Fixpoint write (collection : list doc) (this : doc) : list doc :=
  match collection with
  | [] => [this]
  | d :: rest =>
      if (deviceId d =? deviceId this)%string then this :: rest
      else d :: write rest this
  end.

(** What a request or a run of the job gets from the outside: the clock
    and what refuses a document that passed the checks embedded, for the
    two stores (the device store by [deviceId]).
    Below, [loaded] is the document as it was read from the store, [None]
    for a new one. *)
Record env : Type := {
  now : Z;
  WaterQuality_save_error : option exn;
  ESP32Device_save_error : string -> option exn
}.

Definition isModified_status (loaded : option doc) (this : doc) : bool :=
  match loaded with
  | None => true
  | Some d => negb (status_eqb (status d) (status this))
  end.

(** The pre-save hook (lines 238-257); the calibration part only
    touches [sensors], which no path below modifies. *)
Definition pre_save (e : env) (loaded : option doc) (this : doc) : doc :=
  if isModified_status loaded this && status_eqb (status this) online
  then set_lastSeen this (now e)
  else this.

(** [save()] on a document: the hook runs, then the store accepts the
    document or refuses it. *)
Definition save_doc (e : env) (loaded : option doc) (this : doc)
  : completion doc :=
  let this' := pre_save e loaded this in
  match ESP32Device_save_error e (deviceId this) with
  | Some err => Throw err
  | None => Normal this'
  end.

Definition save (e : env) (loaded : option doc) (collection : list doc)
  (this : doc) : completion (doc * list doc) :=
  this' <- save_doc e loaded this ;;
  Normal (this', write collection this').

Definition updateStatus (e : env) (loaded : option doc)
  (collection : list doc) (this : doc) (s : status_t)
  : completion (doc * list doc) :=
  let this1 := set_status this s in
  let this2 :=
    if status_eqb s online then set_lastSeen this1 (now e) else this1 in
  save e loaded collection this2.

Definition recordReading (e : env) (loaded : option doc)
  (collection : list doc) (this : doc) (successful : bool)
  : completion (doc * list doc) :=
  let total := totalReadings this + 1 in
  let ok :=
    if successful then successfulReadings this + 1
    else successfulReadings this in
  let failed :=
    if successful then failedReadings this
    else failedReadings this + 1 in
  save e loaded collection
    (set_statistics this total ok failed (Some (now e))).

End Model.

Arguments default_thresholds N {A}.
Arguments create N {A} now id s.

End ESP32Device.

(* ================================================================== *)
(** ** The device routes (backend/routes/esp32.js) *)

Module Esp32Routes.

Inductive severity : Type := critical | warning.

(** The fixed part of an alert's message template. *)
Inductive message : Type :=
  | is_critically_low
  | is_critically_high
  | is_below_normal
  | is_above_normal
  | quality_critically_poor
  | quality_below_normal.

Section Routes.

Context (N : Type) {A : Arith N}.

Record alert : Type := {
  type : severity;
  sensor : string;
  text : message;
  value : val N;
  threshold : val N
}.

(** The callback of the threshold loop of [checkForAlerts]
    (lines 514-556); the state is the [alerts] array. *)
Definition check_sensor (waterQualityData : WaterQuality.doc N)
  (device : ESP32Device.doc N) (alerts : list alert) (sensorKey : string)
  : completion (list alert) :=
  sensorData <- get (WaterQuality.sensorData waterQualityData) sensorKey ;;
  thresholds <- get (ESP32Device.thresholds device) sensorKey ;;
  if truthy sensorData && truthy thresholds then
    value <- get sensorData "value" ;;
    min <- get thresholds "min" ;;
    max <- get thresholds "max" ;;
    criticalMin <- get thresholds "criticalMin" ;;
    criticalMax <- get thresholds "criticalMax" ;;
    if negb (is_undefined criticalMin) && lt value criticalMin then
      Normal (alerts ++ [ {| type := critical; sensor := sensorKey;
                             text := is_critically_low; value := value;
                             threshold := criticalMin |} ])
    else if negb (is_undefined criticalMax) && gt value criticalMax then
      Normal (alerts ++ [ {| type := critical; sensor := sensorKey;
                             text := is_critically_high; value := value;
                             threshold := criticalMax |} ])
    else if negb (is_undefined min) && lt value min then
      Normal (alerts ++ [ {| type := warning; sensor := sensorKey;
                             text := is_below_normal; value := value;
                             threshold := min |} ])
    else if negb (is_undefined max) && gt value max then
      Normal (alerts ++ [ {| type := warning; sensor := sensorKey;
                             text := is_above_normal; value := value;
                             threshold := max |} ])
    else Normal alerts
  else Normal alerts.

(** The check of the overall score (lines 558-575). *)
Definition overall_alerts (qualityScore : val N) : list alert :=
  if lt qualityScore (lit N 40) then
    [ {| type := critical; sensor := "overall";
         text := quality_critically_poor; value := qualityScore;
         threshold := lit N 40 |} ]
  else if lt qualityScore (lit N 60) then
    [ {| type := warning; sensor := "overall";
         text := quality_below_normal; value := qualityScore;
         threshold := lit N 60 |} ]
  else [].

Definition checkForAlerts (waterQualityData : WaterQuality.doc N)
  (device : ESP32Device.doc N) : completion (list alert) :=
  keys <- Object_keys (WaterQuality.sensorData waterQualityData) ;;
  alerts <- forEach keys (check_sensor waterQualityData device) [] ;;
  Normal (alerts
          ++ overall_alerts (WaterQuality.qualityScore waterQualityData)).

(** The body of a request to [POST /data], as far as it is embedded. *)
Record body : Type := {
  deviceId : string;
  timestamp : option Z;
  sensors : val N;
  batteryLevel : val N;
  signalStrength : val N;
  deviceTemperature : val N
}.

(** [Joi.number()]: a Number within the safe range, which leaves out
    NaN and the infinities. *)
Definition is_number (v : val N) : bool :=
  match v with
  | VNum n =>
      leb N (of_Z N (- (2 ^ 53 - 1))) n && leb N n (of_Z N (2 ^ 53 - 1))
  | _ => false
  end.

(** [sensorSchema]: an object with a Number under [value]; its only
    other key is [unit], a string. *)
Definition is_sensor (v : val N) : bool :=
  match v with
  | VObj props =>
      forallb (fun kv => (fst kv =? "value")%string) props
      && is_number (lookup props "value")
  | _ => false
  end.

(** [Joi.number().min(0).max(100)] *)
Definition is_percentage (v : val N) : bool :=
  match v with
  | VNum n => is_number v && leb N (of_Z N 0) n && leb N n (of_Z N 100)
  | _ => false
  end.

(** [.optional()] *)
Definition optional (test : val N -> bool) (v : val N) : bool :=
  match v with
  | VUndefined => true
  | _ => test v
  end.

(** [validateSensorData] (the validation middleware, lines 928-981 of the
    file that holds it), on what is embedded of the body: [true] when the
    request goes on to the handler. [sensors] is an object with at least
    one key, every key names a sensor of the schema and holds a
    [sensorSchema]. *)
Definition validateSensorData (req : body) : bool :=
  negb (deviceId req =? "")%string
  && match sensors req with
     | VObj props =>
         negb (Nat.eqb (List.length props) 0)
         && forallb
              (fun kv =>
                 existsb (String.eqb (fst kv)) WaterQuality.sensor_paths
                 && is_sensor (snd kv))
              props
     | _ => false
     end
  && optional is_percentage (batteryLevel req)
  && optional is_percentage (signalStrength req)
  && optional is_number (deviceTemperature req).

(** What the socket emits. *)
Inductive event : Type :=
  | esp32_data (deviceId : string) (timestamp : Z) (sensorData : val N)
      (qualityScore : val N)
  | water_quality_alert (deviceId : string) (alerts : list alert)
      (timestamp : Z).

Inductive response : Type :=
  | R200 (qualityScore : val N) (alerts : option (list alert))
  | R400 (message : string)
  | R500 (message : string) (error : exn).

Record db : Type := {
  devices : list (ESP32Device.doc N);
  readings : list (WaterQuality.doc N)
}.

(** [a || b] on values. *)
Definition or_else (a b : val N) : val N := if truthy a then a else b.

(** Lines 28-43: the device a request for [id] works on, the stored one
    or a new one with the schema defaults. *)
Definition working_device (e : ESP32Device.env)
  (collection : list (ESP32Device.doc N)) (id : string)
  : ESP32Device.doc N :=
  match ESP32Device.findOne collection id with
  | Some device => device
  | None => ESP32Device.create N (ESP32Device.now e) id ESP32Device.online
  end.

(** Lines 45-49: status, [lastSeen] and health, on the document in
    memory. *)
Definition refreshed (e : ESP32Device.env) (req : body)
  (device : ESP32Device.doc N) : ESP32Device.doc N :=
  let device1 :=
    ESP32Device.set_lastSeen
      (ESP32Device.set_status device ESP32Device.online)
      (ESP32Device.now e) in
  ESP32Device.set_health device1
    (or_else (batteryLevel req) (ESP32Device.batteryLevel device1))
    (or_else (signalStrength req) (ESP32Device.signalStrength device1))
    (or_else (deviceTemperature req) (ESP32Device.temperature device1)).

(** The callback of the loop over [sensors] (lines 55-65); the state is
    [(sensorData, hasValidData)]. *)
Definition collect_sensor (sensors : val N)
  (s : list (string * val N) * bool) (sensorKey : string)
  : completion (list (string * val N) * bool) :=
  sensor <- get sensors sensorKey ;;
  if truthy sensor then
    v <- get sensor "value" ;;
    match v with
    | VUndefined | VNull => Normal s
    | _ => Normal (fst s ++ [(sensorKey, VObj [("value", v)])], true)
    end
  else Normal s.

(** Lines 75-86: the document handed to [save]; it has no score and no
    status yet. *)
Definition new_reading (e : ESP32Device.env) (req : body)
  (sensorData : list (string * val N)) : WaterQuality.doc N :=
  {| WaterQuality.source := "esp32";
     WaterQuality.deviceId := deviceId req;
     WaterQuality.timestamp :=
       match timestamp req with
       | Some t => t
       | None => ESP32Device.now e
       end;
     WaterQuality.sensorData :=
       WaterQuality.cast_sensorData (VObj sensorData);
     WaterQuality.reviewData := VUndefined;
     WaterQuality.qualityScore := VUndefined;
     WaterQuality.assessment_status := None |}.

(** Lines 90-118: what the handler does once [waterQualityData.save()]
    has resolved, [readings1] being the collection with the reading in
    it. [device] is the document of lines 28-49. [io] comes from the
    server module, which is not among the sources; its [emit] is taken
    to succeed. *)
Definition after_save (e : ESP32Device.env) (d : db) (req : body)
  (sensorData : list (string * val N))
  (waterQualityData : WaterQuality.doc N)
  (readings1 : list (WaterQuality.doc N))
  : db * list event * response :=
  let failed := R500 "Failed to process sensor data" in
  let loaded := ESP32Device.findOne (devices d) (deviceId req) in
  let device :=
    refreshed e req (working_device e (devices d) (deviceId req)) in
  let d1 := {| devices := devices d; readings := readings1 |} in
  match ESP32Device.recordReading e loaded (devices d) device true with
  | Throw err => (d1, [], failed err)
  | Normal (device', devices') =>
      let d2 := {| devices := devices'; readings := readings1 |} in
      let ev :=
        esp32_data (deviceId req)
          (WaterQuality.timestamp waterQualityData)
          (VObj sensorData) (WaterQuality.qualityScore waterQualityData) in
      match checkForAlerts waterQualityData device' with
      | Throw err => (d2, [ev], failed err)
      | Normal [] =>
          (d2, [ev],
           R200 (WaterQuality.qualityScore waterQualityData) None)
      | Normal alerts =>
          (d2,
           [ev; water_quality_alert (deviceId req) alerts
                  (WaterQuality.timestamp waterQualityData)],
           R200 (WaterQuality.qualityScore waterQualityData)
             (Some alerts))
      end
  end.

(** The handler of [POST /data] (lines 15-128). Each [Throw] is the
    transfer to the [catch] clause, which answers 500 with the error;
    what was written before the throw stays written. *)
Definition post_data (e : ESP32Device.env) (d : db) (req : body)
  : db * list event * response :=
  let failed := R500 "Failed to process sensor data" in
  match (keys <- Object_keys (sensors req) ;;
         forEach keys (collect_sensor (sensors req)) ([], false)) with
  | Throw err => (d, [], failed err)
  | Normal (_, false) => (d, [], R400 "No valid sensor data provided")
  | Normal (sensorData, true) =>
      match WaterQuality.save (ESP32Device.WaterQuality_save_error e)
              (fun path => (path =? "sensorData")%string)
              (readings d) (new_reading e req sensorData) with
      | Throw err => (d, [], failed err)
      | Normal (saved, readings1) =>
          after_save e d req sensorData saved readings1
      end
  end.

(** The route: [router.post('/data', validateSensorData, handler)]. *)
Definition data_route (e : ESP32Device.env) (d : db) (req : body)
  : db * list event * response :=
  if validateSensorData req then post_data e d req
  else (d, [], R400 "Invalid sensor data").

End Routes.

End Esp32Routes.

(* ================================================================== *)
(** ** The review submissions *)

Module ReviewRoutes.

Section Routes.

Context (N : Type) {A : Arith N}.

Let val : Type := val N.

(** The body of a request to [POST /api/reviews], as far as it is
    embedded: [location.coordinates] when the body has them, a GeoJSON
    position (longitude and latitude, two Numbers), and [reviewData]. *)
Record body : Type := {
  coordinates : option (N * N);
  reviewData : val
}.

(** A document of the Review collection (first model of
    backend/models/Review.js), as stored and as answered: it has no
    score and no status. *)
Record review : Type := {
  stored_reviewData : val;
  timestamp : Z
}.

Inductive response : Type :=
  | Created (data : review)
  | Submitted (qualityScore : val)
      (assessment_status : option WaterQuality.status)
  | BadRequest (message : string)
  | Rethrown (error : exn).

(** [a || {}] *)
Definition or_empty (a : val) : val := if truthy a then a else VObj [].

(** [min: 1, max: 5] *)
Definition in_1_5 (n : N) : bool :=
  leb N (of_Z N 1) n && leb N n (of_Z N 5).

(** The validation of [reviewData.overallRating], a required Number
    path. *)
Definition valid_overallRating (v : val) : bool :=
  match v with
  | VNum n => in_1_5 n
  | _ => false
  end.

(** The validation of [reviewData.taste], [clarity] and [odor]: an
    object, whose [rating], when it has one, is a Number between 1
    and 5. *)
Definition valid_rated (v : val) : bool :=
  match v with
  | VObj props =>
      match lookup props "rating" with
      | VUndefined | VNull => true
      | VNum n => in_1_5 n
      | VObj _ => false
      end
  | _ => false
  end.

(** What is stored of [taste], [clarity] and [odor]: the [rating], and
    nothing at all of an object that holds none (the schema option
    [minimize], on by default, drops empty objects). *)
Definition stored_rated (key : string) (v : val) : list (string * val) :=
  match v with
  | VObj props =>
      match lookup props "rating" with
      | VUndefined => []
      | rating => [(key, VObj [("rating", rating)])]
      end
  | _ => []
  end.

(** [POST /api/reviews] (backend/routes/reviews.js, lines 14-82): the
    collection after the request, what the socket emitted, and the
    answer. [save_error] is what refuses a document that passed the
    validation of the paths embedded: the store, with its index on
    [location]. *)
Definition post_reviews (now : Z) (save_error : option exn)
  (collection : list review) (req : body)
  : list review * list (Esp32Routes.event N) * response :=
  let missing :=
    BadRequest ("Missing required fields: location.coordinates and "
                ++ "reviewData.overallRating are required")%string in
  let invalid := BadRequest "Validation failed" in
  match coordinates req with
  | None => (collection, [], missing)
  | Some _ =>
      match (if negb (truthy (reviewData req)) then Normal true else
             overallRating <- get (reviewData req) "overallRating" ;;
             Normal (negb (truthy overallRating))) with
      | Throw err => (collection, [], Rethrown err)
      | Normal true => (collection, [], missing)
      | Normal false =>
          match (overallRating <- get (reviewData req) "overallRating" ;;
                 taste <- get (reviewData req) "taste" ;;
                 clarity <- get (reviewData req) "clarity" ;;
                 odor <- get (reviewData req) "odor" ;;
                 Normal (overallRating, or_empty taste, or_empty clarity,
                         or_empty odor)) with
          | Throw err => (collection, [], Rethrown err)
          | Normal (overallRating, taste, clarity, odor) =>
              if negb (valid_overallRating overallRating
                       && valid_rated taste && valid_rated clarity
                       && valid_rated odor)
              then (collection, [], invalid)
              else
                match save_error with
                | Some ValidationError => (collection, [], invalid)
                | Some err => (collection, [], Rethrown err)
                | None =>
                    let saved :=
                      {| stored_reviewData :=
                           VObj (("overallRating", overallRating)
                                 :: stored_rated "taste" taste
                                 ++ stored_rated "clarity" clarity
                                 ++ stored_rated "odor" odor);
                         timestamp := now |} in
                    (collection ++ [saved], [], Created saved)
                end
          end
      end
  end.

(** [POST /api/water-quality/review] (lines 851-880 of the file that
    holds the water-quality router), behind [authMiddleware] and
    [validateWaterQualityReview]: a WaterQuality document with source
    [user_review] is handed to [save]; an error goes to the error
    handler. *)
Definition post_review (now : Z) (save_error : option exn)
  (collection : list (WaterQuality.doc N)) (reviewData : val)
  : list (WaterQuality.doc N) * list (Esp32Routes.event N) * response :=
  let waterQuality :=
    {| WaterQuality.source := "user_review";
       WaterQuality.deviceId := "";
       WaterQuality.timestamp := now;
       WaterQuality.sensorData := WaterQuality.cast_sensorData VUndefined;
       WaterQuality.reviewData := reviewData;
       WaterQuality.qualityScore := VUndefined;
       WaterQuality.assessment_status := None |} in
  match WaterQuality.save save_error
          (fun path => (path =? "reviewData")%string)
          collection waterQuality with
  | Throw err => (collection, [], Rethrown err)
  | Normal (saved, collection') =>
      (collection', [],
       Submitted (WaterQuality.qualityScore saved)
         (WaterQuality.assessment_status saved))
  end.

End Routes.

End ReviewRoutes.

(* ================================================================== *)
(** ** The device status job (backend/services/cronService.js) *)

Module CronService.

Inductive log_entry : Type :=
  | info_running
  | info_marked_offline (deviceId : string)
  | error_status_check (error : exn).

Section Job.

Context (N : Type) {A : Arith N}.
Variable e : ESP32Device.env.

Definition timeout : Z := 10 * 60 * 1000.

(** The [for ... of] loop (lines 15-24) over the documents [find]
    returned, each written back in place by its [save]. The result is
    the collection as persisted when the loop is left, the log lines
    written, and the error if a save threw: a throw leaves the loop, so
    the documents from the failing one on are as they were. *)
Fixpoint for_devices (devices : list (ESP32Device.doc N))
  : list (ESP32Device.doc N) * list log_entry * option exn :=
  match devices with
  | [] => ([], [], None)
  | device :: rest =>
      let timeSinceLastSeen :=
        ESP32Device.now e - ESP32Device.lastSeen device in
      if ESP32Device.status_eqb (ESP32Device.status device)
           ESP32Device.online
         && (timeSinceLastSeen >? timeout) then
        let device' := ESP32Device.set_status device ESP32Device.offline in
        match ESP32Device.save_doc e (Some device) device' with
        | Throw err => (device :: rest, [], Some err)
        | Normal saved =>
            let '(rest', log, thrown) := for_devices rest in
            (saved :: rest',
             info_marked_offline (ESP32Device.deviceId device) :: log,
             thrown)
        end
      else
        let '(rest', log, thrown) := for_devices rest in
        (device :: rest', log, thrown)
  end.

(** One run of the job (lines 8-28): the [try] block, then the
    [catch] clause, which logs the error. *)
Definition device_status_check (devices : list (ESP32Device.doc N))
  : list (ESP32Device.doc N) * list log_entry :=
  let '(devices', log, thrown) := for_devices devices in
  (devices',
   info_running :: log
   ++ match thrown with
      | Some err => [error_status_check err]
      | None => []
      end).

End Job.

End CronService.

(* ================================================================== *)
(** ** The scoring rules, as the specification words them *)

Module Spec.

Definition sensor_weights : list (string * Q) :=
  [ ("turbidity", 45 # 100); ("tds", 20 # 100);
    ("temperature", 15 # 100); ("dissolvedOxygen", 20 # 100) ].

Definition review_weights : list (string * Q) :=
  [ ("overallRating", 4 # 10); ("taste", 2 # 10);
    ("clarity", 2 # 10); ("odor", 2 # 10) ].

Definition Qsum (l : list Q) : Q := fold_right Qplus 0%Q l.

(** The weighted average of [(weight, sub-score)] pairs, the weights
    renormalized to sum to 1. *)
Definition weighted_average (l : list (Q * Q)) : Q :=
  let total := Qsum (map fst l) in
  Qsum (map (fun ws => (fst ws / total) * snd ws)%Q l).

(** The score of a reading whose present parameters have these weights
    and sub-scores: the weighted average to the nearest integer, 50
    when nothing is present. *)
Definition score_of (l : list (Q * Q)) : Z :=
  match l with
  | [] => 50
  | _ => round_half_up (weighted_average l)
  end.

(** [n] lies between the least and the greatest of [l]. *)
Definition in_hull (n : Z) (l : list Z) : Prop :=
  (exists s, In s l /\ s <= n) /\ (exists s, In s l /\ n <= s).

Definition in_hullb (n : Z) (l : list Z) : bool :=
  existsb (fun s => s <=? n) l && existsb (fun s => n <=? s) l.

(** The weights and sub-scores of the present entries of a row of
    sub-scores laid out along a weight table. *)
Definition contributions (weights : list (string * Q))
  (row : list (option Z)) : list (Q * Z) :=
  flat_map (fun wo => match snd wo with
                      | Some s => [(snd (fst wo), s)]
                      | None => []
                      end)
           (combine weights row).

Definition as_Q (l : list (Q * Z)) : list (Q * Q) :=
  map (fun ws => (fst ws, inject_Z (snd ws))) l.

(** The review score of the specification: a rating [r] counts for
    [r / 5 * 100]. *)
Definition review_contributions (row : list (option Q)) : list (Q * Q) :=
  flat_map (fun wo => match snd wo with
                      | Some r => [(snd (fst wo), (r / 5 * 100)%Q)]
                      | None => []
                      end)
           (combine review_weights row).

Section Payload.

Context (N : Type) {A : Arith N}.

(** [o[key]] where it does not throw, [undefined] elsewhere. *)
Definition prop (o : val N) (key : string) : val N :=
  match o with
  | VObj props => lookup props key
  | _ => VUndefined
  end.

(** The piecewise sub-score of a sensor parameter, as an integer. *)
Definition subscore (param : string) (value : val N) : Z :=
  if (param =? "turbidity")%string then
    if lt value (lit N 5) then 100
    else if lt value (lit N 10) then 80
    else if lt value (lit N 20) then 60
    else 30
  else if (param =? "tds")%string then
    if ge value (lit N 150) && le value (lit N 500) then 100
    else if ge value (lit N 100) && le value (lit N 750) then 80
    else if ge value (lit N 50) && le value (lit N 1000) then 60
    else 40
  else if (param =? "temperature")%string then
    if ge value (lit N 10) && le value (lit N 25) then 100
    else if ge value (lit N 5) && le value (lit N 30) then 80
    else 60
  else if (param =? "dissolvedOxygen")%string then
    if gt value (lit N 6) then 100
    else if gt value (lit N 4) then 80
    else if gt value (lit N 2) then 60
    else 30
  else 100.

(** The sub-score of [param] when the reading has it. *)
Definition present (this : WaterQuality.doc N) (param : string)
  : option Z :=
  let reading := prop (WaterQuality.sensorData this) param in
  let value := prop reading "value" in
  if truthy reading && negb (is_undefined value)
  then Some (subscore param value)
  else None.

Definition sensor_row (this : WaterQuality.doc N) : list (option Z) :=
  map (fun pw => present this (fst pw)) sensor_weights.

(** The rating the review loop reads under [param], when it reads one. *)
Definition rating_of (this : WaterQuality.doc N) (param : string)
  : option N :=
  let field := prop (WaterQuality.reviewData this) param in
  let rating := prop field "rating" in
  if truthy field && truthy rating then Some (ToNumber rating) else None.

(** The sums the two loops build, on the entries that are present. *)
Definition accumulate (f : N -> N)
  (l : list (option N * N)) : N * N :=
  fold_left
    (fun s ow =>
       match fst ow with
       | Some x => (add N (fst s) (mul N (f x) (snd ow)),
                    add N (snd s) (snd ow))
       | None => s
       end)
    l (of_Z N 0, of_Z N 0).

Definition finish (s : N * N) : N :=
  if ltb N (of_Z N 0) (snd s)
  then Math_round N (div N (fst s) (snd s))
  else of_Z N 50.

Definition sensor_run (row : list (option Z)) : N :=
  finish (accumulate (fun x => x)
            (combine (map (option_map (of_Z N)) row)
                     (map snd (WaterQuality.sensorWeights N)))).

Definition review_run (row : list (option N)) : N :=
  finish (accumulate
            (fun rating => mul N (div N rating (of_Z N 5)) (of_Z N 100))
            (combine row (map snd (WaterQuality.reviewWeights N)))).

(** An entry of the rating row: no rating, or one that is [ok]. *)
Definition rated (ok : N -> Prop) (o : option N) : Prop :=
  o = None \/ exists r, ok r /\ o = Some r.

Definition rating_row (this : WaterQuality.doc N)
  : list (option N) :=
  map (fun pw => rating_of this (fst pw)) review_weights.

Definition all_absent {T : Type} (row : list (option T)) : Prop :=
  Forall (fun o => o = None) row.

(** Neither loop adds anything: the source is none of the two, the
    payload is missing, or none of the weighted entries is present. *)
Definition nothing_scored (this : WaterQuality.doc N) : Prop :=
  (WaterQuality.source this = "esp32" -> all_absent (sensor_row this))
  /\ (WaterQuality.source this = "user_review" ->
      all_absent (rating_row this)).

(** The score is computed, is the integer [n] between 0 and 100, is 50
    when nothing is scored, and the pre-save hook goes through and
    leaves a score and a status on the document. *)
Definition scored (this : WaterQuality.doc N) (n : Z) : Prop :=
  WaterQuality.calculateQualityScore this = Normal (of_Z N n)
  /\ 0 <= n <= 100
  /\ (nothing_scored this -> n = 50)
  /\ forall isModified : string -> bool,
       exists this' : WaterQuality.doc N,
         WaterQuality.pre_save isModified this = Normal this'
         /\ (isModified "sensorData" || isModified "reviewData" = true ->
             WaterQuality.qualityScore this' = VNum (of_Z N n)
             /\ WaterQuality.assessment_status this'
                = Some (WaterQuality.determineStatus this')).

End Payload.

Arguments rated : clear implicits.
Arguments accumulate N {A} f l.
Arguments finish N {A} s.
Arguments sensor_run N {A} row.
Arguments review_run N {A} row.

(** A rating the schema admits ([min: 1, max: 5]): a binary64 Number
    between 1 and 5. *)
Definition rating_1_5 (r : spec_float) : Prop :=
  valid_binary Binary64.prec Binary64.emax r = true
  /\ SFleb (Binary64.of_Z 1) r = true
  /\ SFleb r (Binary64.of_Z 5) = true.

(** Every rating the review loop reads is one the schema admits. *)
Definition ratings_1_5 (this : WaterQuality.doc spec_float) : Prop :=
  Forall (rated spec_float rating_1_5) (rating_row this).

End Spec.

(* ================================================================== *)
(** ** Finite tables *)

Module Table.

Definition sf_eqb (x y : spec_float) : bool :=
  match x, y with
  | S754_zero a, S754_zero b => Bool.eqb a b
  | S754_infinity a, S754_infinity b => Bool.eqb a b
  | S754_nan, S754_nan => true
  | S754_finite a m e, S754_finite b m' e' =>
      Bool.eqb a b && Pos.eqb m m' && Z.eqb e e'
  | _, _ => false
  end.

Definition options {T : Type} (l : list T) : list (option T) :=
  None :: map Some l.

Definition rows4 {T : Type} (a b c d : list T) : list (list T) :=
  map (fun r => [fst r; fst (snd r); fst (snd (snd r)); snd (snd (snd r))])
      (list_prod a (list_prod b (list_prod c d))).

(** Every row of sub-scores the sensor loop can meet. *)
Definition sensor_rows : list (list (option Z)) :=
  rows4 (options [100; 80; 60; 30]) (options [100; 80; 60; 40])
        (options [100; 80; 60]) (options [100; 80; 60; 30]).

Definition sensor_expected (row : list (option Z)) : Z :=
  Spec.score_of (Spec.as_Q (Spec.contributions Spec.sensor_weights row)).

Definition sensor_bounds (row : list (option Z)) : bool :=
  (0 <=? sensor_expected row) && (sensor_expected row <=? 100)
  && match Spec.contributions Spec.sensor_weights row with
     | [] => sensor_expected row =? 50
     | l => Spec.in_hullb (sensor_expected row) (map snd l)
     end.

Definition check_sensor_binary64 (row : list (option Z)) : bool :=
  sf_eqb (Spec.sensor_run spec_float row)
         (Binary64.of_Z (sensor_expected row))
  && sensor_bounds row.

(** The scores a reading can have. *)
Definition scores : list Z := map Z.of_nat (seq 0 101).

(** On a score, the binary64 comparisons with 40 and 60 are the
    integer ones. *)
Definition check_breakpoints (n : Z) : bool :=
  Bool.eqb (SFltb (Binary64.of_Z n) (Binary64.of_Z 40)) (n <? 40)
  && Bool.eqb (SFltb (Binary64.of_Z n) (Binary64.of_Z 60)) (n <? 60).

End Table.

(* ================================================================== *)
(** ** The threshold rules, parameter by parameter *)

Module Rules.

Section Thresholds.

Context (N : Type) {A : Arith N}.

(** The four tests of the chain, on a value and a parameter's
    threshold record. *)
Definition below_criticalMin (value thresholds : val N) : bool :=
  negb (is_undefined (Spec.prop thresholds "criticalMin"))
  && lt value (Spec.prop thresholds "criticalMin").

Definition above_criticalMax (value thresholds : val N) : bool :=
  negb (is_undefined (Spec.prop thresholds "criticalMax"))
  && gt value (Spec.prop thresholds "criticalMax").

Definition below_min (value thresholds : val N) : bool :=
  negb (is_undefined (Spec.prop thresholds "min"))
  && lt value (Spec.prop thresholds "min").

Definition above_max (value thresholds : val N) : bool :=
  negb (is_undefined (Spec.prop thresholds "max"))
  && gt value (Spec.prop thresholds "max").

Definition reading_of (waterQualityData : WaterQuality.doc N)
  (sensorKey : string) : val N :=
  Spec.prop (WaterQuality.sensorData waterQualityData) sensorKey.

Definition value_of (waterQualityData : WaterQuality.doc N)
  (sensorKey : string) : val N :=
  Spec.prop (reading_of waterQualityData sensorKey) "value".

Definition thresholds_of (device : ESP32Device.doc N)
  (sensorKey : string) : val N :=
  Spec.prop (ESP32Device.thresholds device) sensorKey.

(** The parameter has a reading and the device has thresholds for it. *)
Definition evaluated (waterQualityData : WaterQuality.doc N)
  (device : ESP32Device.doc N) (sensorKey : string) : bool :=
  truthy (reading_of waterQualityData sensorKey)
  && truthy (thresholds_of device sensorKey).

(** What one turn of the threshold loop adds for [sensorKey]. *)
Definition sensor_alerts (waterQualityData : WaterQuality.doc N)
  (device : ESP32Device.doc N) (sensorKey : string)
  : list (Esp32Routes.alert N) :=
  let value := value_of waterQualityData sensorKey in
  let thresholds := thresholds_of device sensorKey in
  let raise type text bound :=
    [ {| Esp32Routes.type := type; Esp32Routes.sensor := sensorKey;
         Esp32Routes.text := text; Esp32Routes.value := value;
         Esp32Routes.threshold := Spec.prop thresholds bound |} ] in
  if evaluated waterQualityData device sensorKey then
    if below_criticalMin value thresholds then
      raise Esp32Routes.critical Esp32Routes.is_critically_low
            "criticalMin"
    else if above_criticalMax value thresholds then
      raise Esp32Routes.critical Esp32Routes.is_critically_high
            "criticalMax"
    else if below_min value thresholds then
      raise Esp32Routes.warning Esp32Routes.is_below_normal "min"
    else if above_max value thresholds then
      raise Esp32Routes.warning Esp32Routes.is_above_normal "max"
    else []
  else [].

(** The alerts of a list that name [sensorKey]. *)
Definition alerts_for (alerts : list (Esp32Routes.alert N))
  (sensorKey : string) : list (Esp32Routes.alert N) :=
  filter (fun a => (Esp32Routes.sensor a =? sensorKey)%string) alerts.

(** The alert of the check of the overall score. *)
Definition overall (type : Esp32Routes.severity)
  (text : Esp32Routes.message) (qualityScore : val N) (bound : Z)
  : Esp32Routes.alert N :=
  {| Esp32Routes.type := type; Esp32Routes.sensor := "overall";
     Esp32Routes.text := text; Esp32Routes.value := qualityScore;
     Esp32Routes.threshold := lit N bound |}.

Definition is_critical (a : Esp32Routes.alert N) : Prop :=
  Esp32Routes.type a = Esp32Routes.critical.

Definition is_warning (a : Esp32Routes.alert N) : Prop :=
  Esp32Routes.type a = Esp32Routes.warning.

End Thresholds.

End Rules.

(* ================================================================== *)
(** ** Concrete documents, requests and stores *)

Module Samples.

Definition number (n d : Z) : val spec_float :=
  @VNum spec_float (Binary64.decimal n d).

Definition stars (k : Z) : val spec_float := lit spec_float k.

Definition measured (N : Type) (v : val N) : val N := VObj [("value", v)].

Definition rated (N : Type) (v : val N) : val N := VObj [("rating", v)].

(** A sensor reading: turbidity 25 NTU, TDS 200 ppm. *)
Definition turbid_reading : WaterQuality.doc spec_float :=
  {| WaterQuality.source := "esp32";
     WaterQuality.deviceId := "esp32-001";
     WaterQuality.timestamp := 0;
     WaterQuality.sensorData :=
       VObj [ ("turbidity", measured (number 25 1));
              ("tds", measured (number 200 1)) ];
     WaterQuality.reviewData := VUndefined;
     WaterQuality.qualityScore := stars 52;
     WaterQuality.assessment_status := Some WaterQuality.fair |}.

Definition review_document (N : Type) {A : Arith N} (reviewData : val N)
  : WaterQuality.doc N :=
  {| WaterQuality.source := "user_review";
     WaterQuality.deviceId := "";
     WaterQuality.timestamp := 0;
     WaterQuality.sensorData := VUndefined;
     WaterQuality.reviewData := reviewData;
     WaterQuality.qualityScore := VUndefined;
     WaterQuality.assessment_status := None |}.

(** A review with five stars overall and no other rating, as
    [POST /api/reviews] lays it out. *)
Definition five_stars_overall : val spec_float :=
  VObj [ ("overallRating", stars 5); ("taste", VObj []);
         ("clarity", VObj []); ("odor", VObj []) ].

(** Five stars overall, one star for the taste. *)
Definition five_overall_one_taste : val spec_float :=
  VObj [ ("overallRating", stars 5); ("taste", rated (stars 1));
         ("clarity", VObj []); ("odor", VObj []) ].

(** One star everywhere. *)
Definition one_star : val spec_float :=
  VObj [ ("overallRating", stars 1); ("taste", rated (stars 1));
         ("clarity", rated (stars 1)); ("odor", rated (stars 1)) ].

(** Four stars overall, three and a half for the taste. *)
Definition taste_three_and_a_half : val spec_float :=
  VObj [ ("overallRating", stars 4); ("taste", rated (number 35 10)) ].

(** Six for the taste, which the schema does not admit. *)
Definition taste_six : val spec_float :=
  VObj [ ("overallRating", stars 5); ("taste", rated (stars 6)) ].

Definition at_noon : Z := 1700000000000.

(** Every save goes through. *)
Definition healthy : ESP32Device.env :=
  {| ESP32Device.now := at_noon;
     ESP32Device.WaterQuality_save_error := None;
     ESP32Device.ESP32Device_save_error := fun _ => None |}.

(** The readings collection refuses the write. *)
Definition readings_down : ESP32Device.env :=
  {| ESP32Device.now := at_noon;
     ESP32Device.WaterQuality_save_error :=
       Some (StorageError "write failed");
     ESP32Device.ESP32Device_save_error := fun _ => None |}.

(** The device collection refuses the write of [esp32-001]. *)
Definition first_device_down : ESP32Device.env :=
  {| ESP32Device.now := at_noon;
     ESP32Device.WaterQuality_save_error := None;
     ESP32Device.ESP32Device_save_error :=
       fun id => if (id =? "esp32-001")%string
                 then Some (StorageError "write failed") else None |}.

(** A device last seen eleven minutes before noon. *)
Definition silent (id : string) (s : ESP32Device.status_t)
  : ESP32Device.doc spec_float :=
  ESP32Device.create spec_float (at_noon - 11 * 60 * 1000) id s.

(** The reading of scenario A: everything in its ideal band. *)
Definition clean_water : Esp32Routes.body spec_float :=
  {| Esp32Routes.deviceId := "esp32-001";
     Esp32Routes.timestamp := None;
     Esp32Routes.sensors :=
       VObj [ ("turbidity", measured (number 21 10));
              ("tds", measured (number 150 1));
              ("temperature", measured (number 225 10));
              ("dissolvedOxygen", measured (number 85 10)) ];
     Esp32Routes.batteryLevel := VUndefined;
     Esp32Routes.signalStrength := VUndefined;
     Esp32Routes.deviceTemperature := VUndefined |}.

(** Dissolved oxygen at 1 mg/L and nothing else: no threshold is
    configured for it, and the score is 30. *)
Definition airless_water : Esp32Routes.body spec_float :=
  {| Esp32Routes.deviceId := "esp32-001";
     Esp32Routes.timestamp := None;
     Esp32Routes.sensors :=
       VObj [("dissolvedOxygen", measured (number 1 1))];
     Esp32Routes.batteryLevel := VUndefined;
     Esp32Routes.signalStrength := VUndefined;
     Esp32Routes.deviceTemperature := VUndefined |}.

Definition no_device : Esp32Routes.db spec_float :=
  {| Esp32Routes.devices := []; Esp32Routes.readings := [] |}.

(** What the loop of the handler keeps of a request's [sensors]. *)
Definition kept (req : Esp32Routes.body spec_float)
  : list (string * val spec_float) :=
  match Esp32Routes.sensors req with
  | VObj props =>
      map (fun kv => (fst kv, measured (Spec.prop (snd kv) "value")))
          props
  | _ => []
  end.

(** The reading of [req] once the hook has given it the score [n] and
    the [status]. *)
Definition reading (req : Esp32Routes.body spec_float) (n : Z)
  (status : WaterQuality.status) : WaterQuality.doc spec_float :=
  {| WaterQuality.source := "esp32";
     WaterQuality.deviceId := Esp32Routes.deviceId req;
     WaterQuality.timestamp := at_noon;
     WaterQuality.sensorData :=
       WaterQuality.cast_sensorData (Esp32Routes.sensors req);
     WaterQuality.reviewData := VUndefined;
     WaterQuality.qualityScore := stars n;
     WaterQuality.assessment_status := Some status |}.

(** A review from Delhi, one star everywhere. *)
Definition one_star_review : ReviewRoutes.body spec_float :=
  {| ReviewRoutes.coordinates :=
       Some (Binary64.decimal 772 10, Binary64.decimal 286 10);
     ReviewRoutes.reviewData := one_star |}.

Definition one_device (s : ESP32Device.status_t)
  : Esp32Routes.db spec_float :=
  {| Esp32Routes.devices := [silent "esp32-001" s];
     Esp32Routes.readings := [] |}.

End Samples.

(* ================================================================== *)
(** ** The rule of the status job, device by device *)

Module Sweep.

Section Rule.

Context (N : Type) {A : Arith N}.
Variable e : ESP32Device.env.

(** The device is [online] and was last seen more than ten minutes
    before the run. *)
Definition silent (device : ESP32Device.doc N) : bool :=
  ESP32Device.status_eqb (ESP32Device.status device) ESP32Device.online
  && (ESP32Device.now e - ESP32Device.lastSeen device
      >? CronService.timeout).

Definition swept (device : ESP32Device.doc N) : ESP32Device.doc N :=
  if silent device
  then ESP32Device.set_status device ESP32Device.offline
  else device.

Definition marked (device : ESP32Device.doc N)
  : list CronService.log_entry :=
  if silent device
  then [CronService.info_marked_offline (ESP32Device.deviceId device)]
  else [].

(** The store accepts every document of the list. *)
Definition all_saved (devices : list (ESP32Device.doc N)) : Prop :=
  forall device, In device devices ->
    ESP32Device.ESP32Device_save_error e (ESP32Device.deviceId device)
    = None.

End Rule.

End Sweep.

(* ================================================================== *)
(** ** What the overall check of a saved reading amounts to *)

Module Overall.

Section Checked.

Context (N : Type) {A : Arith N}.

(** The answer carries the score [q] of the reading [saved], the
    integer [n], and the alerts [al], among them the [overall] alert the
    score calls for; when there is an alert the socket emitted them. *)
Definition checked (req : Esp32Routes.body N)
  (events : list (Esp32Routes.event N)) (q : val N)
  (alerts : option (list (Esp32Routes.alert N)))
  (n : Z) (al : list (Esp32Routes.alert N)) (saved : WaterQuality.doc N)
  : Prop :=
  q = WaterQuality.qualityScore saved
  /\ q = lit N n
  /\ alerts = match al with [] => None | _ => Some al end
  /\ (n < 40 ->
      In (Rules.overall Esp32Routes.critical
            Esp32Routes.quality_critically_poor q 40) al)
  /\ (40 <= n < 60 ->
      In (Rules.overall Esp32Routes.warning
            Esp32Routes.quality_below_normal q 60) al)
  /\ (al <> [] ->
      In (Esp32Routes.water_quality_alert (Esp32Routes.deviceId req)
            al (WaterQuality.timestamp saved)) events).

End Checked.

End Overall.

(* ================================================================== *)
(** ** The status of a sensor value (backend/routes/esp32.js) *)

Module Esp32Helpers.

Inductive sensor_status : Type := normal | high | low | critical.

Section Helpers.

Context (N : Type) {A : Arith N}.

(** [determineSensorStatus] (lines 466-477); [sensorType] is not read
    by the function. *)
Definition determineSensorStatus (sensorType : string)
  (value thresholds : val N) : completion sensor_status :=
  if negb (truthy thresholds) then Normal normal else
  min <- get thresholds "min" ;;
  max <- get thresholds "max" ;;
  criticalMin <- get thresholds "criticalMin" ;;
  criticalMax <- get thresholds "criticalMax" ;;
  if negb (is_undefined criticalMin) && lt value criticalMin
  then Normal critical
  else if negb (is_undefined criticalMax) && gt value criticalMax
  then Normal critical
  else if negb (is_undefined min) && lt value min then Normal low
  else if negb (is_undefined max) && gt value max then Normal high
  else Normal normal.

End Helpers.

End Esp32Helpers.

(* ================================================================== *)
(** ** More methods of the ESP32Device model *)

Module DeviceMethods.

Section Methods.

Context (N : Type) {A : Arith N}.
Variable e : ESP32Device.env.

Definition timeout : Z := 5 * 60 * 1000.

(** [isOnline] (lines 260-263). *)
Definition isOnline (this : ESP32Device.doc N) : bool :=
  ESP32Device.status_eqb (ESP32Device.status this) ESP32Device.online
  && (ESP32Device.now e - ESP32Device.lastSeen this <? timeout).

(** [getOnlineDevices] (lines 329-337): the documents the query
    [{status: 'online', lastSeen: {$gte: cutoffTime}}] matches. *)
Definition getOnlineDevices (collection : list (ESP32Device.doc N))
  : list (ESP32Device.doc N) :=
  let cutoffTime := ESP32Device.now e - timeout in
  filter (fun device =>
            ESP32Device.status_eqb (ESP32Device.status device)
              ESP32Device.online
            && (cutoffTime <=? ESP32Device.lastSeen device))
         collection.

End Methods.

End DeviceMethods.

(* ================================================================== *)
(** ** The data cleanup job (backend/services/cronService.js) *)

Module DataCleanup.

Inductive log_entry : Type :=
  | info_running
  | info_cleaned (deletedCount : Z)
  | error_cleanup (error : exn).

Section Job.

Context (N : Type) {A : Arith N}.

(** What a run gets from the outside: [thirtyDaysAgo], the instant
    [setDate(getDate() - 30)] makes of the time of the run, and whether
    the store refuses the deletion. *)
Variable thirtyDaysAgo : Z.
Variable deleteMany_error : option exn.

(** The filter [{timestamp: {$lt: thirtyDaysAgo}, source: 'esp32'}]. *)
Definition matches (record : WaterQuality.doc N) : bool :=
  (WaterQuality.timestamp record <? thirtyDaysAgo)
  && (WaterQuality.source record =? "esp32")%string.

(** [deleteMany]: the collection without the matching documents, and
    [deletedCount]. *)
Definition deleteMany (collection : list (WaterQuality.doc N))
  : completion (list (WaterQuality.doc N) * Z) :=
  match deleteMany_error with
  | Some err => Throw err
  | None =>
      Normal (filter (fun record => negb (matches record)) collection,
              Z.of_nat (List.length (filter matches collection)))
  end.

(** One run of the job (lines 31-47): the collection afterwards and the
    log lines. *)
Definition data_cleanup (collection : list (WaterQuality.doc N))
  : list (WaterQuality.doc N) * list log_entry :=
  match deleteMany collection with
  | Normal (collection', deletedCount) =>
      (collection', [info_running; info_cleaned deletedCount])
  | Throw err => (collection, [info_running; error_cleanup err])
  end.

End Job.

End DataCleanup.

(* ================================================================== *)
(** ** The statistics of a location (the water-quality router) *)

Module LocationStats.

Inductive trend : Type := stable | improving | declining.

Record distribution : Type := {
  excellent : Z;
  good : Z;
  fair : Z;
  poor : Z;
  critical : Z
}.

Section Stats.

Context (N : Type) {A : Arith N}.

Record stats : Type := {
  totalReadings : Z;
  avgQualityScore : N;
  qualityDistribution : distribution;
  recentTrend : trend
}.

(** [data.filter(test).length] *)
Definition count (test : WaterQuality.doc N -> bool)
  (data : list (WaterQuality.doc N)) : Z :=
  Z.of_nat (List.length (filter test data)).

(** [items.reduce((sum, item) => sum + item.qualityScore, 0)];
    [qualityScore] is a Number path, and [+] adds Numbers. *)
Definition total (items : list (WaterQuality.doc N)) : N :=
  fold_left
    (fun sum item => add N sum (ToNumber (WaterQuality.qualityScore item)))
    items (of_Z N 0).

(** [data.slice(from, to)], for [0 <= from <= to]. *)
Definition slice {T : Type} (data : list T) (from to : nat) : list T :=
  firstn (to - from) (skipn from data).

(** [calculateLocationStats] (lines 1168-1214 of the file that holds
    the water-quality router); [data] is sorted by the caller, the
    most recent reading first. *)
Definition calculateLocationStats (data : list (WaterQuality.doc N))
  : stats :=
  if Z.of_nat (List.length data) =? 0 then
    {| totalReadings := 0; avgQualityScore := of_Z N 0;
       qualityDistribution :=
         {| excellent := 0; good := 0; fair := 0; poor := 0;
            critical := 0 |};
       recentTrend := stable |}
  else
    let score := WaterQuality.qualityScore (N := N) in
    let avgQualityScore :=
      div N (total data) (of_Z N (Z.of_nat (List.length data))) in
    let qualityDistribution :=
      {| excellent := count (fun item => ge (score item) (lit N 80)) data;
         good :=
           count (fun item => ge (score item) (lit N 60)
                              && lt (score item) (lit N 80)) data;
         fair :=
           count (fun item => ge (score item) (lit N 40)
                              && lt (score item) (lit N 60)) data;
         poor :=
           count (fun item => ge (score item) (lit N 20)
                              && lt (score item) (lit N 40)) data;
         critical := count (fun item => lt (score item) (lit N 20)) data |}
    in
    let recentTrend :=
      if 20 <=? Z.of_nat (List.length data) then
        let recentAvg := div N (total (slice data 0 10)) (of_Z N 10) in
        let previousAvg := div N (total (slice data 10 20)) (of_Z N 10) in
        if ltb N (add N previousAvg (of_Z N 5)) recentAvg then improving
        else if ltb N recentAvg (sub N previousAvg (of_Z N 5))
        then declining
        else stable
      else stable in
    {| totalReadings := Z.of_nat (List.length data);
       avgQualityScore :=
         div N (Math_round N (mul N avgQualityScore (of_Z N 100)))
           (of_Z N 100);
       qualityDistribution := qualityDistribution;
       recentTrend := recentTrend |}.

End Stats.

End LocationStats.
(* ================================================================== *)
(** ** The bands of a score *)

Module Bands.

Definition status_eqb (a b : WaterQuality.status) : bool :=
  match a, b with
  | WaterQuality.excellent, WaterQuality.excellent
  | WaterQuality.good, WaterQuality.good
  | WaterQuality.fair, WaterQuality.fair
  | WaterQuality.poor, WaterQuality.poor
  | WaterQuality.critical, WaterQuality.critical => true
  | _, _ => false
  end.

(** The band of an integer score. *)
Definition band (n : Z) : WaterQuality.status :=
  if 80 <=? n then WaterQuality.excellent
  else if 60 <=? n then WaterQuality.good
  else if 40 <=? n then WaterQuality.fair
  else if 20 <=? n then WaterQuality.poor
  else WaterQuality.critical.

Definition rank (s : WaterQuality.status) : Z :=
  match s with
  | WaterQuality.critical => 0
  | WaterQuality.poor => 1
  | WaterQuality.fair => 2
  | WaterQuality.good => 3
  | WaterQuality.excellent => 4
  end.

(** The count of a band in a distribution. *)
Definition bucket (d : LocationStats.distribution)
  (s : WaterQuality.status) : Z :=
  match s with
  | WaterQuality.excellent => LocationStats.excellent d
  | WaterQuality.good => LocationStats.good d
  | WaterQuality.fair => LocationStats.fair d
  | WaterQuality.poor => LocationStats.poor d
  | WaterQuality.critical => LocationStats.critical d
  end.

(** On a score, the binary64 comparisons with a breakpoint are the
    integer ones. *)
Definition check_bands (n : Z) : bool :=
  forallb (fun k =>
             Bool.eqb (SFleb (Binary64.of_Z k) (Binary64.of_Z n)) (k <=? n)
             && Bool.eqb (SFltb (Binary64.of_Z n) (Binary64.of_Z k))
                  (n <? k))
          [20; 40; 60; 80].

(** The document holds a whole score between 0 and 100. *)
Definition whole_score (item : WaterQuality.doc spec_float) : Prop :=
  exists n : Z,
    0 <= n <= 100 /\ WaterQuality.qualityScore item = lit spec_float n.

End Bands.

(* ================================================================== *)
(** ** The reading counters of a device *)

Module Counters.

(** Every reading counted is counted as successful or as failed. *)
Definition consistent (N : Type) (device : ESP32Device.doc N) : Prop :=
  ESP32Device.totalReadings device
  = ESP32Device.successfulReadings device
    + ESP32Device.failedReadings device.

Arguments consistent : clear implicits.

(** The counters after [recordReading(true)] at [now]. *)
Definition counted (N : Type) (now : Z) (device : ESP32Device.doc N)
  : ESP32Device.doc N :=
  ESP32Device.set_statistics device
    (ESP32Device.totalReadings device + 1)
    (ESP32Device.successfulReadings device + 1)
    (ESP32Device.failedReadings device)
    (Some now).

End Counters.

(* ================================================================== *)
(** ** What [POST /data] keeps of the [sensors] of a request *)

Module Intake.

Section Sensors.

Context (N : Type) {A : Arith N}.

(** The entry of [sensorKey] has a value that is neither [undefined]
    nor [null]. *)
Definition usable (sensors : val N) (sensorKey : string) : bool :=
  truthy (Spec.prop sensors sensorKey)
  && match Spec.prop (Spec.prop sensors sensorKey) "value" with
     | VUndefined | VNull => false
     | _ => true
     end.

(** What one turn of the loop adds to [sensorData]. *)
Definition kept (sensors : val N) (sensorKey : string)
  : list (string * val N) :=
  if usable sensors sensorKey
  then [(sensorKey,
         VObj [("value", Spec.prop (Spec.prop sensors sensorKey) "value")])]
  else [].

End Sensors.

End Intake.

(* ================================================================== *)
(** ** More requests and instants *)

Module Requests.

(** Conductivity alone, which has no weight in the score. *)
Definition conductivity_only : Esp32Routes.body spec_float :=
  {| Esp32Routes.deviceId := "esp32-001";
     Esp32Routes.timestamp := None;
     Esp32Routes.sensors :=
       VObj [("conductivity", Samples.measured (Samples.number 300 1))];
     Esp32Routes.batteryLevel := VUndefined;
     Esp32Routes.signalStrength := VUndefined;
     Esp32Routes.deviceTemperature := VUndefined |}.

End Requests.

(* ================================================================== *)
(** ** Paging through reviews and readings *)

Module Pagination.

Section Pages.

Variable T : Type.

(** [Model.find(query).sort(...).skip(skip).limit(limit)] with
    [skip = (page - 1) * limit] ([GET /api/reviews], lines 107-110 of
    backend/routes/reviews.js, and [GET /api/water-quality]): [found] is
    what the query matches, in the order of the sort; [limit] and [page]
    are what [parseInt] makes of the query string, taken positive. *)
Definition page_of (found : list T) (limit page : positive) : list T :=
  let skip := ((Pos.to_nat page - 1) * Pos.to_nat limit)%nat in
  firstn (Pos.to_nat limit) (skipn skip found).

(** [Math.ceil(total / limit)]; the counts are below 2^26, where the
    quotient computed in binary64 has the ceiling of the exact one. *)
Definition pages (total : nat) (limit : positive) : Z :=
  (Z.of_nat total + Z.pos limit - 1) / Z.pos limit.

(** The [pagination] object of [GET /api/reviews] (lines 118-123). *)
Record pagination : Type := {
  current : Z;
  total : Z;
  count : Z;
  totalReviews : Z
}.

Definition get_reviews (found : list T) (limit page : positive)
  : list T * pagination :=
  let reviews := page_of found limit page in
  let countDocuments := List.length found in
  (reviews,
   {| current := Z.pos page;
      total := pages countDocuments limit;
      count := Z.of_nat (List.length reviews);
      totalReviews := Z.of_nat countDocuments |}).

End Pages.

End Pagination.

(* ================================================================== *)
(** ** Registering and deleting devices (backend/routes/esp32.js) *)

Module DeviceRegistry.

(** [req.user], as [authMiddleware] leaves it. *)
Record user : Type := {
  id : string;
  role : string
}.

Section Registry.

(** The paths of a device document other than its id and its
    administrators. *)
Variable D : Type.

Record device : Type := {
  deviceId : string;
  adminUsers : list string;
  document : D
}.

Inductive response : Type :=
  | R201 (message : string) (data : device)
  | R200 (message : string)
  | R400 (message : string)
  | R403 (message : string)
  | R404 (message : string)
  | R500 (message : string) (error : exn).

Fixpoint findOne (collection : list device) (id : string) : option device :=
  match collection with
  | [] => None
  | d :: rest =>
      if (deviceId d =? id)%string then Some d else findOne rest id
  end.

(** [deleteOne({deviceId})]: the first match goes. *)
Fixpoint deleteOne (collection : list device) (id : string) : list device :=
  match collection with
  | [] => []
  | d :: rest =>
      if (deviceId d =? id)%string then rest else d :: deleteOne rest id
  end.

(** [array.includes(x)] *)
Definition includes (array : list string) (x : string) : bool :=
  existsb (fun y => (y =? x)%string) array.

(** [POST /devices] (lines 226-277). [built] is the evaluation of the
    argument of [new ESP32Device(...)], which throws when the body has no
    [location]; [save_error] is what the store answers to [save()]. *)
Definition post_devices (save_error : option exn)
  (collection : list device) (req_user : user) (id : string)
  (built : completion D) : list device * response :=
  let failed := R500 "Failed to register device" in
  match findOne collection id with
  | Some existingDevice =>
      (collection, R400 "Device with this ID already exists")
  | None =>
      match built with
      | Throw err => (collection, failed err)
      | Normal paths =>
          let device :=
            {| deviceId := id; adminUsers := [DeviceRegistry.id req_user];
               document := paths |} in
          match save_error with
          | Some err => (collection, failed err)
          | None =>
              (collection ++ [device],
               R201 "Device registered successfully" device)
          end
      end
  end.

(** [DELETE /devices/:deviceId] (lines 330-365). *)
Definition delete_devices (deleteOne_error : option exn)
  (collection : list device) (req_user : user) (id : string)
  : list device * response :=
  match findOne collection id with
  | None => (collection, R404 "Device not found")
  | Some device =>
      if negb (includes (adminUsers device) (DeviceRegistry.id req_user))
         && negb (role req_user =? "admin")%string
      then (collection, R403 "Access denied")
      else
        match deleteOne_error with
        | Some err => (collection, R500 "Failed to delete device" err)
        | None =>
            (deleteOne collection id, R200 "Device deleted successfully")
        end
  end.

End Registry.

End DeviceRegistry.

(* ================================================================== *)
(** ** The in-memory cache of responses (the cache middleware) *)

Module Cache.

Definition CACHE_TTL : Z := 5 * 60 * 1000.

Section Middleware.

(** The body of a response. *)
Variable D : Type.

Record entry : Type := {
  data : D;
  timestamp : Z
}.

(** The [Map], in insertion order. *)
Definition cache : Type := list (string * entry).

Fixpoint Map_get (c : cache) (key : string) : option entry :=
  match c with
  | [] => None
  | (k, v) :: rest => if (k =? key)%string then Some v else Map_get rest key
  end.

(** [set] on a key of the map replaces its value where it is. *)
Fixpoint Map_set (c : cache) (key : string) (value : entry) : cache :=
  match c with
  | [] => [(key, value)]
  | (k, v) :: rest =>
      if (k =? key)%string then (k, value) :: rest
      else (k, v) :: Map_set rest key value
  end.

(** [cleanupCache] (lines 134-141), run at [now]. *)
Definition cleanupCache (now : Z) (c : cache) : cache :=
  filter (fun kv => negb (now - timestamp (snd kv) >? CACHE_TTL)) c.

(** [cacheMiddleware(duration)] on a request for [key] at [now]
    (lines 105-112): the body answered from the cache, or [None] when the
    request goes on to the handler. *)
Definition cached_response (duration now : Z) (c : cache) (key : string)
  : option D :=
  match Map_get c key with
  | Some cached =>
      if now - timestamp cached <? duration then Some (data cached)
      else None
  | None => None
  end.

(** The [res.json] the middleware installs (lines 118-128), called by
    the handler with [body]: the cache after it. [Date.now()] is read
    twice, for the entry and in [cleanupCache]. *)
Definition res_json (c : cache) (key : string) (body : D)
  (set_at cleanup_at : Z) : cache :=
  cleanupCache cleanup_at
    (Map_set c key {| data := body; timestamp := set_at |}).

End Middleware.

End Cache.

(* ================================================================== *)
(** ** The log of the status job, read back *)

Module SweepLog.

(** The ids the log reports as marked offline, in order. *)
Definition marked_offline (log : list CronService.log_entry)
  : list string :=
  flat_map (fun entry =>
              match entry with
              | CronService.info_marked_offline deviceId => [deviceId]
              | _ => []
              end)
           log.

(** The ids of the devices whose status differs after the run. *)
Definition changed (N : Type) (before after : list (ESP32Device.doc N))
  : list string :=
  map (fun p => ESP32Device.deviceId (fst p))
      (filter (fun p =>
                 negb (ESP32Device.status_eqb (ESP32Device.status (fst p))
                         (ESP32Device.status (snd p))))
              (combine before after)).

End SweepLog.

(* ================================================================== *)
(** ** Binary64 numbers as scaled integers *)

Module Dyadic.

(** Values are counted in units of [2^-K]. *)
Definition K : Z := 256.

(** [x] is a positive normal number, worth [v / 2^K]. *)
Definition repr (x : spec_float) (v : Z) : Prop :=
  exists m e,
    x = S754_finite false m e
    /\ Z.pos (digits2_pos m) = 53
    /\ -200 <= e <= 200
    /\ v = Z.pos m * 2 ^ (e + K).

(** [v / 2^K] lies between [2^-32] and [2^32]. *)
Definition moderate (v : Z) : Prop := 2 ^ (K - 32) <= v <= 2 ^ (K + 32).

(** The sums of the review loop once a rating has been added, at most
    [a] iterations into the loop: the total weight lies between 1/8 and
    [a], and the score between 20 and 100 times the total weight, up to
    [a] parts in [2^40]. *)
Definition sums (a : Z) (s : spec_float * spec_float) : Prop :=
  exists vS vW,
    repr (fst s) vS /\ repr (snd s) vW
    /\ 2 ^ (K - 3) <= vW <= a * 2 ^ K
    /\ 20 * (2 ^ 40 - a) * vW <= 2 ^ 40 * vS
    /\ 2 ^ 40 * vS <= 100 * (2 ^ 40 + a) * vW.

(** The state of the review loop after [a] iterations. *)
Definition review_state (a : Z) (s : spec_float * spec_float) : Prop :=
  s = (Binary64.of_Z 0, Binary64.of_Z 0) \/ sums a s.

End Dyadic.

(* ================================================================== *)
(** ** Scoring: the loops against the rules *)

Section ScoringLemmas.

Context (N : Type) {A : Arith N}.

Lemma paramScore_subscore (param : string) (v : val N) :
  WaterQuality.paramScore param v = of_Z N (Spec.subscore param v).
Proof.
  unfold WaterQuality.paramScore, Spec.subscore.
  repeat match goal with
         | |- context [if ?c then _ else _] => destruct c
         end; reflexivity.
Qed.

Lemma get_prop (o : val N) (key : string) :
  truthy o = true -> get o key = Normal (Spec.prop o key).
Proof. destruct o; simpl; intros H; try discriminate; reflexivity. Qed.

Lemma prop_falsy (o : val N) (key : string) :
  truthy o = false -> truthy (Spec.prop o key) = false.
Proof. destruct o; simpl; intros H; try discriminate; reflexivity. Qed.

Lemma sensor_body_spec (this : WaterQuality.doc N) (s : N * N)
  (param : string) (w : N) :
  truthy (WaterQuality.sensorData this) = true ->
  WaterQuality.sensor_body this s (param, w)
  = Normal match Spec.present this param with
           | Some z => (add N (fst s) (mul N (of_Z N z) w),
                        add N (snd s) w)
           | None => s
           end.
Proof.
  intros Hsd. destruct s as [score totalWeight].
  unfold WaterQuality.sensor_body, Spec.present.
  rewrite (get_prop _ _ Hsd). simpl.
  destruct (truthy (Spec.prop (WaterQuality.sensorData this) param)) eqn:Hr;
    simpl; [| reflexivity].
  rewrite (get_prop _ _ Hr). simpl.
  destruct (is_undefined _); simpl; [reflexivity |].
  now rewrite paramScore_subscore.
Qed.

Lemma review_body_spec (this : WaterQuality.doc N) (s : N * N)
  (param : string) (w : N) :
  truthy (WaterQuality.reviewData this) = true ->
  WaterQuality.review_body this s (param, w)
  = Normal match Spec.rating_of this param with
           | Some r =>
               (add N (fst s)
                  (mul N (mul N (div N r (of_Z N 5)) (of_Z N 100)) w),
                add N (snd s) w)
           | None => s
           end.
Proof.
  intros Hrd. destruct s as [score totalWeight].
  unfold WaterQuality.review_body, Spec.rating_of.
  rewrite (get_prop _ _ Hrd). simpl.
  destruct (truthy (Spec.prop (WaterQuality.reviewData this) param)) eqn:Hf;
    simpl; [| reflexivity].
  rewrite (get_prop _ _ Hf). simpl.
  destruct (truthy (Spec.prop (Spec.prop _ param) "rating")); reflexivity.
Qed.

(** The sensor branch never throws, and returns what the sums over the
    present parameters give. *)
Lemma calculate_sensor (this : WaterQuality.doc N) :
  WaterQuality.source this = "esp32" ->
  truthy (WaterQuality.sensorData this) = true ->
  WaterQuality.calculateQualityScore this
  = Normal (Spec.sensor_run N (Spec.sensor_row this)).
Proof.
  intros Hsrc Hsd. unfold WaterQuality.calculateQualityScore.
  rewrite Hsrc, Hsd. cbn [String.eqb Ascii.eqb Bool.eqb andb].
  unfold WaterQuality.sensorWeights. cbn [forEach].
  do 4 (rewrite sensor_body_spec by assumption; cbn [bind]).
  unfold Spec.sensor_run, Spec.sensor_row, Spec.accumulate, Spec.finish.
  unfold WaterQuality.sensorWeights, Spec.sensor_weights.
  cbn [map combine fold_left fst snd option_map].
  destruct (Spec.present this "turbidity"), (Spec.present this "tds"),
    (Spec.present this "temperature"),
    (Spec.present this "dissolvedOxygen"); reflexivity.
Qed.

(** The review branch never throws either. *)
Lemma calculate_review (this : WaterQuality.doc N) :
  WaterQuality.source this = "user_review" ->
  truthy (WaterQuality.reviewData this) = true ->
  WaterQuality.calculateQualityScore this
  = Normal (Spec.review_run N
              (map (fun pw => Spec.rating_of this (fst pw))
                   Spec.review_weights)).
Proof.
  intros Hsrc Hrd. unfold WaterQuality.calculateQualityScore.
  rewrite Hsrc, Hrd. cbn [String.eqb Ascii.eqb Bool.eqb andb].
  unfold WaterQuality.reviewWeights. cbn [forEach].
  do 4 (rewrite review_body_spec by assumption; cbn [bind]).
  unfold Spec.review_run, Spec.accumulate, Spec.finish.
  unfold WaterQuality.reviewWeights, Spec.review_weights.
  cbn [map combine fold_left fst snd].
  destruct (Spec.rating_of this "overallRating"),
    (Spec.rating_of this "taste"), (Spec.rating_of this "clarity"),
    (Spec.rating_of this "odor"); reflexivity.
Qed.

End ScoringLemmas.

(* ================================================================== *)
(** ** The tables are complete and checked *)

Lemma sf_eqb_eq (x y : spec_float) : Table.sf_eqb x y = true -> x = y.
Proof.
  destruct x, y; simpl; intros H; try discriminate; try reflexivity.
  - apply Bool.eqb_prop in H. now subst.
  - apply Bool.eqb_prop in H. now subst.
  - apply andb_prop in H as [H He]. apply andb_prop in H as [Hs Hm].
    apply Bool.eqb_prop in Hs. apply Pos.eqb_eq in Hm. apply Z.eqb_eq in He.
    now subst.
Qed.

Lemma in_hullb_spec (n : Z) (l : list Z) :
  Spec.in_hullb n l = true -> Spec.in_hull n l.
Proof.
  unfold Spec.in_hullb, Spec.in_hull. intros H.
  apply andb_prop in H as [Hlo Hhi].
  apply existsb_exists in Hlo as [lo [Hin Hle]].
  apply existsb_exists in Hhi as [hi [Hin' Hle']].
  split; [exists lo | exists hi]; split; auto; lia.
Qed.

Lemma rows4_in {T : Type} (la lb lc ld : list T) (a b c d : T) :
  In a la -> In b lb -> In c lc -> In d ld ->
  In [a; b; c; d] (Table.rows4 la lb lc ld).
Proof.
  intros Ha Hb Hc Hd. unfold Table.rows4.
  apply in_map_iff. exists (a, (b, (c, d))). split; [reflexivity |].
  repeat apply in_prod; assumption.
Qed.

Lemma present_in_options (N : Type) {A : Arith N} (this : WaterQuality.doc N) :
  In (Spec.present this "turbidity") (Table.options [100; 80; 60; 30])
  /\ In (Spec.present this "tds") (Table.options [100; 80; 60; 40])
  /\ In (Spec.present this "temperature") (Table.options [100; 80; 60])
  /\ In (Spec.present this "dissolvedOxygen")
        (Table.options [100; 80; 60; 30]).
Proof.
  unfold Spec.present, Spec.subscore, Table.options.
  cbn [String.eqb Ascii.eqb Bool.eqb map].
  repeat split;
    repeat match goal with
           | |- context [if ?c then _ else _] => destruct c
           end; simpl; tauto.
Qed.

Lemma sensor_row_in_table (N : Type) {A : Arith N} (this : WaterQuality.doc N) :
  In (Spec.sensor_row this) Table.sensor_rows.
Proof.
  destruct (present_in_options this) as (Ht & Hd & Hc & Ho).
  unfold Spec.sensor_row, Spec.sensor_weights, Table.sensor_rows.
  cbn [map fst]. now apply rows4_in.
Qed.

(** On each of the 500 rows, the binary64 sums end on the integer
    nearest to the exact weighted average, inside the hull of the row. *)
Lemma sensor_table_binary64 :
  forallb Table.check_sensor_binary64 Table.sensor_rows = true.
Proof. vm_compute. reflexivity. Qed.

Lemma present_without_payload (N : Type) {A : Arith N}
  (this : WaterQuality.doc N)
  (param : string) :
  truthy (WaterQuality.sensorData this) = false ->
  Spec.present this param = None.
Proof.
  intros H. unfold Spec.present.
  now rewrite (prop_falsy _ param H).
Qed.

(** A sensor document is scored by the sums over its row, whether or not
    it carries a payload. *)
Lemma calculate_sensor_binary64 (this : WaterQuality.doc spec_float) :
  WaterQuality.source this = "esp32" ->
  WaterQuality.calculateQualityScore this
  = Normal (Spec.sensor_run spec_float (Spec.sensor_row this)).
Proof.
  intros Hsrc.
  destruct (truthy (WaterQuality.sensorData this)) eqn:Hsd.
  - now apply calculate_sensor.
  - unfold WaterQuality.calculateQualityScore, Spec.sensor_row.
    rewrite Hsrc, Hsd. cbn [map fst Spec.sensor_weights].
    rewrite !present_without_payload by assumption.
    vm_compute. reflexivity.
Qed.

Lemma sensor_bounds_spec (row : list (option Z)) :
  Table.sensor_bounds row = true ->
  let l := Spec.contributions Spec.sensor_weights row in
  0 <= Table.sensor_expected row <= 100
  /\ (l = [] -> Table.sensor_expected row = 50)
  /\ (l <> [] -> Spec.in_hull (Table.sensor_expected row) (map snd l)).
Proof.
  unfold Table.sensor_bounds. cbv zeta. intros H.
  apply andb_prop in H as [H Hl]. apply andb_prop in H as [H0 H100].
  split; [lia |].
  destruct (Spec.contributions Spec.sensor_weights row) as [| c l].
  - apply Z.eqb_eq in Hl. split; [auto | congruence].
  - apply in_hullb_spec in Hl. split; [discriminate | auto].
Qed.

(** C7. A sensor reading (source [esp32]) is scored, in binary64 as the
    engine computes it, by the weighted average of the sub-scores of the
    parameters it has, under the weights 0.45, 0.20, 0.15 and 0.20
    renormalized to sum to 1 over those parameters, taken to the nearest
    integer: the call returns exactly that integer, it lies between the
    least and the greatest of the present sub-scores, and it is 50 when no
    weighted parameter is present. *)
Theorem sensor_score_is_weighted_average
  (this : WaterQuality.doc spec_float) :
  WaterQuality.source this = "esp32" ->
  let present :=
    Spec.contributions Spec.sensor_weights (Spec.sensor_row this) in
  let n := Spec.score_of (Spec.as_Q present) in
  WaterQuality.calculateQualityScore this = Normal (Binary64.of_Z n)
  /\ (present = [] -> n = 50)
  /\ (present <> [] ->
      n = round_half_up (Spec.weighted_average (Spec.as_Q present))
      /\ Spec.in_hull n (map snd present)).
Proof.
  intros Hsrc present n.
  pose proof (sensor_row_in_table this) as Hin.
  pose proof sensor_table_binary64 as Htable.
  rewrite forallb_forall in Htable. specialize (Htable _ Hin).
  unfold Table.check_sensor_binary64 in Htable.
  apply andb_prop in Htable as [Heq Hb].
  apply sf_eqb_eq in Heq. apply sensor_bounds_spec in Hb.
  destruct Hb as (_ & Hnone & Hsome).
  fold present in Hnone, Hsome.
  change (Table.sensor_expected (Spec.sensor_row this)) with n in *.
  split; [| split].
  - rewrite (calculate_sensor_binary64 _ Hsrc). now rewrite Heq.
  - exact Hnone.
  - intros Hne. split; [| now apply Hsome].
    subst n. unfold Spec.score_of.
    destruct present; [congruence | reflexivity].
Qed.

(* ================================================================== *)
(** ** Totality and range of the score *)

Unset Implicit Arguments.

Lemma contributions_absent (weights : list (string * Q))
  (row : list (option Z)) :
  Spec.all_absent row -> Spec.contributions weights row = [].
Proof.
  unfold Spec.all_absent, Spec.contributions. intros H.
  revert weights.
  induction H as [| o row Ho _ IH]; intros [| w weights]; simpl; auto.
  subst o. simpl. apply IH.
Qed.

Lemma sensor_table_bounds :
  forallb Table.sensor_bounds Table.sensor_rows = true.
Proof. vm_compute. reflexivity. Qed.

Lemma sensor_run_binary64 (row : list (option Z)) :
  In row Table.sensor_rows ->
  Spec.sensor_run spec_float row
  = of_Z spec_float (Table.sensor_expected row).
Proof.
  intros Hin. pose proof sensor_table_binary64 as Ht.
  rewrite forallb_forall in Ht. specialize (Ht _ Hin).
  apply andb_prop in Ht as [Heq _]. now apply sf_eqb_eq in Heq.
Qed.

(** *** One rounding

    What follows bounds the rounding of binary64 on positive normal
    numbers, read as integers counted in units of [2^-K]: every product,
    quotient and sum of such numbers is within one part in [2^52] of the
    exact one. *)
Lemma digits2_size (p : positive) : digits2_pos p = Pos.size p.
Proof. induction p; simpl; congruence. Qed.

Lemma digits_bounds (p : positive) :
  2 ^ (Z.pos (digits2_pos p) - 1) <= Z.pos p < 2 ^ Z.pos (digits2_pos p).
Proof.
  rewrite digits2_size. split.
  - pose proof (Pos.size_le p) as H.
    assert (H' : 2 ^ Z.pos (Pos.size p) <= 2 * Z.pos p).
    { change 2 with (Z.pos 2) at 1. rewrite <- Pos2Z.inj_pow.
      change (2 * Z.pos p) with (Z.pos p~0). now apply Pos2Z.pos_le_pos. }
    replace (Z.pos (Pos.size p)) with (Z.pos (Pos.size p) - 1 + 1) in H'
      by lia.
    rewrite Z.pow_add_r in H' by lia. lia.
  - pose proof (Pos.size_gt p) as H.
    change 2 with (Z.pos 2). rewrite <- Pos2Z.inj_pow.
    now apply Pos2Z.pos_lt_pos.
Qed.

Lemma digits_unique (p : positive) (k : Z) :
  2 ^ (k - 1) <= Z.pos p < 2 ^ k -> Z.pos (digits2_pos p) = k.
Proof.
  intros [Hlo Hhi]. pose proof (digits_bounds p) as [Dlo Dhi].
  set (d := Z.pos (digits2_pos p)) in *.
  assert (0 < d) by (subst d; lia).
  assert (0 < k).
  { destruct (Z_lt_le_dec 0 k); [assumption |].
    assert (2 ^ k <= 1).
    { destruct (Z.eq_dec k 0) as [-> | ?]; [simpl; lia |].
      rewrite Z.pow_neg_r by lia. lia. }
    lia. }
  destruct (Z_lt_le_dec d k) as [Hlt | Hge].
  - assert (2 ^ d <= 2 ^ (k - 1)) by (apply Z.pow_le_mono_r; lia). lia.
  - destruct (Z_lt_le_dec k d) as [Hlt' | Hge']; [| lia].
    assert (2 ^ k <= 2 ^ (d - 1)) by (apply Z.pow_le_mono_r; lia). lia.
Qed.

Lemma shr_1_m (mrs : shr_record) :
  0 <= shr_m mrs ->
  shr_m (shr_1 mrs) = shr_m mrs / 2 /\ 0 <= shr_m (shr_1 mrs).
Proof.
  destruct mrs as [m r s]. cbn [shr_m]. intros Hm.
  destruct m as [| [p | p |] | p]; cbn [shr_1 shr_m]; try lia.
  - split; [reflexivity | lia].
  - split; [| lia].
    apply Z.div_unique with (r := 1); lia.
  - split; [| lia].
    apply Z.div_unique with (r := 0); lia.
  - split; [reflexivity | lia].
Qed.

Lemma iter_shr_m (p : positive) (mrs : shr_record) :
  0 <= shr_m mrs ->
  shr_m (iter_pos shr_1 p mrs) = shr_m mrs / 2 ^ Z.pos p
  /\ 0 <= shr_m (iter_pos shr_1 p mrs).
Proof.
  revert mrs. induction p as [p IH | p IH |]; intros mrs Hm; simpl iter_pos.
  - destruct (shr_1_m mrs Hm) as [E1 P1].
    destruct (IH _ P1) as [E2 P2]. destruct (IH _ P2) as [E3 P3].
    split; [| assumption]. rewrite E3, E2, E1.
    rewrite !Z.div_div by lia. f_equal.
    assert (E : Z.pos p~1 = 1 + Z.pos p + Z.pos p) by lia.
    rewrite E, !Z.pow_add_r by lia. change (2 ^ 1) with 2. ring.
  - destruct (IH _ Hm) as [E2 P2]. destruct (IH _ P2) as [E3 P3].
    split; [| assumption]. rewrite E3, E2.
    rewrite !Z.div_div by lia. f_equal.
    assert (E : Z.pos p~0 = Z.pos p + Z.pos p) by lia.
    rewrite E, Z.pow_add_r by lia. ring.
  - destruct (shr_1_m mrs Hm) as [E1 P1]. split; [| assumption].
    now rewrite E1.
Qed.

Lemma loc_record (m : Z) (l : location) :
  shr_m (shr_record_of_loc m l) = m.
Proof. destruct l as [| []]; reflexivity. Qed.

Lemma round_nearest_even_cases (m : Z) (l : location) :
  round_nearest_even m l = m \/ round_nearest_even m l = m + 1.
Proof.
  destruct l as [| []]; simpl; auto. destruct (Z.even m); auto.
Qed.
Lemma shr_m_shift (m e n : Z) (l : location) :
  0 <= m -> 0 <= n ->
  exists mrs,
    shr (shr_record_of_loc m l) e n = (mrs, e + n)
    /\ shr_m mrs = m / 2 ^ n
    /\ (n = 0 -> loc_of_shr_record mrs = l).
Proof.
  intros Hm Hn. destruct n as [| p | p]; [| | lia].
  - exists (shr_record_of_loc m l). cbn [shr].
    rewrite Z.add_0_r, loc_record, Z.div_1_r.
    repeat split. intros _. destruct l as [| []]; reflexivity.
  - exists (iter_pos shr_1 p (shr_record_of_loc m l)). cbn [shr].
    split; [reflexivity |]. split; [| discriminate].
    destruct (iter_shr_m p (shr_record_of_loc m l)) as [E _].
    + now rewrite loc_record.
    + now rewrite E, loc_record.
Qed.

Lemma Zdigits2_pos (m : Z) (k : Z) :
  0 < m -> 2 ^ (k - 1) <= m < 2 ^ k -> Zdigits2 m = k.
Proof.
  intros Hm H. destruct m as [| p | p]; try lia.
  cbn [Zdigits2]. now apply digits_unique.
Qed.

Lemma Zdigits2_bounds (m : Z) :
  0 < m -> 2 ^ (Zdigits2 m - 1) <= m < 2 ^ Zdigits2 m.
Proof.
  intros Hm. destruct m as [| p | p]; try lia.
  cbn [Zdigits2]. apply digits_bounds.
Qed.

Lemma Zdigits2_positive (m : Z) : 0 < m -> 0 < Zdigits2 m.
Proof. destruct m; cbn [Zdigits2]; lia. Qed.

(** Rounding to nearest on 53 bits, away from the subnormal numbers and
    from overflow: the mantissa is cut to 53 bits and moves up by at most
    one unit in the last place. *)
Lemma binary_round_aux_normal (mx ex : Z) (lx : location) (d : Z) :
  0 < mx -> Zdigits2 mx = d -> 53 <= d ->
  -1074 <= ex + (d - 53) -> ex + (d - 53) < 971 ->
  exists m' e',
    binary_round_aux 53 1024 false mx ex lx = S754_finite false m' e'
    /\ Z.pos (digits2_pos m') = 53
    /\ ex + (d - 53) <= e' <= ex + (d - 53) + 1
    /\ 2 ^ 52 <= mx / 2 ^ (d - 53)
    /\ (Z.pos m' * 2 ^ (e' - (ex + (d - 53))) = mx / 2 ^ (d - 53)
        \/ Z.pos m' * 2 ^ (e' - (ex + (d - 53))) = mx / 2 ^ (d - 53) + 1).
Proof.
  intros Hmx Hd Hd53 Hlo Hhi.
  pose proof (Zdigits2_bounds mx Hmx) as Hb. rewrite Hd in Hb.
  set (n := d - 53) in *.
  assert (Hn : 0 <= n) by (subst n; lia).
  set (m1 := mx / 2 ^ n).
  assert (Hpn : 0 < 2 ^ n) by (apply Z.pow_pos_nonneg; lia).
  assert (Hm1 : 2 ^ 52 <= m1 < 2 ^ 53).
  { subst m1. split.
    - apply Z.div_le_lower_bound; [assumption |].
      rewrite <- Z.pow_add_r by lia.
      replace (n + 52) with (d - 1) by (subst n; lia). lia.
    - apply Z.div_lt_upper_bound; [assumption |].
      rewrite <- Z.pow_add_r by lia.
      replace (n + 53) with d by (subst n; lia). lia. }
  unfold binary_round_aux, shr_fexp. rewrite Hd.
  assert (E1 : fexp 53 1024 (d + ex) - ex = n)
    by (unfold fexp, emin; subst n; lia).
  rewrite E1.
  destruct (shr_m_shift mx ex n lx ltac:(lia) Hn) as (mrs & -> & Em & _).
  fold m1 in Em. rewrite Em.
  set (m2 := round_nearest_even m1 (loc_of_shr_record mrs)).
  assert (Hm2 : m2 = m1 \/ m2 = m1 + 1)
    by (apply round_nearest_even_cases).
  destruct (Z_lt_le_dec m2 (2 ^ 53)) as [Hsmall | Hbig].
  - (* the mantissa still has 53 bits *)
    assert (Hd2 : Zdigits2 m2 = 53)
      by (apply Zdigits2_pos; [| change (53 - 1) with 52]; lia).
    rewrite Hd2.
    assert (E2 : fexp 53 1024 (53 + (ex + n)) - (ex + n) = 0)
      by (unfold fexp, emin; lia).
    rewrite E2.
    destruct (shr_m_shift m2 (ex + n) 0 loc_Exact ltac:(lia) ltac:(lia))
      as (mrs2 & -> & Em2 & _).
    rewrite Em2, Z.div_1_r.
    destruct m2 as [| p2 | p2] eqn:Ep; try lia.
    assert (Hle : (ex + n + 0 <=? 1024 - 53) = true)
      by (apply Z.leb_le; lia).
    rewrite Hle. exists p2, (ex + n + 0).
    split; [reflexivity |].
    split; [apply digits_unique; change (53 - 1) with 52; lia |].
    split; [lia |]. split; [lia |].
    replace (ex + n + 0 - (ex + n)) with 0 by lia.
    rewrite Z.mul_1_r. lia.
  - (* the mantissa reached 2^53 *)
    assert (Em2 : m2 = 2 ^ 53) by lia.
    assert (Hd2 : Zdigits2 m2 = 54)
      by (rewrite Em2; reflexivity).
    rewrite Hd2.
    assert (E2 : fexp 53 1024 (54 + (ex + n)) - (ex + n) = 1)
      by (unfold fexp, emin; lia).
    rewrite E2.
    destruct (shr_m_shift m2 (ex + n) 1 loc_Exact ltac:(lia) ltac:(lia))
      as (mrs2 & -> & Em3 & _).
    rewrite Em3, Em2.
    change (2 ^ 53 / 2 ^ 1) with (Z.pos (2 ^ 52)).
    assert (Hle : (ex + n + 1 <=? 1024 - 53) = true)
      by (apply Z.leb_le; lia).
    rewrite Hle. exists (2 ^ 52)%positive, (ex + n + 1).
    split; [reflexivity |]. split; [reflexivity |]. split; [lia |].
    split; [lia |].
    right. replace (ex + n + 1 - (ex + n)) with 1 by lia.
    change (Z.pos (2 ^ 52) * 2 ^ 1) with (2 ^ 53). lia.
Qed.




Lemma pow2_le_inv (a b : Z) : 0 <= b -> 2 ^ a <= 2 ^ b -> a <= b.
Proof.
  intros Hb H. destruct (Z_lt_le_dec b a) as [Hlt |]; [| assumption].
  assert (2 ^ b < 2 ^ a) by (apply Z.pow_lt_mono_r; lia). lia.
Qed.

Lemma pow2_lt_inv (a b : Z) : 0 <= b -> 2 ^ a < 2 ^ b -> a < b.
Proof.
  intros Hb H. destruct (Z_lt_le_dec a b) as [| Hle]; [assumption |].
  assert (2 ^ b <= 2 ^ a) by (apply Z.pow_le_mono_r; lia). lia.
Qed.

Lemma moderate_exponent (m : positive) (e v : Z) :
  Z.pos (digits2_pos m) = 53 -> -200 <= e <= 200 ->
  v = Z.pos m * 2 ^ (e + Dyadic.K) -> Dyadic.moderate v ->
  2 ^ 52 <= Z.pos m < 2 ^ 53 /\ -85 <= e <= -20.
Proof.
  intros Hd He Hv [Hlo Hhi]. pose proof (digits_bounds m) as Hb.
  rewrite Hd in Hb. change (53 - 1) with 52 in Hb. split; [exact Hb |].
  unfold Dyadic.K in *.
  assert (Hp : 0 < 2 ^ (e + 256)) by (apply Z.pow_pos_nonneg; lia).
  split.
  - assert (H1 : v < 2 ^ 53 * 2 ^ (e + 256)).
    { rewrite Hv. apply Z.mul_lt_mono_pos_r; lia. }
    rewrite <- Z.pow_add_r in H1 by lia.
    assert (H2 : 256 - 32 < 53 + (e + 256))
      by (apply pow2_lt_inv; lia).
    lia.
  - assert (H1 : 2 ^ 52 * 2 ^ (e + 256) <= v).
    { rewrite Hv. apply Z.mul_le_mono_nonneg_r; lia. }
    rewrite <- Z.pow_add_r in H1 by lia.
    assert (H2 : 52 + (e + 256) <= 256 + 32)
      by (apply pow2_le_inv; lia).
    lia.
Qed.

(** The relative error of one rounding, on integers: [R] is [T] cut to
    a multiple of [N] or the next one, and [T] is worth at least
    [2^52 * N]. *)
Lemma rounding_error (T R A N : Z) :
  0 < N -> 2 ^ 52 * N <= A -> A <= T < A + N -> R = A \/ R = A + N ->
  (2 ^ 52 - 1) * T <= 2 ^ 52 * R /\ 2 ^ 52 * R <= (2 ^ 52 + 1) * T.
Proof. intros HN HA HT [-> | ->]; lia. Qed.

Lemma SFmul_repr (x y : spec_float) (vx vy : Z) :
  Dyadic.repr x vx -> Dyadic.repr y vy -> Dyadic.moderate vx -> Dyadic.moderate vy ->
  exists v,
    Dyadic.repr (SFmul 53 1024 x y) v
    /\ (2 ^ 52 - 1) * (vx * vy) <= 2 ^ 52 * (2 ^ Dyadic.K * v)
    /\ 2 ^ 52 * (2 ^ Dyadic.K * v) <= (2 ^ 52 + 1) * (vx * vy).
Proof.
  intros (mx & ex & -> & Hdx & Hex & Hvx) (my & ey & -> & Hdy & Hey & Hvy)
    Hmx Hmy.
  destruct (moderate_exponent mx ex vx Hdx Hex Hvx Hmx) as [Bx Ex].
  destruct (moderate_exponent my ey vy Hdy Hey Hvy Hmy) as [By Ey].
  cbn [SFmul xorb]. rewrite Pos2Z.inj_mul.
  set (P := Z.pos mx * Z.pos my).
  assert (HP : 2 ^ 104 <= P < 2 ^ 106).
  { subst P. split.
    - change (2 ^ 104) with (2 ^ 52 * 2 ^ 52).
      apply Z.mul_le_mono_nonneg; lia.
    - change (2 ^ 106) with (2 ^ 53 * 2 ^ 53).
      apply Z.mul_lt_mono_nonneg; lia. }
  assert (HP0 : 0 < P) by lia.
  pose proof (Zdigits2_bounds P HP0) as Hb.
  pose proof (Zdigits2_positive P HP0) as Hd0.
  set (d := Zdigits2 P) in *.
  assert (Hd : 105 <= d <= 106).
  { split.
    - assert (104 < d) by (apply pow2_lt_inv; lia). lia.
    - assert (d - 1 < 106) by (apply pow2_lt_inv; lia). lia. }
  destruct (binary_round_aux_normal P (ex + ey) loc_Exact d HP0 eq_refl
              ltac:(lia) ltac:(lia) ltac:(lia))
    as (m' & e' & -> & Hd' & He' & Hq & HR).
  set (n := d - 53) in *. set (q := P / 2 ^ n) in *.
  set (t := e' - (ex + ey + n)) in *.
  assert (Hn : 0 <= n) by (subst n; lia).
  assert (HN : 0 < 2 ^ n) by (apply Z.pow_pos_nonneg; lia).
  exists (Z.pos m' * 2 ^ (e' + Dyadic.K)). split.
  { exists m', e'. repeat split; try assumption; subst n; lia. }
  unfold Dyadic.K in *.
  set (U := 2 ^ (ex + 256) * 2 ^ (ey + 256)).
  assert (HU : 0 < U) by (subst U; apply Z.mul_pos_pos; apply Z.pow_pos_nonneg; lia).
  assert (Evxy : vx * vy = P * U) by (subst vx vy P U; ring).
  assert (Ev : 2 ^ 256 * (Z.pos m' * 2 ^ (e' + 256))
               = (Z.pos m' * 2 ^ t * 2 ^ n) * U).
  { subst U. rewrite <- !Z.mul_assoc, <- !Z.pow_add_r by (subst t n; lia).
    rewrite (Z.mul_comm (2 ^ 256)), <- Z.mul_assoc, <- Z.pow_add_r
      by (subst t n; lia).
    do 2 f_equal. subst t. lia. }
  rewrite Evxy, Ev.
  pose proof (Z.mul_div_le P (2 ^ n) HN) as Hlow.
  pose proof (Z.mul_succ_div_gt P (2 ^ n) HN) as Hup.
  fold q in Hlow, Hup.
  assert (HA : 2 ^ 52 * 2 ^ n <= q * 2 ^ n)
    by (apply Z.mul_le_mono_nonneg_r; lia).
  assert (HR' : Z.pos m' * 2 ^ t * 2 ^ n = q * 2 ^ n
                \/ Z.pos m' * 2 ^ t * 2 ^ n = q * 2 ^ n + 2 ^ n)
    by (destruct HR as [-> | ->]; [left | right]; ring).
  destruct (rounding_error P (Z.pos m' * 2 ^ t * 2 ^ n) (q * 2 ^ n) (2 ^ n)
              HN HA ltac:(lia) HR')
    as [Hl Hu].
  split.
  - rewrite !Z.mul_assoc. apply Z.mul_le_mono_nonneg_r; lia.
  - rewrite !Z.mul_assoc. apply Z.mul_le_mono_nonneg_r; lia.
Qed.

Lemma SFdiv_repr (x y : spec_float) (vx vy : Z) :
  Dyadic.repr x vx -> Dyadic.repr y vy -> Dyadic.moderate vx -> Dyadic.moderate vy ->
  exists v,
    Dyadic.repr (SFdiv 53 1024 x y) v
    /\ (2 ^ 52 - 1) * (vx * 2 ^ Dyadic.K) <= 2 ^ 52 * (v * vy)
    /\ 2 ^ 52 * (v * vy) <= (2 ^ 52 + 1) * (vx * 2 ^ Dyadic.K).
Proof.
  intros (mx & ex & -> & Hdx & Hex & Hvx) (my & ey & -> & Hdy & Hey & Hvy)
    Hmx Hmy.
  destruct (moderate_exponent mx ex vx Hdx Hex Hvx Hmx) as [Bx Ex].
  destruct (moderate_exponent my ey vy Hdy Hey Hvy Hmy) as [By Ey].
  cbn [SFdiv xorb]. unfold SFdiv_core_binary. cbn [Zdigits2].
  rewrite Hdx, Hdy.
  assert (Ee : Z.min (fexp 53 1024 (53 + ex - (53 + ey))) (ex - ey)
               = ex - ey - 53) by (unfold fexp, emin; lia).
  rewrite Ee.
  replace (ex - ey - (ex - ey - 53)) with 53 by lia.
  cbv iota. rewrite Z.shiftl_mul_pow2 by lia.
  set (M := Z.pos mx * 2 ^ 53).
  pose proof (Z_div_mod M (Z.pos my) ltac:(lia)) as Hdiv.
  destruct (Z.div_eucl M (Z.pos my)) as [q r]. destruct Hdiv as [EM Hr].
  assert (HM : 2 ^ 105 <= M < 2 ^ 106).
  { subst M. change (2 ^ 105) with (2 ^ 52 * 2 ^ 53).
    change (2 ^ 106) with (2 ^ 53 * 2 ^ 53). lia. }
  assert (Hq : 2 ^ 52 <= q < 2 ^ 54).
  { split.
    - destruct (Z_lt_le_dec q (2 ^ 52)) as [Hlt |]; [| assumption].
      assert (Z.pos my * (q + 1) <= Z.pos my * 2 ^ 52)
        by (apply Z.mul_le_mono_nonneg_l; lia).
      assert (Z.pos my * 2 ^ 52 < 2 ^ 53 * 2 ^ 52)
        by (apply Z.mul_lt_mono_pos_r; lia).
      change (2 ^ 53 * 2 ^ 52) with (2 ^ 105) in *. lia.
    - destruct (Z_lt_le_dec q (2 ^ 54)) as [| Hge]; [assumption |].
      assert (2 ^ 52 * 2 ^ 54 <= Z.pos my * q)
        by (apply Z.mul_le_mono_nonneg; lia).
      change (2 ^ 52 * 2 ^ 54) with (2 ^ 106) in *. lia. }
  assert (Hq0 : 0 < q) by lia.
  pose proof (Zdigits2_bounds q Hq0) as Hb.
  pose proof (Zdigits2_positive q Hq0) as Hd0.
  set (d := Zdigits2 q) in *.
  assert (Hd : 53 <= d <= 54).
  { split.
    - assert (52 < d) by (apply pow2_lt_inv; lia). lia.
    - assert (d - 1 < 54) by (apply pow2_lt_inv; lia). lia. }
  destruct (binary_round_aux_normal q (ex - ey - 53)
              (new_location (Z.pos my) r) d Hq0 eq_refl
              ltac:(lia) ltac:(lia) ltac:(lia))
    as (m' & e' & -> & Hd' & He' & Hqq & HR).
  set (n := d - 53) in *. set (qq := q / 2 ^ n) in *.
  set (t := e' - (ex - ey - 53 + n)) in *.
  assert (Hn : 0 <= n) by (subst n; lia).
  assert (HN : 0 < 2 ^ n) by (apply Z.pow_pos_nonneg; lia).
  exists (Z.pos m' * 2 ^ (e' + Dyadic.K)). split.
  { exists m', e'. repeat split; try assumption; subst n; lia. }
  unfold Dyadic.K in *.
  set (U := 2 ^ (ex - 53 + 512)).
  assert (HU : 0 < U) by (subst U; apply Z.pow_pos_nonneg; lia).
  assert (Evx : vx * 2 ^ 256 = M * U).
  { subst vx M U. rewrite <- !Z.mul_assoc, <- !Z.pow_add_r by lia.
    do 2 f_equal. lia. }
  assert (Ev : Z.pos m' * 2 ^ (e' + 256) * vy
               = (Z.pos m' * 2 ^ t * 2 ^ n * Z.pos my) * U).
  { subst vy U.
    set (a := ex - ey - 53 + 256). set (b := ey + 256).
    replace (e' + 256) with (t + (n + a)) by (subst t a; lia).
    replace (ex - 53 + 512) with (a + b) by (subst a b; lia).
    rewrite !Z.pow_add_r by (subst t n a b; lia). ring. }
  rewrite Evx, Ev.
  pose proof (Z.mul_div_le q (2 ^ n) HN) as Hlow.
  pose proof (Z.mul_succ_div_gt q (2 ^ n) HN) as Hup.
  fold qq in Hlow, Hup.
  set (N := 2 ^ n) in *.
  assert (HC : 0 < N * Z.pos my) by (apply Z.mul_pos_pos; lia).
  assert (HA : 2 ^ 52 * (N * Z.pos my) <= qq * N * Z.pos my).
  { rewrite Z.mul_assoc. apply Z.mul_le_mono_nonneg_r; [lia |].
    apply Z.mul_le_mono_nonneg_r; lia. }
  assert (HT : qq * N * Z.pos my <= M < qq * N * Z.pos my + N * Z.pos my).
  { assert (H1 : qq * N * Z.pos my <= q * Z.pos my)
      by (apply Z.mul_le_mono_nonneg_r; lia).
    assert (H2 : (q + 1) * Z.pos my <= (qq * N + N) * Z.pos my)
      by (apply Z.mul_le_mono_nonneg_r; lia).
    lia. }
  assert (HR' : Z.pos m' * 2 ^ t * N * Z.pos my = qq * N * Z.pos my
                \/ Z.pos m' * 2 ^ t * N * Z.pos my
                   = qq * N * Z.pos my + N * Z.pos my)
    by (destruct HR as [-> | ->]; [left | right]; ring).
  destruct (rounding_error M (Z.pos m' * 2 ^ t * N * Z.pos my)
              (qq * N * Z.pos my) (N * Z.pos my) HC HA HT HR')
    as [Hl Hu].
  split.
  - rewrite !Z.mul_assoc. apply Z.mul_le_mono_nonneg_r; lia.
  - rewrite !Z.mul_assoc. apply Z.mul_le_mono_nonneg_r; lia.
Qed.

Lemma iter_xO (m d : positive) :
  Z.pos (Pos.iter xO m d) = Z.pos m * 2 ^ Z.pos d.
Proof.
  induction d as [| d IH] using Pos.peano_ind.
  - cbn [Pos.iter]. rewrite Pos2Z.inj_xO. change (2 ^ 1) with 2. ring.
  - rewrite Pos.iter_succ, Pos2Z.inj_xO, IH, Pos2Z.inj_succ,
      Z.pow_succ_r by lia.
    ring.
Qed.

Lemma shl_align_fst (mx : positive) (ex ez : Z) :
  ez <= ex ->
  Z.pos (fst (shl_align mx ex ez)) = Z.pos mx * 2 ^ (ex - ez).
Proof.
  intros Hle. unfold shl_align.
  destruct (ez - ex) as [| d | d] eqn:E; cbn [fst].
  - replace (ex - ez) with 0 by lia. lia.
  - lia.
  - rewrite iter_xO. f_equal. f_equal. lia.
Qed.

Lemma shl_align_id (mx : positive) (ex ex' : Z) :
  ex <= ex' -> shl_align mx ex ex' = (mx, ex).
Proof.
  intros Hle. unfold shl_align.
  destruct (ex' - ex) eqn:E; try reflexivity. lia.
Qed.

Lemma SFadd_repr (x y : spec_float) (vx vy : Z) :
  Dyadic.repr x vx -> Dyadic.repr y vy -> Dyadic.moderate vx -> Dyadic.moderate vy ->
  exists v,
    Dyadic.repr (SFadd 53 1024 x y) v
    /\ (2 ^ 52 - 1) * (vx + vy) <= 2 ^ 52 * v
    /\ 2 ^ 52 * v <= (2 ^ 52 + 1) * (vx + vy).
Proof.
  intros (mx & ex & -> & Hdx & Hex & Hvx) (my & ey & -> & Hdy & Hey & Hvy)
    Hmx Hmy.
  destruct (moderate_exponent mx ex vx Hdx Hex Hvx Hmx) as [Bx Ex].
  destruct (moderate_exponent my ey vy Hdy Hey Hvy Hmy) as [By Ey].
  cbn [SFadd cond_Zopp]. set (ez := Z.min ex ey).
  assert (Hzx : ez <= ex) by (subst ez; lia).
  assert (Hzy : ez <= ey) by (subst ez; lia).
  pose proof (shl_align_fst mx ex ez Hzx) as Ea.
  pose proof (shl_align_fst my ey ez Hzy) as Eb.
  set (a := fst (shl_align mx ex ez)) in *.
  set (b := fst (shl_align my ey ez)) in *.
  change (Z.pos a + Z.pos b) with (Z.pos (a + b)).
  cbn [binary_normalize]. unfold binary_round.
  set (S := Z.pos (a + b)).
  assert (ES : S = Z.pos mx * 2 ^ (ex - ez) + Z.pos my * 2 ^ (ey - ez))
    by (subst S; rewrite Pos2Z.inj_add; congruence).
  assert (Hpx : 1 <= 2 ^ (ex - ez) <= 2 ^ 65).
  { split; [assert (0 < 2 ^ (ex - ez)) by (apply Z.pow_pos_nonneg; lia); lia |].
    apply Z.pow_le_mono_r; subst ez; lia. }
  assert (Hpy : 1 <= 2 ^ (ey - ez) <= 2 ^ 65).
  { split; [assert (0 < 2 ^ (ey - ez)) by (apply Z.pow_pos_nonneg; lia); lia |].
    apply Z.pow_le_mono_r; subst ez; lia. }
  assert (HS : 2 ^ 53 <= S < 2 ^ 119).
  { rewrite ES. split.
    - assert (2 ^ 52 * 1 <= Z.pos mx * 2 ^ (ex - ez))
        by (apply Z.mul_le_mono_nonneg; lia).
      assert (2 ^ 52 * 1 <= Z.pos my * 2 ^ (ey - ez))
        by (apply Z.mul_le_mono_nonneg; lia).
      change (2 ^ 53) with (2 ^ 52 * 1 + 2 ^ 52 * 1). lia.
    - assert (Z.pos mx * 2 ^ (ex - ez) < 2 ^ 53 * 2 ^ 65).
      { apply Z.le_lt_trans with (Z.pos mx * 2 ^ 65).
        - apply Z.mul_le_mono_nonneg_l; lia.
        - apply Z.mul_lt_mono_pos_r; lia. }
      assert (Z.pos my * 2 ^ (ey - ez) < 2 ^ 53 * 2 ^ 65).
      { apply Z.le_lt_trans with (Z.pos my * 2 ^ 65).
        - apply Z.mul_le_mono_nonneg_l; lia.
        - apply Z.mul_lt_mono_pos_r; lia. }
      change (2 ^ 119) with (2 ^ 53 * 2 ^ 65 + 2 ^ 53 * 2 ^ 65). lia. }
  assert (HS0 : 0 < S) by lia.
  pose proof (Zdigits2_bounds S HS0) as Hb.
  pose proof (Zdigits2_positive S HS0) as Hd0.
  change (Z.pos (digits2_pos (a + b))) with (Zdigits2 S).
  set (d := Zdigits2 S) in *.
  assert (Hd : 54 <= d <= 119).
  { split.
    - assert (53 < d) by (apply pow2_lt_inv; lia). lia.
    - assert (d - 1 < 119) by (apply pow2_lt_inv; lia). lia. }
  rewrite shl_align_id by (unfold fexp, emin; lia).
  fold S.
  destruct (binary_round_aux_normal S ez loc_Exact d HS0 eq_refl
              ltac:(lia) ltac:(lia) ltac:(lia))
    as (m' & e' & -> & Hd' & He' & Hq & HR).
  set (n := d - 53) in *. set (q := S / 2 ^ n) in *.
  set (t := e' - (ez + n)) in *.
  assert (Hn : 0 <= n) by (subst n; lia).
  assert (HN : 0 < 2 ^ n) by (apply Z.pow_pos_nonneg; lia).
  exists (Z.pos m' * 2 ^ (e' + Dyadic.K)). split.
  { exists m', e'. repeat split; try assumption; subst n; lia. }
  unfold Dyadic.K in *.
  set (U := 2 ^ (ez + 256)).
  assert (HU : 0 < U) by (subst U; apply Z.pow_pos_nonneg; lia).
  assert (Evxy : vx + vy = S * U).
  { subst vx vy U. rewrite ES.
    set (c := ez + 256). set (a' := ex - ez). set (b' := ey - ez).
    replace (ex + 256) with (a' + c) by (subst a' c; lia).
    replace (ey + 256) with (b' + c) by (subst b' c; lia).
    rewrite !Z.pow_add_r by (subst a' b' c; lia). ring. }
  assert (Ev : Z.pos m' * 2 ^ (e' + 256)
               = (Z.pos m' * 2 ^ t * 2 ^ n) * U).
  { subst U. set (c := ez + 256).
    replace (e' + 256) with (t + (n + c)) by (subst t c; lia).
    rewrite !Z.pow_add_r by (subst t n c; lia). ring. }
  rewrite Evxy, Ev.
  pose proof (Z.mul_div_le S (2 ^ n) HN) as Hlow.
  pose proof (Z.mul_succ_div_gt S (2 ^ n) HN) as Hup.
  fold q in Hlow, Hup.
  assert (HA : 2 ^ 52 * 2 ^ n <= q * 2 ^ n)
    by (apply Z.mul_le_mono_nonneg_r; lia).
  assert (HR' : Z.pos m' * 2 ^ t * 2 ^ n = q * 2 ^ n
                \/ Z.pos m' * 2 ^ t * 2 ^ n = q * 2 ^ n + 2 ^ n)
    by (destruct HR as [-> | ->]; [left | right]; ring).
  destruct (rounding_error S (Z.pos m' * 2 ^ t * 2 ^ n) (q * 2 ^ n) (2 ^ n)
              HN HA ltac:(lia) HR')
    as [Hl Hu].
  split.
  - rewrite !Z.mul_assoc. apply Z.mul_le_mono_nonneg_r; lia.
  - rewrite !Z.mul_assoc. apply Z.mul_le_mono_nonneg_r; lia.
Qed.

(** A Number between 1 and 5 is a normal number. *)
Lemma rating_repr (r : spec_float) :
  Spec.rating_1_5 r ->
  exists v, Dyadic.repr r v /\ 2 ^ Dyadic.K <= v <= 5 * 2 ^ Dyadic.K.
Proof.
  intros (Hv & H1 & H5).
  assert (E1 : Binary64.of_Z 1 = S754_finite false 4503599627370496 (-52))
    by (vm_compute; reflexivity).
  assert (E5 : Binary64.of_Z 5 = S754_finite false 5629499534213120 (-50))
    by (vm_compute; reflexivity).
  rewrite E1 in H1. rewrite E5 in H5. clear E1 E5.
  unfold SFleb in H1, H5.
  destruct r as [s | s | | s m e]; cbn [SFcompare] in H1, H5;
    try discriminate; destruct s; try discriminate.
  cbn [valid_binary] in Hv. unfold bounded, canonical_mantissa in Hv.
  apply andb_prop in Hv as [Hc _]. apply Z.eqb_eq in Hc.
  assert (He : -52 <= e <= -50).
  { split.
    - destruct (Z.compare_spec (-52) e); try lia; discriminate.
    - destruct (Z.compare_spec e (-50)); try lia; discriminate. }
  assert (Hd : Z.pos (digits2_pos m) = 53).
  { unfold fexp, emin, Binary64.prec, Binary64.emax in Hc. lia. }
  pose proof (digits_bounds m) as Hb. rewrite Hd in Hb.
  change (53 - 1) with 52 in Hb.
  exists (Z.pos m * 2 ^ (e + Dyadic.K)). split.
  { exists m, e. repeat split; try assumption; lia. }
  assert (Hm5 : e = -50 -> Z.pos m <= 5629499534213120).
  { intros ->. rewrite Z.compare_refl in H5. clear H1.
    change (Pos.compare_cont Eq m 5629499534213120 <> Gt).
    destruct (Pos.compare_cont Eq m 5629499534213120);
      discriminate. }
  clear H1 H5 Hc.
  assert (HP : 0 <= 2 ^ (e + Dyadic.K)) by (apply Z.pow_nonneg; lia).
  assert (EK : 2 ^ Dyadic.K = 2 ^ (- e) * 2 ^ (e + Dyadic.K)).
  { rewrite <- Z.pow_add_r by (unfold Dyadic.K; lia).
    f_equal. lia. }
  rewrite EK, Z.mul_assoc.
  assert (Hcases : e = -52 \/ e = -51 \/ e = -50) by lia.
  split; apply Z.mul_le_mono_nonneg_r; try exact HP;
    destruct Hcases as [-> | [-> | ->]];
    try specialize (Hm5 eq_refl);
    cbn [Z.opp]; lia.
Qed.

Lemma five_repr : Dyadic.repr (Binary64.of_Z 5) (5 * 2 ^ Dyadic.K).
Proof.
  exists 5629499534213120%positive, (-50).
  split; [vm_compute; reflexivity |]. split; [reflexivity |].
  split; [lia |]. vm_compute. reflexivity.
Qed.

Lemma hundred_repr : Dyadic.repr (Binary64.of_Z 100) (100 * 2 ^ Dyadic.K).
Proof.
  exists 7036874417766400%positive, (-46).
  split; [vm_compute; reflexivity |]. split; [reflexivity |].
  split; [lia |]. vm_compute. reflexivity.
Qed.

Lemma tenths_repr (e : Z) (w : spec_float) :
  w = S754_finite false 7205759403792794 e -> -55 <= e <= -54 ->
  exists vw,
    Dyadic.repr w vw /\ 2 ^ (Dyadic.K - 3) <= vw <= 2 ^ (Dyadic.K - 1).
Proof.
  intros -> He. exists (7205759403792794 * 2 ^ (e + Dyadic.K)). split.
  - exists 7205759403792794%positive, e.
    split; [reflexivity |]. split; [reflexivity |].
    split; [lia | reflexivity].
  - assert (Hcases : e = -55 \/ e = -54) by lia.
    destruct Hcases as [-> | ->];
      split; apply Z.leb_le; vm_compute; reflexivity.
Qed.

(** The weights of the review loop, 0.4 and 0.2, lie between 1/8 and
    1/2. *)
Lemma review_weight_repr (w : spec_float) :
  In w (map snd (WaterQuality.reviewWeights spec_float)) ->
  exists vw,
    Dyadic.repr w vw /\ 2 ^ (Dyadic.K - 3) <= vw <= 2 ^ (Dyadic.K - 1).
Proof.
  intros Hin. unfold WaterQuality.reviewWeights in Hin.
  cbn [map snd In] in Hin.
  destruct Hin as [<- | [<- | [<- | [<- | []]]]].
  - apply tenths_repr with (-54); [vm_compute; reflexivity | lia].
  - apply tenths_repr with (-55); [vm_compute; reflexivity | lia].
  - apply tenths_repr with (-55); [vm_compute; reflexivity | lia].
  - apply tenths_repr with (-55); [vm_compute; reflexivity | lia].
Qed.

Lemma moderate_intro (v : Z) :
  2 ^ (Dyadic.K - 32) <= v -> v <= 2 ^ (Dyadic.K + 32) -> Dyadic.moderate v.
Proof. intros; split; assumption. Qed.

(** What a rating between 1 and 5 adds to the score: between 20 and
    100 times its weight, up to one part in [2^40]. *)
Lemma review_term (r w : spec_float) (v vw : Z) :
  Dyadic.repr r v -> 2 ^ Dyadic.K <= v <= 5 * 2 ^ Dyadic.K ->
  Dyadic.repr w vw -> 2 ^ (Dyadic.K - 3) <= vw <= 2 ^ (Dyadic.K - 1) ->
  exists vc,
    Dyadic.repr
      (SFmul 53 1024
         (SFmul 53 1024 (SFdiv 53 1024 r (Binary64.of_Z 5))
            (Binary64.of_Z 100)) w) vc
    /\ 20 * (2 ^ 40 - 1) * vw <= 2 ^ 40 * vc
    /\ 2 ^ 40 * vc <= 100 * (2 ^ 40 + 1) * vw.
Proof.
  intros Hr Hv Hw Hvw.
  assert (K3 : 2 ^ (Dyadic.K - 3) * 8 = 2 ^ Dyadic.K) by reflexivity.
  assert (K1 : 2 ^ (Dyadic.K - 1) * 2 = 2 ^ Dyadic.K) by reflexivity.
  assert (Klo : 2 ^ (Dyadic.K - 32) * 2 ^ 32 = 2 ^ Dyadic.K) by reflexivity.
  assert (Khi : 2 ^ (Dyadic.K + 32) = 2 ^ 32 * 2 ^ Dyadic.K) by reflexivity.
  assert (HK : 0 < 2 ^ Dyadic.K) by reflexivity.
  set (k := 2 ^ Dyadic.K) in *.
  set (klo := 2 ^ (Dyadic.K - 32)) in *.
  set (khi := 2 ^ (Dyadic.K + 32)) in *.
  set (k3 := 2 ^ (Dyadic.K - 3)) in *.
  set (k1 := 2 ^ (Dyadic.K - 1)) in *.
  destruct (SFdiv_repr r (Binary64.of_Z 5) v (5 * k) Hr five_repr)
    as (va & Ha & Hal & Hau).
  { apply moderate_intro; fold klo khi; lia. }
  { apply moderate_intro; fold klo khi; lia. }
  fold k in Hal, Hau.
  assert (Eva : va * (5 * k) = 5 * (va * k)) by ring.
  assert (Evk : v * k = k * v) by ring.
  rewrite Eva in Hal, Hau.
  assert (Hva : (2 ^ 52 - 1) * v <= 2 ^ 52 * (5 * va)
                /\ 2 ^ 52 * (5 * va) <= (2 ^ 52 + 1) * v).
  { split.
    - apply Z.mul_le_mono_pos_r with k; [exact HK | lia].
    - apply Z.mul_le_mono_pos_r with k; [exact HK | lia]. }
  clear Hal Hau Eva.
  destruct (SFmul_repr _ (Binary64.of_Z 100) va (100 * k) Ha hundred_repr)
    as (vp & Hp & Hpl & Hpu).
  { apply moderate_intro; fold klo khi; lia. }
  { apply moderate_intro; fold klo khi; lia. }
  fold k in Hpl, Hpu.
  assert (Evp : va * (100 * k) = (100 * va) * k) by ring.
  assert (Evp' : k * vp = vp * k) by ring.
  rewrite Evp, Evp' in Hpl, Hpu.
  assert (Hvp : (2 ^ 52 - 1) * (100 * va) <= 2 ^ 52 * vp
                /\ 2 ^ 52 * vp <= (2 ^ 52 + 1) * (100 * va)).
  { split.
    - apply Z.mul_le_mono_pos_r with k; [exact HK | lia].
    - apply Z.mul_le_mono_pos_r with k; [exact HK | lia]. }
  clear Hpl Hpu Evp Evp'.
  destruct (SFmul_repr _ w vp vw Hp Hw) as (vc & Hc & Hcl & Hcu).
  { apply moderate_intro; fold klo khi; lia. }
  { apply moderate_intro; fold klo khi; lia. }
  fold k in Hcl, Hcu.
  exists vc. split; [exact Hc |].
  assert (Hvw0 : 0 <= vw) by lia.
  assert (Hlo : (20 * (2 ^ 50 - 1) * k) * vw <= (2 ^ 50 * vp) * vw)
    by (apply Z.mul_le_mono_nonneg_r; lia).
  assert (Hhi : (2 ^ 50 * vp) * vw <= (100 * (2 ^ 50 + 1) * k) * vw)
    by (apply Z.mul_le_mono_nonneg_r; lia).
  assert (Ekw : 20 * (2 ^ 50 - 1) * k * vw = 20 * (2 ^ 50 - 1) * (k * vw))
    by ring.
  assert (Ekw' : 100 * (2 ^ 50 + 1) * k * vw
                 = 100 * (2 ^ 50 + 1) * (k * vw)) by ring.
  assert (EP : 2 ^ 50 * vp * vw = 2 ^ 50 * (vp * vw)) by ring.
  rewrite Ekw, EP in Hlo. rewrite Ekw', EP in Hhi. clear Ekw Ekw' EP.
  assert (Hkw : 0 <= k * vw) by (apply Z.mul_nonneg_nonneg; lia).
  set (P := vp * vw) in *. set (Q := k * vc) in *. set (kw := k * vw) in *.
  assert (HQ : 20 * (2 ^ 40 - 1) * kw <= 2 ^ 40 * Q
               /\ 2 ^ 40 * Q <= 100 * (2 ^ 40 + 1) * kw).
  { clearbody P Q kw. clear - Hcl Hcu Hlo Hhi Hkw. lia. }
  destruct HQ as [HQl HQu]. subst Q kw.
  split.
  - apply Z.mul_le_mono_pos_l with k; [exact HK |].
    replace (k * (20 * (2 ^ 40 - 1) * vw))
      with (20 * (2 ^ 40 - 1) * (k * vw)) by ring.
    replace (k * (2 ^ 40 * vc)) with (2 ^ 40 * (k * vc)) by ring.
    exact HQl.
  - apply Z.mul_le_mono_pos_l with k; [exact HK |].
    replace (k * (100 * (2 ^ 40 + 1) * vw))
      with (100 * (2 ^ 40 + 1) * (k * vw)) by ring.
    replace (k * (2 ^ 40 * vc)) with (2 ^ 40 * (k * vc)) by ring.
    exact HQu.
Qed.

(** [Math.round] of a number between 19.5 and 100.5 (the latter
    excluded) is an integer between 20 and 100. *)
Lemma Math_round_repr (x : spec_float) (v : Z) :
  Dyadic.repr x v ->
  39 * 2 ^ Dyadic.K <= 2 * v -> 2 * v < 201 * 2 ^ Dyadic.K ->
  exists z, Binary64.Math_round x = Binary64.of_Z z /\ 20 <= z <= 100.
Proof.
  intros (m & e & -> & Hd & He & Hv) Hlo Hhi.
  assert (Klo : 2 ^ (Dyadic.K - 32) * 2 ^ 32 = 2 ^ Dyadic.K) by reflexivity.
  assert (Khi : 2 ^ (Dyadic.K + 32) = 2 ^ 32 * 2 ^ Dyadic.K) by reflexivity.
  assert (HK : 0 < 2 ^ Dyadic.K) by reflexivity.
  assert (Hmod : Dyadic.moderate v).
  { apply moderate_intro.
    - set (k := 2 ^ Dyadic.K) in *. set (klo := 2 ^ (Dyadic.K - 32)) in *.
      clearbody k klo. lia.
    - set (k := 2 ^ Dyadic.K) in *. set (khi := 2 ^ (Dyadic.K + 32)) in *.
      clearbody k khi. lia. }
  destruct (moderate_exponent m e v Hd He Hv Hmod) as [Hm Hexp].
  clear Klo Khi Hmod.
  cbn [Binary64.Math_round]. unfold round_half_up_dyadic.
  destruct (0 <=? e) eqn:Hneg; [apply Z.leb_le in Hneg; lia |].
  set (E := 2 ^ (- e)).
  assert (HE : 0 < E) by (subst E; apply Z.pow_pos_nonneg; lia).
  assert (E2 : 2 ^ (1 - e) = 2 * E).
  { subst E. replace (1 - e) with (1 + - e) by lia.
    rewrite Z.pow_add_r by lia. reflexivity. }
  rewrite E2.
  set (P := 2 ^ (e + Dyadic.K)) in *.
  assert (HP : 0 < P)
    by (subst P; apply Z.pow_pos_nonneg; unfold Dyadic.K; lia).
  assert (EK : 2 ^ Dyadic.K = E * P).
  { subst E P. rewrite <- Z.pow_add_r by (unfold Dyadic.K; lia).
    f_equal. lia. }
  rewrite EK in Hlo, Hhi. rewrite Hv in Hlo, Hhi. clear EK HK Hv.
  assert (Hlo' : 39 * E <= 2 * Z.pos m).
  { apply Z.mul_le_mono_pos_r with P; [exact HP |].
    replace (39 * E * P) with (39 * (E * P)) by ring.
    replace (2 * Z.pos m * P) with (2 * (Z.pos m * P)) by ring.
    exact Hlo. }
  assert (Hhi' : 2 * Z.pos m < 201 * E).
  { apply Z.mul_lt_mono_pos_r with P; [exact HP |].
    replace (201 * E * P) with (201 * (E * P)) by ring.
    replace (2 * Z.pos m * P) with (2 * (Z.pos m * P)) by ring.
    exact Hhi. }
  clearbody E P.
  assert (Hz : 20 <= (2 * Z.pos m + E) / (2 * E) <= 100).
  { split.
    - apply Z.div_le_lower_bound; lia.
    - assert ((2 * Z.pos m + E) / (2 * E) < 101); [| lia].
      apply Z.div_lt_upper_bound; lia. }
  exists ((2 * Z.pos m + E) / (2 * E)). split; [| exact Hz].
  destruct ((2 * Z.pos m + E) / (2 * E) =? 0) eqn:H0;
    [apply Z.eqb_eq in H0; lia | reflexivity].
Qed.

Lemma sums_mono (a b : Z) (s : spec_float * spec_float) :
  a <= b -> Dyadic.sums a s -> Dyadic.sums b s.
Proof.
  intros Hab (vS & vW & HS & HW & HvW & Hlo & Hhi).
  assert (HK : 0 <= 2 ^ Dyadic.K) by (apply Z.pow_nonneg; lia).
  assert (H3 : 0 <= 2 ^ (Dyadic.K - 3)) by (apply Z.pow_nonneg; lia).
  exists vS, vW. split; [exact HS |]. split; [exact HW |].
  split; [split; [tauto |] | split].
  - apply Z.le_trans with (a * 2 ^ Dyadic.K); [tauto |].
    apply Z.mul_le_mono_nonneg_r; assumption.
  - apply Z.le_trans with (20 * (2 ^ 40 - a) * vW); [| exact Hlo].
    apply Z.mul_le_mono_nonneg_r; lia.
  - apply Z.le_trans with (100 * (2 ^ 40 + a) * vW); [exact Hhi |].
    apply Z.mul_le_mono_nonneg_r; lia.
Qed.

(** The arithmetic of one iteration: both sums grow by a term, each
    addition rounds once. *)
Lemma sums_step_bounds (a k k3 vS vW vc vw vS' vW' : Z) :
  a = 1 \/ a = 2 \/ a = 3 ->
  0 < k -> k3 * 8 = k ->
  k3 <= vW <= a * k ->
  20 * (2 ^ 40 - a) * vW <= 2 ^ 40 * vS ->
  2 ^ 40 * vS <= 100 * (2 ^ 40 + a) * vW ->
  k3 <= vw -> 2 * vw <= k ->
  20 * (2 ^ 40 - 1) * vw <= 2 ^ 40 * vc ->
  2 ^ 40 * vc <= 100 * (2 ^ 40 + 1) * vw ->
  (2 ^ 52 - 1) * (vS + vc) <= 2 ^ 52 * vS' ->
  2 ^ 52 * vS' <= (2 ^ 52 + 1) * (vS + vc) ->
  (2 ^ 52 - 1) * (vW + vw) <= 2 ^ 52 * vW' ->
  2 ^ 52 * vW' <= (2 ^ 52 + 1) * (vW + vw) ->
  k3 <= vW' <= (a + 1) * k
  /\ 20 * (2 ^ 40 - (a + 1)) * vW' <= 2 ^ 40 * vS'
  /\ 2 ^ 40 * vS' <= 100 * (2 ^ 40 + (a + 1)) * vW'.
Proof. intros [-> | [-> | ->]]; intros; lia. Qed.

Lemma moderate_sums (a : Z) (vS vW : Z) :
  a = 1 \/ a = 2 \/ a = 3 \/ a = 4 ->
  2 ^ (Dyadic.K - 3) <= vW <= a * 2 ^ Dyadic.K ->
  20 * (2 ^ 40 - a) * vW <= 2 ^ 40 * vS ->
  2 ^ 40 * vS <= 100 * (2 ^ 40 + a) * vW ->
  Dyadic.moderate vS /\ Dyadic.moderate vW.
Proof.
  intros Ha HvW Hlo Hhi.
  assert (K3 : 2 ^ (Dyadic.K - 3) * 8 = 2 ^ Dyadic.K) by reflexivity.
  assert (Klo : 2 ^ (Dyadic.K - 32) * 2 ^ 32 = 2 ^ Dyadic.K) by reflexivity.
  assert (Khi : 2 ^ (Dyadic.K + 32) = 2 ^ 32 * 2 ^ Dyadic.K) by reflexivity.
  assert (HK : 0 < 2 ^ Dyadic.K) by reflexivity.
  unfold Dyadic.moderate.
  set (k := 2 ^ Dyadic.K) in *. set (k3 := 2 ^ (Dyadic.K - 3)) in *.
  set (klo := 2 ^ (Dyadic.K - 32)) in *.
  set (khi := 2 ^ (Dyadic.K + 32)) in *.
  clearbody k k3 klo khi.
  destruct Ha as [-> | [-> | [-> | ->]]]; lia.
Qed.

(** One more rating on sums that hold some already. *)
Lemma review_step (a : Z) (s : spec_float * spec_float)
  (r w : spec_float) :
  1 <= a <= 3 -> Dyadic.sums a s -> Spec.rating_1_5 r ->
  In w (map snd (WaterQuality.reviewWeights spec_float)) ->
  Dyadic.sums (a + 1)
    (SFadd 53 1024 (fst s)
       (SFmul 53 1024
          (SFmul 53 1024 (SFdiv 53 1024 r (Binary64.of_Z 5))
             (Binary64.of_Z 100)) w),
     SFadd 53 1024 (snd s) w).
Proof.
  intros Ha (vS & vW & HS & HW & HvW & Hlo & Hhi) Hr Hw.
  destruct (rating_repr r Hr) as (v & Hv & Hvr).
  destruct (review_weight_repr w Hw) as (vw & Hvw & Hw38).
  destruct (review_term r w v vw Hv Hvr Hvw Hw38) as (vc & Hc & Hcl & Hcu).
  assert (Ha' : a = 1 \/ a = 2 \/ a = 3) by lia.
  destruct (moderate_sums a vS vW ltac:(lia) HvW Hlo Hhi) as [MS MW].
  destruct (moderate_sums 1 vc vw ltac:(lia)) as [Mc Mw];
    try assumption.
  { split; [tauto |]. apply Z.le_trans with (2 ^ (Dyadic.K - 1)); [tauto |].
    apply Z.leb_le. vm_compute. reflexivity. }
  destruct (SFadd_repr _ _ vS vc HS Hc MS Mc) as (vS' & HS' & HSl & HSu).
  destruct (SFadd_repr _ _ vW vw HW Hvw MW Mw) as (vW' & HW' & HWl & HWu).
  exists vS', vW'. cbn [fst snd].
  split; [exact HS' |]. split; [exact HW' |].
  assert (K3 : 2 ^ (Dyadic.K - 3) * 8 = 2 ^ Dyadic.K) by reflexivity.
  assert (K1 : 2 ^ (Dyadic.K - 1) * 2 = 2 ^ Dyadic.K) by reflexivity.
  assert (HK : 0 < 2 ^ Dyadic.K) by reflexivity.
  apply sums_step_bounds with (k3 := 2 ^ (Dyadic.K - 3)) (vS := vS)
    (vW := vW) (vc := vc) (vw := vw); try assumption; try tauto.
  rewrite <- K1. lia.
Qed.

(** The first rating the loop finds. *)
Lemma review_first (r w : spec_float) :
  Spec.rating_1_5 r ->
  In w (map snd (WaterQuality.reviewWeights spec_float)) ->
  Dyadic.sums 1
    (SFadd 53 1024 (Binary64.of_Z 0)
       (SFmul 53 1024
          (SFmul 53 1024 (SFdiv 53 1024 r (Binary64.of_Z 5))
             (Binary64.of_Z 100)) w),
     SFadd 53 1024 (Binary64.of_Z 0) w).
Proof.
  intros Hr Hw.
  destruct (rating_repr r Hr) as (v & Hv & Hvr).
  destruct (review_weight_repr w Hw) as (vw & Hvw & Hw38).
  destruct (review_term r w v vw Hv Hvr Hvw Hw38) as (vc & Hc & Hcl & Hcu).
  assert (E0 : Binary64.of_Z 0 = S754_zero false)
    by (vm_compute; reflexivity).
  rewrite E0.
  assert (Ec : forall x u, Dyadic.repr x u ->
                 SFadd 53 1024 (S754_zero false) x = x).
  { intros x u (m & e & -> & _). reflexivity. }
  rewrite (Ec _ _ Hc), (Ec _ _ Hvw).
  exists vc, vw. cbn [fst snd].
  split; [exact Hc |]. split; [exact Hvw |].
  split; [| split; assumption].
  split; [tauto |]. apply Z.le_trans with (2 ^ (Dyadic.K - 1)); [tauto |].
  apply Z.leb_le. vm_compute. reflexivity.
Qed.

(** An iteration of the review loop keeps the state of the loop. *)
Lemma review_state_step (a : Z) (s : spec_float * spec_float)
  (o : option spec_float) (w : spec_float) :
  0 <= a <= 3 -> Dyadic.review_state a s ->
  Spec.rated spec_float Spec.rating_1_5 o ->
  In w (map snd (WaterQuality.reviewWeights spec_float)) ->
  Dyadic.review_state (a + 1)
    match o with
    | Some r =>
        (SFadd 53 1024 (fst s)
           (SFmul 53 1024
              (SFmul 53 1024 (SFdiv 53 1024 r (Binary64.of_Z 5))
                 (Binary64.of_Z 100)) w),
         SFadd 53 1024 (snd s) w)
    | None => s
    end.
Proof.
  intros Ha Hs [-> | (r & Hr & ->)] Hw.
  - destruct Hs as [-> | Hs]; [left; reflexivity | right].
    apply sums_mono with a; [lia | exact Hs].
  - right. destruct Hs as [-> | Hs].
    + cbn [fst snd]. apply sums_mono with 1; [lia |].
      now apply review_first.
    + assert (Hcases : a = 0 \/ 1 <= a <= 3) by lia.
      destruct Hcases as [-> | Ha'].
      * destruct Hs as (vS & vW & _ & _ & HvW & _).
        assert (0 < 2 ^ (Dyadic.K - 3)) by reflexivity. lia.
      * now apply review_step.
Qed.

(** The score the sums give once a rating has been added. *)
Lemma finish_sums (s : spec_float * spec_float) :
  Dyadic.sums 4 s ->
  exists n, Spec.finish spec_float s = Binary64.of_Z n /\ 20 <= n <= 100.
Proof.
  intros (vS & vW & HS & HW & HvW & Hlo & Hhi).
  destruct (moderate_sums 4 vS vW ltac:(lia) HvW Hlo Hhi) as [MS MW].
  destruct (SFdiv_repr _ _ vS vW HS HW MS MW) as (vd & Hd & Hdl & Hdu).
  unfold Spec.finish. cbn [ltb div Math_round of_Z Binary64.ops].
  unfold Binary64.prec, Binary64.emax.
  assert (E0 : Binary64.of_Z 0 = S754_zero false)
    by (vm_compute; reflexivity).
  rewrite E0.
  assert (Hpos : SFltb (S754_zero false) (snd s) = true).
  { destruct HW as (m & e & -> & _). reflexivity. }
  rewrite Hpos.
  apply Math_round_repr with vd; [exact Hd | |].
  - assert (HK : 0 < 2 ^ Dyadic.K) by reflexivity.
    assert (H3 : 0 < 2 ^ (Dyadic.K - 3)) by reflexivity.
    assert (HW0 : 0 < vW) by lia.
    apply Z.mul_le_mono_pos_r with vW; [exact HW0 |].
    set (k := 2 ^ Dyadic.K) in *. set (P := vd * vW) in *.
    replace (2 * vd * vW) with (2 * P) by (subst P; ring).
    assert (HSk : 20 * (2 ^ 40 - 4) * (vW * k) <= 2 ^ 40 * (vS * k)).
    { replace (20 * (2 ^ 40 - 4) * (vW * k))
        with (20 * (2 ^ 40 - 4) * vW * k) by ring.
      replace (2 ^ 40 * (vS * k)) with (2 ^ 40 * vS * k) by ring.
      apply Z.mul_le_mono_nonneg_r; [lia | exact Hlo]. }
    replace (39 * k * vW) with (39 * (vW * k)) by ring.
    assert (0 <= vW * k) by (apply Z.mul_nonneg_nonneg; lia).
    set (X := vW * k) in *. set (Y := vS * k) in *.
    clearbody k P X Y. clear - Hdl HSk H. lia.
  - assert (HK : 0 < 2 ^ Dyadic.K) by reflexivity.
    assert (H3 : 0 < 2 ^ (Dyadic.K - 3)) by reflexivity.
    assert (HW0 : 0 < vW) by lia.
    apply Z.mul_lt_mono_pos_r with vW; [exact HW0 |].
    set (k := 2 ^ Dyadic.K) in *. set (P := vd * vW) in *.
    replace (2 * vd * vW) with (2 * P) by (subst P; ring).
    assert (HSk : 2 ^ 40 * (vS * k) <= 100 * (2 ^ 40 + 4) * (vW * k)).
    { replace (100 * (2 ^ 40 + 4) * (vW * k))
        with (100 * (2 ^ 40 + 4) * vW * k) by ring.
      replace (2 ^ 40 * (vS * k)) with (2 ^ 40 * vS * k) by ring.
      apply Z.mul_le_mono_nonneg_r; [lia | exact Hhi]. }
    replace (201 * k * vW) with (201 * (vW * k)) by ring.
    assert (0 < vW * k) by (apply Z.mul_pos_pos; lia).
    set (X := vW * k) in *. set (Y := vS * k) in *.
    clearbody k P X Y. clear - Hdu HSk H. lia.
Qed.

(** The review loop on four entries, each without a rating or with one
    between 1 and 5: an integer between 0 and 100 comes out, 50 when no
    entry has a rating. *)
Lemma review_run_binary64 (o0 o1 o2 o3 : option spec_float) :
  Spec.rated spec_float Spec.rating_1_5 o0 ->
  Spec.rated spec_float Spec.rating_1_5 o1 ->
  Spec.rated spec_float Spec.rating_1_5 o2 ->
  Spec.rated spec_float Spec.rating_1_5 o3 ->
  exists n,
    Spec.review_run spec_float [o0; o1; o2; o3] = Binary64.of_Z n
    /\ 0 <= n <= 100
    /\ (o0 = None -> o1 = None -> o2 = None -> o3 = None -> n = 50).
Proof.
  intros H0 H1 H2 H3.
  assert (Hw : forall w,
             In w (map snd (WaterQuality.reviewWeights spec_float)) ->
             In w (map snd (WaterQuality.reviewWeights spec_float)))
    by auto.
  unfold WaterQuality.reviewWeights in Hw at 1. cbn [map snd In] in Hw.
  assert (Hrun : exists n,
             Spec.review_run spec_float [o0; o1; o2; o3] = Binary64.of_Z n
             /\ 0 <= n <= 100).
  { unfold Spec.review_run, Spec.accumulate.
    unfold WaterQuality.reviewWeights at 1.
    cbn [map snd fst combine fold_left of_Z add mul div Binary64.ops].
    unfold Binary64.prec, Binary64.emax.
    assert (S0 : Dyadic.review_state 0 (Binary64.of_Z 0, Binary64.of_Z 0))
      by (left; reflexivity).
    pose proof (review_state_step 0 _ o0 _ ltac:(lia) S0 H0
                  (Hw _ (or_introl eq_refl))) as S1.
    pose proof (review_state_step 1 _ o1 _ ltac:(lia) S1 H1
                  (Hw _ (or_intror (or_introl eq_refl)))) as S2.
    pose proof (review_state_step 2 _ o2 _ ltac:(lia) S2 H2
                  (Hw _ (or_intror (or_intror (or_introl eq_refl))))) as S3.
    pose proof (review_state_step 3 _ o3 _ ltac:(lia) S3 H3
                  (Hw _ (or_intror (or_intror (or_intror
                                                 (or_introl eq_refl))))))
      as S4.
    cbn [Z.add Pos.add] in S4.
    destruct S4 as [E | S4].
    - exists 50. split; [| lia].
      etransitivity; [apply (f_equal (Spec.finish spec_float)); exact E |].
      vm_compute. reflexivity.
    - destruct (finish_sums _ S4) as (n & Hn & Hr).
      exists n. split; [exact Hn | lia]. }
  destruct Hrun as (n & Hn & Hr).
  destruct o0, o1, o2, o3.
  16: { exists 50. split; [vm_compute; reflexivity |].
        split; [lia | reflexivity]. }
  all: exists n; split; [exact Hn |]; split; [exact Hr |];
    intros; discriminate.
Qed.

Lemma scored_intro (this : WaterQuality.doc spec_float) (n : Z) :
  WaterQuality.calculateQualityScore this = Normal (Binary64.of_Z n) ->
  0 <= n <= 100 ->
  (Spec.nothing_scored this -> n = 50) ->
  Spec.scored this n.
Proof.
  intros Hc Hr Hd. split; [exact Hc |]. split; [exact Hr |].
  split; [exact Hd |].
  intros isModified. unfold WaterQuality.pre_save.
  destruct (isModified "sensorData" || isModified "reviewData").
  - rewrite Hc. cbn [bind]. eexists. split; [reflexivity |].
    intros _. split; reflexivity.
  - exists this. split; [reflexivity | discriminate].
Qed.

(** Neither loop runs: the default. *)
Lemma calculate_unscored (this : WaterQuality.doc spec_float) :
  (WaterQuality.source this =? "esp32")%string
  && truthy (WaterQuality.sensorData this) = false ->
  (WaterQuality.source this =? "user_review")%string
  && truthy (WaterQuality.reviewData this) = false ->
  WaterQuality.calculateQualityScore this = Normal (Binary64.of_Z 50).
Proof.
  intros H1 H2. unfold WaterQuality.calculateQualityScore.
  rewrite H1, H2. vm_compute. reflexivity.
Qed.

(** The recomputation never throws, whatever the document holds. *)
Lemma calculate_total (this : WaterQuality.doc spec_float) :
  exists q, WaterQuality.calculateQualityScore this = Normal q.
Proof.
  destruct (string_dec (WaterQuality.source this) "esp32") as [Hs | Hs].
  - eexists. now apply calculate_sensor_binary64.
  - apply String.eqb_neq in Hs.
    destruct (string_dec (WaterQuality.source this) "user_review")
      as [Hu | Hu].
    + destruct (truthy (WaterQuality.reviewData this)) eqn:Hrd.
      * eexists. now apply calculate_review.
      * eexists. apply calculate_unscored.
        -- now rewrite Hs.
        -- now rewrite Hrd, andb_false_r.
    + apply String.eqb_neq in Hu. eexists. apply calculate_unscored.
      * now rewrite Hs.
      * now rewrite Hu.
Qed.

Lemma pre_save_total (this : WaterQuality.doc spec_float)
  (isModified : string -> bool) :
  exists this',
    WaterQuality.pre_save isModified this = Normal this'
    /\ (isModified "sensorData" || isModified "reviewData" = true ->
        exists q,
          WaterQuality.qualityScore this' = VNum q
          /\ WaterQuality.assessment_status this'
             = Some (WaterQuality.determineStatus this')).
Proof.
  destruct (calculate_total this) as (q & Hq).
  unfold WaterQuality.pre_save.
  destruct (isModified "sensorData" || isModified "reviewData").
  - rewrite Hq. cbn [bind]. eexists. split; [reflexivity |].
    intros _. exists q. split; reflexivity.
  - exists this. split; [reflexivity | discriminate].
Qed.

Lemma absent_rated (row : list (option spec_float)) :
  Spec.all_absent row ->
  Forall (Spec.rated spec_float Spec.rating_1_5) row.
Proof.
  unfold Spec.all_absent. apply Forall_impl. intros o ->. now left.
Qed.

Lemma rated_document_scored (this : WaterQuality.doc spec_float) :
  (WaterQuality.source this = "user_review" -> Spec.ratings_1_5 this) ->
  exists n : Z, Spec.scored this n.
Proof.
  intros Hconf.
  destruct (string_dec (WaterQuality.source this) "esp32") as [Hs | Hs].
  - (* sensor document *)
    pose proof (sensor_row_in_table this) as Hin.
    exists (Table.sensor_expected (Spec.sensor_row this)).
    pose proof sensor_table_bounds as Ht.
    rewrite forallb_forall in Ht. specialize (Ht _ Hin).
    apply sensor_bounds_spec in Ht as Hb.
    destruct Hb as (Hr & Hnone & _).
    apply scored_intro; [| exact Hr |].
    + rewrite (calculate_sensor_binary64 _ Hs).
      now rewrite (sensor_run_binary64 _ Hin).
    + intros [Hn _]. apply Hnone. apply contributions_absent. auto.
  - apply String.eqb_neq in Hs.
    destruct (string_dec (WaterQuality.source this) "user_review")
      as [Hu | Hu].
    + (* review document *)
      specialize (Hconf Hu).
      destruct (truthy (WaterQuality.reviewData this)) eqn:Hrd.
      * unfold Spec.ratings_1_5, Spec.rating_row in Hconf.
        cbn [map fst Spec.review_weights] in Hconf.
        inversion Hconf as [| ? ? R0 Hconf1]; subst.
        inversion Hconf1 as [| ? ? R1 Hconf2]; subst.
        inversion Hconf2 as [| ? ? R2 Hconf3]; subst.
        inversion Hconf3 as [| ? ? R3 _]; subst.
        destruct (review_run_binary64 _ _ _ _ R0 R1 R2 R3)
          as (n & Hn & Hr & Hdef).
        exists n. apply scored_intro; [| exact Hr |].
        -- rewrite (calculate_review _ Hu Hrd).
           cbn [map fst Spec.review_weights]. now rewrite Hn.
        -- intros [_ Hall]. specialize (Hall Hu).
           unfold Spec.all_absent, Spec.rating_row in Hall.
           cbn [map fst Spec.review_weights] in Hall.
           inversion Hall as [| ? ? F0 Hall1]; subst.
           inversion Hall1 as [| ? ? F1 Hall2]; subst.
           inversion Hall2 as [| ? ? F2 Hall3]; subst.
           inversion Hall3 as [| ? ? F3 _]; subst.
           now apply Hdef.
      * exists 50. apply scored_intro; [| lia | reflexivity].
        apply calculate_unscored.
        -- now rewrite Hs.
        -- now rewrite Hrd, andb_false_r.
    + apply String.eqb_neq in Hu.
      exists 50. apply scored_intro; [| lia | reflexivity].
      apply calculate_unscored.
      * now rewrite Hs.
      * now rewrite Hu.
Qed.

Lemma unscored_is_rated (this : WaterQuality.doc spec_float) :
  Spec.nothing_scored this ->
  WaterQuality.source this = "user_review" -> Spec.ratings_1_5 this.
Proof. intros [_ Hall] Hu. apply absent_rated. now apply Hall. Qed.

Lemma of_Z_not_120 (n : Z) :
  0 <= n <= 100 -> Binary64.of_Z n <> Binary64.of_Z 120.
Proof.
  intros Hn E.
  assert (Hall : forallb
                   (fun k => negb (Table.sf_eqb
                                     (Binary64.of_Z (Z.of_nat k))
                                     (Binary64.of_Z 120)))
                   (seq 0 101) = true)
    by (vm_compute; reflexivity).
  rewrite forallb_forall in Hall.
  specialize (Hall (Z.to_nat n)).
  rewrite Z2Nat.id, E in Hall by lia.
  assert (Hin : In (Z.to_nat n) (seq 0 101)) by (apply in_seq; lia).
  specialize (Hall Hin).
  assert (Hrefl : Table.sf_eqb (Binary64.of_Z 120) (Binary64.of_Z 120)
                  = true) by (vm_compute; reflexivity).
  rewrite Hrefl in Hall. discriminate.
Qed.

(** C10, as amended. [calculateQualityScore] never throws, whatever the
    source and the payload of the document, so the pre-save hook goes
    through and leaves a score and a status; the score is 50 when neither
    loop runs or none of the weighted entries is present; and it is an
    integer between 0 and 100 on every sensor document, on every document
    of another source, and on every review whose ratings, where the loop
    reads one, are Numbers between 1 and 5, which is what the schema
    admits. All of it in binary64, the arithmetic of the engine; a
    rating need not be whole. *)
Theorem calculateQualityScore_total_in_range
  (this : WaterQuality.doc spec_float) :
  (exists q, WaterQuality.calculateQualityScore this = Normal q)
  /\ (forall isModified : string -> bool,
        exists this',
          WaterQuality.pre_save isModified this = Normal this'
          /\ (isModified "sensorData" || isModified "reviewData" = true ->
              exists q,
                WaterQuality.qualityScore this' = VNum q
                /\ WaterQuality.assessment_status this'
                   = Some (WaterQuality.determineStatus this')))
  /\ (Spec.nothing_scored this ->
      WaterQuality.calculateQualityScore this = Normal (Binary64.of_Z 50))
  /\ ((WaterQuality.source this = "user_review" -> Spec.ratings_1_5 this) ->
      exists n : Z, Spec.scored this n).
Proof.
  split; [apply calculate_total |].
  split; [intros isModified; apply pre_save_total |].
  split; [| apply rated_document_scored].
  intros Hnone.
  destruct (rated_document_scored this (unscored_is_rated this Hnone))
    as (n & Hc & _ & Hdef & _).
  now rewrite <- (Hdef Hnone).
Qed.

(** Against the specification: a review that gives 6 for the taste, a
    document the model builds like any other, is scored 120, which is
    not an integer between 0 and 100. *)
Lemma six_for_the_taste_scores_120 :
  WaterQuality.calculateQualityScore
    (Samples.review_document Samples.taste_six)
  = Normal (Binary64.of_Z 120)
  /\ ~ (exists n : Z,
          0 <= n <= 100
          /\ WaterQuality.calculateQualityScore
               (Samples.review_document Samples.taste_six)
             = Normal (Binary64.of_Z n)).
Proof.
  assert (E : WaterQuality.calculateQualityScore
                (Samples.review_document Samples.taste_six)
              = Normal (Binary64.of_Z 120)) by (vm_compute; reflexivity).
  split; [exact E |].
  intros (n & Hn & Hc). rewrite E in Hc. injection Hc as Hc.
  now apply (of_Z_not_120 n Hn).
Qed.

(* ================================================================== *)
(** ** Threshold evaluation *)

Lemma uniq_In (keys : list string) (k : string) :
  In k (uniq keys) <-> In k keys.
Proof.
  induction keys as [| k0 keys IH]; simpl; [tauto |].
  rewrite filter_In, IH, negb_true_iff, String.eqb_neq.
  destruct (string_dec k0 k); intuition congruence.
Qed.

Lemma uniq_NoDup (keys : list string) : NoDup (uniq keys).
Proof.
  induction keys as [| k keys IH]; simpl; constructor.
  - rewrite filter_In, String.eqb_refl. simpl. intros [_ H]. discriminate.
  - now apply NoDup_filter.
Qed.

Lemma lookup_In (N : Type) {A : Arith N}
  (props : list (string * val N)) (key : string) :
  truthy (lookup props key) = true -> In key (map fst props).
Proof.
  induction props as [| [k v] props IH]; simpl; [discriminate |].
  destruct (String.eqb_spec k key); auto.
Qed.

Section ThresholdLemmas.

Context (N : Type) {A : Arith N}.
Variable waterQualityData : WaterQuality.doc N.
Variable device : ESP32Device.doc N.

Hypothesis Hreadings : truthy (WaterQuality.sensorData waterQualityData) = true.
Hypothesis Hthresholds : truthy (ESP32Device.thresholds device) = true.

Lemma check_sensor_spec (alerts : list (Esp32Routes.alert N))
  (sensorKey : string) :
  Esp32Routes.check_sensor waterQualityData device alerts sensorKey
  = Normal (alerts ++ Rules.sensor_alerts waterQualityData device sensorKey).
Proof.
  unfold Esp32Routes.check_sensor, Rules.sensor_alerts, Rules.evaluated,
    Rules.value_of, Rules.thresholds_of, Rules.reading_of.
  rewrite (get_prop _ _ Hreadings), (get_prop _ _ Hthresholds).
  cbn [bind].
  destruct (truthy (Spec.prop (WaterQuality.sensorData waterQualityData)
                      sensorKey)) eqn:Hr;
    [| now rewrite app_nil_r].
  destruct (truthy (Spec.prop (ESP32Device.thresholds device) sensorKey))
    eqn:Ht; [| now rewrite app_nil_r].
  cbn [andb]. rewrite (get_prop _ _ Hr), !(get_prop _ _ Ht). cbn [bind].
  unfold Rules.below_criticalMin, Rules.above_criticalMax, Rules.below_min,
    Rules.above_max.
  repeat match goal with
         | |- context [if ?c then _ else _] => destruct c
         end; try reflexivity.
  now rewrite app_nil_r.
Qed.

Lemma forEach_check_sensor (keys : list string)
  (alerts : list (Esp32Routes.alert N)) :
  forEach keys (Esp32Routes.check_sensor waterQualityData device) alerts
  = Normal (alerts
            ++ flat_map (Rules.sensor_alerts waterQualityData device) keys).
Proof.
  revert alerts. induction keys as [| k keys IH]; intros alerts; simpl.
  - now rewrite app_nil_r.
  - rewrite check_sensor_spec. cbn [bind]. rewrite IH.
    now rewrite app_assoc.
Qed.

Lemma sensor_alerts_sensor (sensorKey : string) (a : Esp32Routes.alert N) :
  In a (Rules.sensor_alerts waterQualityData device sensorKey) ->
  Esp32Routes.sensor a = sensorKey.
Proof.
  unfold Rules.sensor_alerts.
  repeat match goal with
         | |- context [if ?c then _ else _] => destruct c
         end; simpl; intros H; intuition (subst; reflexivity).
Qed.

Lemma sensor_alerts_short (sensorKey : string) :
  (List.length (Rules.sensor_alerts waterQualityData device sensorKey)
   <= 1)%nat.
Proof.
  unfold Rules.sensor_alerts.
  repeat match goal with
         | |- context [if ?c then _ else _] => destruct c
         end; simpl; lia.
Qed.

Lemma alerts_for_own (sensorKey : string) :
  Rules.alerts_for (Rules.sensor_alerts waterQualityData device sensorKey)
    sensorKey
  = Rules.sensor_alerts waterQualityData device sensorKey.
Proof.
  unfold Rules.alerts_for. apply forallb_filter_id. apply forallb_forall.
  intros a Ha. apply sensor_alerts_sensor in Ha. rewrite Ha.
  apply String.eqb_refl.
Qed.

Lemma alerts_for_other (k sensorKey : string) :
  k <> sensorKey ->
  Rules.alerts_for (Rules.sensor_alerts waterQualityData device k) sensorKey
  = [].
Proof.
  intros Hne. unfold Rules.alerts_for.
  destruct (filter _ _) as [| a l] eqn:Hf; [reflexivity |].
  assert (Ha : In a (a :: l)) by (left; reflexivity).
  rewrite <- Hf in Ha. apply filter_In in Ha as [Ha Hs].
  apply sensor_alerts_sensor in Ha. apply String.eqb_eq in Hs. congruence.
Qed.

Lemma alerts_for_flat_map (keys : list string) (sensorKey : string) :
  NoDup keys ->
  Rules.alerts_for
    (flat_map (Rules.sensor_alerts waterQualityData device) keys) sensorKey
  = if in_dec string_dec sensorKey keys
    then Rules.sensor_alerts waterQualityData device sensorKey
    else [].
Proof.
  induction 1 as [| k keys Hk Hnd IH]; [reflexivity |].
  unfold Rules.alerts_for in *. cbn [flat_map]. rewrite filter_app, IH.
  fold (Rules.alerts_for (Rules.sensor_alerts waterQualityData device k)
          sensorKey).
  destruct (string_dec k sensorKey) as [-> | Hne].
  - rewrite alerts_for_own.
    destruct (in_dec string_dec sensorKey keys) as [Hin | _];
      [contradiction |].
    destruct (in_dec string_dec sensorKey (sensorKey :: keys)) as [_ | Hn];
      [now rewrite app_nil_r | exfalso; apply Hn; now left].
  - rewrite (alerts_for_other _ _ Hne). cbn [app].
    destruct (in_dec string_dec sensorKey keys) as [Hin | Hn];
      destruct (in_dec string_dec sensorKey (k :: keys)) as [Hin' | Hn'];
      try reflexivity.
    + exfalso. apply Hn'. now right.
    + destruct Hin' as [-> | Hin']; [congruence | contradiction].
Qed.

End ThresholdLemmas.

Lemma alerts_for_overall (N : Type) {A : Arith N} (qualityScore : val N)
  (sensorKey : string) :
  sensorKey <> "overall" ->
  Rules.alerts_for (Esp32Routes.overall_alerts qualityScore) sensorKey = [].
Proof.
  intros Hne. apply String.eqb_neq in Hne. rewrite String.eqb_sym in Hne.
  unfold Esp32Routes.overall_alerts, Rules.alerts_for.
  repeat match goal with
         | |- context [if ?c then _ else _] => destruct c
         end; cbn [filter Esp32Routes.sensor]; rewrite ?Hne; reflexivity.
Qed.

(** C8. When a reading is checked against a device's thresholds, every
    parameter gets at most one alert from the threshold loop; a parameter
    that is evaluated and violates [criticalMin] or [criticalMax] gets
    exactly one alert, a critical one; a warning for a parameter means
    that neither critical bound is violated; and the check of the overall
    score adds nothing under a parameter's name. *)
Theorem at_most_one_alert_per_parameter (N : Type) {A : Arith N}
  (waterQualityData : WaterQuality.doc N) (device : ESP32Device.doc N)
  (readings thresholds : list (string * val N)) :
  WaterQuality.sensorData waterQualityData = VObj readings ->
  ESP32Device.thresholds device = VObj thresholds ->
  exists alerts : list (Esp32Routes.alert N),
    forEach (uniq (map fst readings))
      (Esp32Routes.check_sensor waterQualityData device) []
    = Normal alerts
    /\ Esp32Routes.checkForAlerts waterQualityData device
       = Normal (alerts
                 ++ Esp32Routes.overall_alerts
                      (WaterQuality.qualityScore waterQualityData))
    /\ forall sensorKey : string,
         let value := Rules.value_of waterQualityData sensorKey in
         let bounds := Rules.thresholds_of device sensorKey in
         (List.length (Rules.alerts_for alerts sensorKey) <= 1)%nat
         /\ (Rules.evaluated waterQualityData device sensorKey = true ->
             Rules.below_criticalMin value bounds
             || Rules.above_criticalMax value bounds = true ->
             exists a, Rules.alerts_for alerts sensorKey = [a]
                       /\ Rules.is_critical a)
         /\ (forall a, In a (Rules.alerts_for alerts sensorKey) ->
                       Rules.is_warning a ->
                       Rules.below_criticalMin value bounds = false
                       /\ Rules.above_criticalMax value bounds = false)
         /\ (sensorKey <> "overall" ->
             Rules.alerts_for
               (alerts ++ Esp32Routes.overall_alerts
                            (WaterQuality.qualityScore waterQualityData))
               sensorKey
             = Rules.alerts_for alerts sensorKey).
Proof.
  intros Hsd Hth.
  assert (Hreadings : truthy (WaterQuality.sensorData waterQualityData) = true)
    by now rewrite Hsd.
  assert (Hthresholds : truthy (ESP32Device.thresholds device) = true)
    by now rewrite Hth.
  set (keys := uniq (map fst readings)).
  exists (flat_map (Rules.sensor_alerts waterQualityData device) keys).
  split; [| split].
  - now rewrite forEach_check_sensor.
  - unfold Esp32Routes.checkForAlerts. rewrite Hsd. cbn [Object_keys bind].
    fold keys. now rewrite forEach_check_sensor.
  - intros sensorKey value bounds.
    rewrite (alerts_for_flat_map N waterQualityData device keys sensorKey
               (uniq_NoDup _)).
    split; [| split; [| split]].
    + destruct (in_dec string_dec sensorKey keys); [| simpl; lia].
      apply sensor_alerts_short.
    + intros Hev Hcrit.
      assert (Hin : In sensorKey keys).
      { apply uniq_In. apply (lookup_In N). unfold Rules.evaluated in Hev.
        apply andb_prop in Hev as [Hr _].
        unfold Rules.reading_of in Hr. now rewrite Hsd in Hr. }
      destruct (in_dec string_dec sensorKey keys); [| contradiction].
      unfold Rules.sensor_alerts. rewrite Hev.
      fold value bounds.
      destruct (Rules.below_criticalMin value bounds).
      * eexists. split; reflexivity.
      * cbn [orb] in Hcrit. rewrite Hcrit. eexists. split; reflexivity.
    + intros a Ha Hw.
      destruct (in_dec string_dec sensorKey keys); [| contradiction].
      unfold Rules.sensor_alerts in Ha. fold value bounds in Ha.
      unfold Rules.is_warning in Hw.
      destruct (Rules.evaluated waterQualityData device sensorKey);
        [| contradiction].
      destruct (Rules.below_criticalMin value bounds);
        [destruct Ha as [<- | []]; discriminate |].
      destruct (Rules.above_criticalMax value bounds);
        [destruct Ha as [<- | []]; discriminate |].
      split; reflexivity.
    + intros Hne. unfold Rules.alerts_for at 1. rewrite filter_app.
      fold (Rules.alerts_for
              (Esp32Routes.overall_alerts
                 (WaterQuality.qualityScore waterQualityData)) sensorKey).
      rewrite (alerts_for_overall N _ _ Hne), app_nil_r.
      apply alerts_for_flat_map. apply uniq_NoDup.
Qed.

(* ================================================================== *)
(** ** The [POST /data] handler *)

Section DeviceStore.

Context (N : Type) {A : Arith N}.

Lemma findOne_deviceId (collection : list (ESP32Device.doc N))
  (id : string) (device : ESP32Device.doc N) :
  ESP32Device.findOne collection id = Some device ->
  ESP32Device.deviceId device = id.
Proof.
  induction collection as [| d rest IH]; simpl; [discriminate |].
  destruct (String.eqb_spec (ESP32Device.deviceId d) id).
  - intros [= <-]. assumption.
  - exact IH.
Qed.

Lemma findOne_write (collection : list (ESP32Device.doc N))
  (this : ESP32Device.doc N) :
  ESP32Device.findOne (ESP32Device.write collection this)
    (ESP32Device.deviceId this)
  = Some this.
Proof.
  induction collection as [| d rest IH]; simpl.
  - now rewrite String.eqb_refl.
  - destruct (String.eqb_spec (ESP32Device.deviceId d)
                (ESP32Device.deviceId this)) as [He | Hne]; simpl.
    + now rewrite String.eqb_refl.
    + apply String.eqb_neq in Hne. now rewrite Hne.
Qed.

(** The device a request for [id] works on: the stored one, or a new
    one with the schema defaults. *)
Lemma working_device_id (e : ESP32Device.env)
  (collection : list (ESP32Device.doc N)) (id : string) :
  ESP32Device.deviceId (Esp32Routes.working_device e collection id) = id.
Proof.
  unfold Esp32Routes.working_device.
  destruct (ESP32Device.findOne collection id) eqn:Hf; [| reflexivity].
  now apply findOne_deviceId in Hf.
Qed.

(** What the handler went through after the save when it answers 200. *)
Lemma after_save_accepted (e : ESP32Device.env) (d d' : Esp32Routes.db N)
  (req : Esp32Routes.body N) (sensorData : list (string * val N))
  (saved : WaterQuality.doc N) (readings1 : list (WaterQuality.doc N))
  (events : list (Esp32Routes.event N))
  (q : val N) (alerts : option (list (Esp32Routes.alert N))) :
  Esp32Routes.after_save e d req sensorData saved readings1
  = (d', events, Esp32Routes.R200 q alerts) ->
  exists device3 al,
    ESP32Device.save_doc e
      (ESP32Device.findOne (Esp32Routes.devices d)
         (Esp32Routes.deviceId req))
      (Counters.counted (ESP32Device.now e)
         (Esp32Routes.refreshed e req
            (Esp32Routes.working_device e (Esp32Routes.devices d)
               (Esp32Routes.deviceId req))))
    = Normal device3
    /\ d' = {| Esp32Routes.devices :=
                 ESP32Device.write (Esp32Routes.devices d) device3;
               Esp32Routes.readings := readings1 |}
    /\ Esp32Routes.checkForAlerts saved device3 = Normal al
    /\ q = WaterQuality.qualityScore saved
    /\ alerts = match al with [] => None | _ => Some al end
    /\ events
       = Esp32Routes.esp32_data (Esp32Routes.deviceId req)
           (WaterQuality.timestamp saved) (VObj sensorData) q
         :: match al with
            | [] => []
            | _ => [Esp32Routes.water_quality_alert
                      (Esp32Routes.deviceId req) al
                      (WaterQuality.timestamp saved)]
            end.
Proof.
  unfold Esp32Routes.after_save, ESP32Device.recordReading,
    ESP32Device.save. cbv zeta.
  fold (Counters.counted (ESP32Device.now e)
          (Esp32Routes.refreshed e req
             (Esp32Routes.working_device e (Esp32Routes.devices d)
                (Esp32Routes.deviceId req)))).
  destruct (ESP32Device.save_doc _ _ _) as [device3 | err] eqn:Hdevice;
    cbn [bind]; try discriminate.
  destruct (Esp32Routes.checkForAlerts saved device3) as [[| a al] | err]
    eqn:Halerts; try discriminate; intros [= <- <- <- <-];
    exists device3; eexists; repeat split; eassumption || reflexivity.
Qed.

End DeviceStore.

Section Ingestion.

Context (N : Type) {A : Arith N}.
Variable e : ESP32Device.env.

Lemma save_doc_fields (loaded : option (ESP32Device.doc N))
  (this saved : ESP32Device.doc N) :
  ESP32Device.save_doc e loaded this = Normal saved ->
  ESP32Device.deviceId saved = ESP32Device.deviceId this
  /\ ESP32Device.status saved = ESP32Device.status this
  /\ (ESP32Device.lastSeen saved = ESP32Device.lastSeen this
      \/ ESP32Device.status this = ESP32Device.online
         /\ ESP32Device.lastSeen saved = ESP32Device.now e)
  /\ ESP32Device.totalReadings saved = ESP32Device.totalReadings this
  /\ ESP32Device.successfulReadings saved
     = ESP32Device.successfulReadings this
  /\ ESP32Device.failedReadings saved = ESP32Device.failedReadings this
  /\ ESP32Device.averageQualityScore saved
     = ESP32Device.averageQualityScore this
  /\ ESP32Device.thresholds saved = ESP32Device.thresholds this.
Proof.
  unfold ESP32Device.save_doc, ESP32Device.pre_save.
  destruct (ESP32Device.ESP32Device_save_error e _); [discriminate |].
  intros [= <-].
  destruct (ESP32Device.isModified_status loaded this); cbn [andb];
    [destruct (ESP32Device.status this) eqn:Hs |];
    cbn; rewrite ?Hs; tauto.
Qed.

(** A document without a score does not pass validation: its save is
    rejected before the hook, whatever the store would say. *)
Lemma save_without_score (save_error : option exn)
  (isModified : string -> bool) (collection : list (WaterQuality.doc N))
  (this : WaterQuality.doc N) :
  WaterQuality.qualityScore this = VUndefined ->
  WaterQuality.save save_error isModified collection this
  = Throw ValidationError.
Proof.
  intros Hq. unfold WaterQuality.save, WaterQuality.validates.
  now rewrite Hq.
Qed.

(** The sensor branch of the hook on a new reading never throws. *)
Lemma pre_save_new_reading (req : Esp32Routes.body N)
  (sensorData : list (string * val N)) :
  exists q : N,
    WaterQuality.calculateQualityScore
      (Esp32Routes.new_reading e req sensorData) = Normal q
    /\ WaterQuality.pre_save (fun path => (path =? "sensorData")%string)
         (Esp32Routes.new_reading e req sensorData)
       = Normal
           (WaterQuality.set_assessment_status
              (WaterQuality.set_qualityScore
                 (Esp32Routes.new_reading e req sensorData) (VNum q))
              (WaterQuality.determineStatus
                 (WaterQuality.set_qualityScore
                    (Esp32Routes.new_reading e req sensorData) (VNum q)))).
Proof.
  eexists. split.
  - now apply calculate_sensor.
  - unfold WaterQuality.pre_save. cbn [String.eqb Ascii.eqb Bool.eqb orb].
    now rewrite calculate_sensor.
Qed.

(** Whatever the request, the handler leaves the database as it was and
    emits nothing: the reading it builds has no score, and its save is
    rejected. *)
Lemma post_data_outcome (d : Esp32Routes.db N) (req : Esp32Routes.body N) :
  Esp32Routes.post_data e d req
  = (d, [],
     match (keys <- Object_keys (Esp32Routes.sensors req) ;;
            forEach keys
              (Esp32Routes.collect_sensor (Esp32Routes.sensors req))
              ([], false)) with
     | Throw err =>
         Esp32Routes.R500 N "Failed to process sensor data" err
     | Normal (_, false) =>
         Esp32Routes.R400 N "No valid sensor data provided"
     | Normal (_, true) =>
         Esp32Routes.R500 N "Failed to process sensor data"
           ValidationError
     end).
Proof.
  unfold Esp32Routes.post_data.
  destruct (bind (Object_keys (Esp32Routes.sensors req)) _)
    as [[sensorData [|]] | err]; reflexivity.
Qed.

End Ingestion.

(* ================================================================== *)
(** ** What a saved reading does to its device *)




(* ================================================================== *)
(** ** A reading that cannot be persisted *)

(** C4, as amended. When the save of the reading fails, whatever it
    fails on, the handler answers 500 with the error, emits nothing, and
    leaves the database as it was: no counter of the device moves and
    its stored status is not touched. *)
Theorem persist_failure_is_surfaced (N : Type) {A : Arith N}
  (e : ESP32Device.env)
  (d : Esp32Routes.db N) (req : Esp32Routes.body N) (err : exn)
  (sensorData : list (string * val N)) :
  WaterQuality.save (ESP32Device.WaterQuality_save_error e)
    (fun path => (path =? "sensorData")%string)
    (Esp32Routes.readings d) (Esp32Routes.new_reading e req sensorData)
  = Throw err ->
  (keys <- Object_keys (Esp32Routes.sensors req) ;;
   forEach keys (Esp32Routes.collect_sensor (Esp32Routes.sensors req))
     ([], false))
  = Normal (sensorData, true) ->
  Esp32Routes.post_data e d req
  = (d, [], Esp32Routes.R500 N "Failed to process sensor data" err).
Proof.
  intros Herr Hcollect. unfold Esp32Routes.post_data.
  now rewrite Hcollect, Herr.
Qed.

(** Against the specification: the reading is refused, and the device's
    failed-reading counter is what it was. *)
Lemma failed_reading_is_not_counted :
  exists d' events message err device,
    Esp32Routes.post_data Samples.readings_down
      (Samples.one_device ESP32Device.online) Samples.clean_water
    = (d', events, Esp32Routes.R500 spec_float message err)
    /\ ESP32Device.findOne (Esp32Routes.devices d') "esp32-001" = Some device
    /\ ESP32Device.failedReadings device
       = ESP32Device.failedReadings
           (Samples.silent "esp32-001" ESP32Device.online)
    /\ ESP32Device.failedReadings device
       <> ESP32Device.failedReadings
            (Samples.silent "esp32-001" ESP32Device.online) + 1.
Proof.
  do 5 eexists. split; [vm_compute; reflexivity |].
  split; [vm_compute; reflexivity |].
  split; [reflexivity | discriminate].
Qed.

Lemma persist_failure_is_surfaced_witness :
  Esp32Routes.post_data Samples.readings_down
    (Samples.one_device ESP32Device.online) Samples.clean_water
  = (Samples.one_device ESP32Device.online, [],
     Esp32Routes.R500 spec_float "Failed to process sensor data"
       ValidationError).
Proof.
  refine (persist_failure_is_surfaced spec_float Samples.readings_down
            (Samples.one_device ESP32Device.online) Samples.clean_water
            ValidationError (Samples.kept Samples.clean_water) _ _).
  - apply save_without_score. reflexivity.
  - vm_compute. reflexivity.
Defined.

(* ================================================================== *)
(** ** The counters of a device *)




(* ================================================================== *)
(** ** The check of the overall score *)

Lemma breakpoints_table : forallb Table.check_breakpoints Table.scores = true.
Proof. vm_compute. reflexivity. Qed.

Lemma breakpoints (n : Z) :
  0 <= n <= 100 ->
  lt (lit spec_float n) (lit spec_float 40) = (n <? 40)
  /\ lt (lit spec_float n) (lit spec_float 60) = (n <? 60).
Proof.
  intros Hn. pose proof breakpoints_table as Ht.
  rewrite forallb_forall in Ht.
  assert (Hin : In n Table.scores).
  { unfold Table.scores. apply in_map_iff. exists (Z.to_nat n).
    split; [lia |]. apply in_seq. lia. }
  specialize (Ht _ Hin). unfold Table.check_breakpoints in Ht.
  apply andb_prop in Ht as [H40 H60].
  apply Bool.eqb_prop in H40. apply Bool.eqb_prop in H60. auto.
Qed.

(** The score the hook computes for a sensor document, in binary64. *)
Lemma sensor_score_whole (this : WaterQuality.doc spec_float) :
  WaterQuality.source this = "esp32" ->
  exists n : Z,
    0 <= n <= 100
    /\ WaterQuality.calculateQualityScore this = Normal (Binary64.of_Z n).
Proof.
  intros Hsrc. rewrite (calculate_sensor_binary64 _ Hsrc).
  pose proof (sensor_row_in_table this) as Hin.
  exists (Table.sensor_expected (Spec.sensor_row this)).
  pose proof sensor_table_bounds as Ht. rewrite forallb_forall in Ht.
  specialize (Ht _ Hin). apply sensor_bounds_spec in Ht as (Hr & _).
  split; [exact Hr |]. f_equal. now apply sensor_run_binary64.
Qed.

Lemma checkForAlerts_overall (N : Type) {A : Arith N}
  (waterQualityData : WaterQuality.doc N) (device : ESP32Device.doc N)
  (al : list (Esp32Routes.alert N)) :
  Esp32Routes.checkForAlerts waterQualityData device = Normal al ->
  exists thresholds_part,
    al = thresholds_part
         ++ Esp32Routes.overall_alerts
              (WaterQuality.qualityScore waterQualityData).
Proof.
  unfold Esp32Routes.checkForAlerts.
  destruct (Object_keys _) as [keys | err]; [| discriminate]. cbn [bind].
  destruct (forEach keys _ _) as [part | err]; [| discriminate]. cbn [bind].
  intros [= <-]. now exists part.
Qed.

Lemma post_reviews_silent (N : Type) {A : Arith N} (now : Z)
  (save_error : option exn)
  (collection : list (ReviewRoutes.review N)) (req : ReviewRoutes.body N) :
  snd (fst (ReviewRoutes.post_reviews now save_error collection req)) = [].
Proof.
  unfold ReviewRoutes.post_reviews.
  destruct (ReviewRoutes.coordinates req); [| reflexivity].
  match goal with
  | |- context [match ?c with Normal _ => _ | Throw _ => _ end] =>
      destruct c as [[|] | err]
  end; try reflexivity.
  match goal with
  | |- context [match ?c with Normal _ => _ | Throw _ => _ end] =>
      destruct c as [[[[overallRating taste] clarity] odor] | err]
  end; try reflexivity.
  destruct (negb _); [reflexivity |].
  destruct save_error as [[| |] |]; reflexivity.
Qed.

Lemma post_review_silent (N : Type) {A : Arith N} (now : Z)
  (save_error : option exn)
  (collection : list (WaterQuality.doc N)) (reviewData : val N) :
  snd (fst (ReviewRoutes.post_review now save_error collection reviewData))
  = [].
Proof.
  unfold ReviewRoutes.post_review.
  destruct (WaterQuality.save _ _ _ _) as [[saved collection'] | err];
    reflexivity.
Qed.

Lemma overall_alert_raised (n : Z)
  (part : list (Esp32Routes.alert spec_float)) :
  0 <= n <= 100 ->
  let q := lit spec_float n in
  (n < 40 ->
   In (Rules.overall Esp32Routes.critical
         Esp32Routes.quality_critically_poor q 40)
      (part ++ Esp32Routes.overall_alerts q))
  /\ (40 <= n < 60 ->
      In (Rules.overall Esp32Routes.warning
            Esp32Routes.quality_below_normal q 60)
         (part ++ Esp32Routes.overall_alerts q)).
Proof.
  intros Hn q. destruct (breakpoints n Hn) as [H40 H60].
  unfold Esp32Routes.overall_alerts. fold q in H40, H60.
  rewrite H40, H60. split.
  - intros Hlt. apply Z.ltb_lt in Hlt. rewrite Hlt.
    apply in_or_app. right. left. reflexivity.
  - intros [Hge Hlt]. apply Z.ltb_ge in Hge. apply Z.ltb_lt in Hlt.
    rewrite Hge, Hlt. apply in_or_app. right. left. reflexivity.
Qed.

Lemma saved_checked (e : ESP32Device.env)
  (d d' : Esp32Routes.db spec_float) (req : Esp32Routes.body spec_float)
  (sensorData : list (string * val spec_float))
  (saved : WaterQuality.doc spec_float)
  (readings1 : list (WaterQuality.doc spec_float))
  (events : list (Esp32Routes.event spec_float)) (q : val spec_float)
  (alerts : option (list (Esp32Routes.alert spec_float))) (n : Z) :
  WaterQuality.qualityScore saved = lit spec_float n ->
  0 <= n <= 100 ->
  Esp32Routes.after_save e d req sensorData saved readings1
  = (d', events, Esp32Routes.R200 q alerts) ->
  exists al : list (Esp32Routes.alert spec_float),
    Overall.checked req events q alerts n al saved.
Proof.
  intros Hq Hn H. apply after_save_accepted in H.
  destruct H as (device3 & al & _ & _ & Hal & Hq' & Ha & He).
  apply checkForAlerts_overall in Hal as (part & Hal).
  subst q. rewrite Hq in Hal.
  destruct (overall_alert_raised n part Hn) as [Hcrit Hwarn].
  cbv zeta in Hcrit, Hwarn. rewrite <- Hal in Hcrit, Hwarn.
  exists al. unfold Overall.checked. rewrite Hq.
  split; [reflexivity |]. split; [reflexivity |]. split; [exact Ha |].
  split; [exact Hcrit |]. split; [exact Hwarn |].
  intros Hne. rewrite He, Hq. right.
  destruct al; [now contradiction Hne |]. left. reflexivity.
Qed.




(* ================================================================== *)
(** ** The device status job *)

Section SweepLemmas.

Context (N : Type) {A : Arith N}.
Variable e : ESP32Device.env.

Lemma save_doc_offline (device : ESP32Device.doc N) :
  ESP32Device.status device = ESP32Device.online ->
  ESP32Device.save_doc e (Some device)
    (ESP32Device.set_status device ESP32Device.offline)
  = match ESP32Device.ESP32Device_save_error e
            (ESP32Device.deviceId device) with
    | Some err => Throw err
    | None => Normal (ESP32Device.set_status device ESP32Device.offline)
    end.
Proof.
  intros Hs. unfold ESP32Device.save_doc, ESP32Device.pre_save,
    ESP32Device.isModified_status.
  cbn. rewrite Hs. reflexivity.
Qed.

Lemma silent_online (device : ESP32Device.doc N) :
  Sweep.silent e device = true ->
  ESP32Device.status device = ESP32Device.online.
Proof.
  unfold Sweep.silent. intros H. apply andb_prop in H as [H _].
  destruct (ESP32Device.status device); try discriminate; reflexivity.
Qed.

(** One turn of the loop. *)
Lemma for_devices_cons (device : ESP32Device.doc N)
  (rest : list (ESP32Device.doc N)) :
  CronService.for_devices e (device :: rest)
  = if Sweep.silent e device then
      match ESP32Device.ESP32Device_save_error e
              (ESP32Device.deviceId device) with
      | Some err => (device :: rest, [], Some err)
      | None =>
          let '(rest', log, thrown) := CronService.for_devices e rest in
          (Sweep.swept e device :: rest',
           Sweep.marked e device ++ log, thrown)
      end
    else
      let '(rest', log, thrown) := CronService.for_devices e rest in
      (device :: rest', log, thrown).
Proof.
  cbn [CronService.for_devices]. unfold Sweep.swept, Sweep.marked.
  fold (Sweep.silent e device).
  destruct (Sweep.silent e device) eqn:Hsilent; [| reflexivity].
  rewrite (save_doc_offline _ (silent_online _ Hsilent)).
  destruct (ESP32Device.ESP32Device_save_error e _); [reflexivity |].
  destruct (CronService.for_devices e rest) as [[rest' log] thrown].
  reflexivity.
Qed.

(** When no save is refused, the loop treats every device. *)
Lemma for_devices_all_saved (devices : list (ESP32Device.doc N)) :
  Sweep.all_saved e devices ->
  CronService.for_devices e devices
  = (map (Sweep.swept e) devices, flat_map (Sweep.marked e) devices, None).
Proof.
  induction devices as [| device rest IH]; intros Hall; [reflexivity |].
  rewrite for_devices_cons, IH.
  - rewrite (Hall device) by (now left).
    unfold Sweep.swept, Sweep.marked. cbn [map flat_map].
    destruct (Sweep.silent e device); reflexivity.
  - intros d Hd. apply Hall. now right.
Qed.

(** A refused save ends the loop where it is. *)
Lemma for_devices_refused (before : list (ESP32Device.doc N))
  (device : ESP32Device.doc N) (after : list (ESP32Device.doc N))
  (err : exn) :
  Sweep.all_saved e before ->
  Sweep.silent e device = true ->
  ESP32Device.ESP32Device_save_error e (ESP32Device.deviceId device)
  = Some err ->
  CronService.for_devices e (before ++ device :: after)
  = (map (Sweep.swept e) before ++ device :: after,
     flat_map (Sweep.marked e) before, Some err).
Proof.
  intros Hall Hsilent Herr.
  induction before as [| d before IH]; cbn [app map flat_map].
  - now rewrite for_devices_cons, Hsilent, Herr.
  - rewrite for_devices_cons, IH.
    + rewrite (Hall d) by (now left).
      unfold Sweep.swept, Sweep.marked.
      destruct (Sweep.silent e d); reflexivity.
    + intros d0 Hd0. apply Hall. now right.
Qed.

(** Whatever the store does, a device that is not [online] is left as
    it is, and no device is added or dropped. *)
Lemma for_devices_untouched (devices : list (ESP32Device.doc N)) :
  Forall2 (fun device device' =>
             ESP32Device.status device <> ESP32Device.online ->
             device' = device)
          devices (fst (fst (CronService.for_devices e devices))).
Proof.
  induction devices as [| device rest IH]; [constructor |].
  rewrite for_devices_cons.
  destruct (Sweep.silent e device) eqn:Hsilent.
  - apply silent_online in Hsilent.
    destruct (ESP32Device.ESP32Device_save_error e _).
    + cbn [fst]. constructor; [congruence |].
      clear. induction rest; constructor; auto.
    + destruct (CronService.for_devices e rest) as [[rest' log] thrown].
      cbn [fst] in *. constructor; [congruence | assumption].
  - destruct (CronService.for_devices e rest) as [[rest' log] thrown].
    cbn [fst] in *. constructor; auto.
Qed.

End SweepLemmas.

(** C9, as amended. In a run of the status job in which no save is
    refused, every device that is [online] and was last seen more than ten
    minutes ago is stored as [offline], nothing else of it changing; and
    in every run, refused saves or not, a device that is [offline], in
    [maintenance] or in [error] is left exactly as it was, whatever its
    [lastSeen]. *)
Theorem sweep_marks_silent_devices_offline (N : Type)
  (e : ESP32Device.env) (devices : list (ESP32Device.doc N)) :
  let devices' := fst (CronService.device_status_check e devices) in
  Forall2 (fun device device' =>
             ESP32Device.status device <> ESP32Device.online ->
             device' = device)
          devices devices'
  /\ (Sweep.all_saved e devices ->
      Forall2 (fun device device' =>
                 ESP32Device.status device = ESP32Device.online ->
                 ESP32Device.now e - ESP32Device.lastSeen device
                 > 10 * 60 * 1000 ->
                 ESP32Device.status device' = ESP32Device.offline
                 /\ ESP32Device.deviceId device'
                    = ESP32Device.deviceId device
                 /\ ESP32Device.lastSeen device'
                    = ESP32Device.lastSeen device
                 /\ device'
                    = ESP32Device.set_status device ESP32Device.offline)
              devices devices').
Proof.
  unfold CronService.device_status_check. split.
  - pose proof (for_devices_untouched N e devices) as H.
    destruct (CronService.for_devices e devices) as [[devices' log] thrown].
    exact H.
  - intros Hall. rewrite (for_devices_all_saved N e devices Hall). cbn [fst].
    clear Hall. induction devices as [| device rest IH]; constructor; auto.
    intros Hs Hlate. unfold Sweep.swept, Sweep.silent. rewrite Hs.
    cbn [ESP32Device.status_eqb andb].
    apply Z.gt_lt, Z.gtb_lt in Hlate.
    unfold CronService.timeout. rewrite Hlate. repeat split.
Qed.

(** Against the specification: a device that is [online] and was last
    seen eleven minutes ago stays [online] in a run in which its save is
    refused. *)
Lemma silent_device_stays_online :
  Sweep.silent Samples.first_device_down
    (Samples.silent "esp32-001" ESP32Device.online) = true
  /\ exists device' log,
       CronService.device_status_check Samples.first_device_down
         [Samples.silent "esp32-001" ESP32Device.online]
       = ([device'], log)
       /\ ESP32Device.status device' = ESP32Device.online
       /\ ESP32Device.status device' <> ESP32Device.offline.
Proof.
  split; [reflexivity |].
  do 2 eexists. split; [vm_compute; reflexivity |].
  split; [reflexivity | discriminate].
Qed.

Lemma sweep_marks_silent_devices_offline_witness :
  Forall2 (fun device device' =>
             ESP32Device.status device = ESP32Device.online ->
             ESP32Device.now Samples.healthy - ESP32Device.lastSeen device
             > 10 * 60 * 1000 ->
             ESP32Device.status device' = ESP32Device.offline
             /\ ESP32Device.deviceId device' = ESP32Device.deviceId device
             /\ ESP32Device.lastSeen device' = ESP32Device.lastSeen device
             /\ device'
                = ESP32Device.set_status device ESP32Device.offline)
          [Samples.silent "esp32-001" ESP32Device.online;
           Samples.silent "esp32-002" ESP32Device.maintenance]
          (fst (CronService.device_status_check Samples.healthy
                  [Samples.silent "esp32-001" ESP32Device.online;
                   Samples.silent "esp32-002" ESP32Device.maintenance])).
Proof.
  apply (sweep_marks_silent_devices_offline spec_float Samples.healthy).
  intros device _. reflexivity.
Defined.

(** C6, as amended. A save that is refused during a run of the status job
    is logged and ends the run: the devices before the failing one have
    been treated, the failing one and all those after it are left as they
    were, and the error is the last line of the log. *)
Theorem refused_save_ends_the_sweep (N : Type) (e : ESP32Device.env)
  (before : list (ESP32Device.doc N)) (device : ESP32Device.doc N)
  (after : list (ESP32Device.doc N)) (err : exn) :
  Sweep.all_saved e before ->
  Sweep.silent e device = true ->
  ESP32Device.ESP32Device_save_error e (ESP32Device.deviceId device)
  = Some err ->
  CronService.device_status_check e (before ++ device :: after)
  = (map (Sweep.swept e) before ++ device :: after,
     CronService.info_running
     :: flat_map (Sweep.marked e) before
     ++ [CronService.error_status_check err]).
Proof.
  intros Hall Hsilent Herr. unfold CronService.device_status_check.
  now rewrite (for_devices_refused N e before device after err).
Qed.

(** Against the specification: the save of the first device is refused,
    and the second one, silent for eleven minutes and whose save would go
    through, stays [online]. *)
Lemma sweep_stops_at_first_failure :
  exists first second log,
    CronService.device_status_check Samples.first_device_down
      [Samples.silent "esp32-001" ESP32Device.online;
       Samples.silent "esp32-002" ESP32Device.online]
    = ([first; second], log)
    /\ ESP32Device.ESP32Device_save_error Samples.first_device_down
         "esp32-002" = None
    /\ Sweep.silent Samples.first_device_down
         (Samples.silent "esp32-002" ESP32Device.online) = true
    /\ ESP32Device.status second = ESP32Device.online
    /\ second = Samples.silent "esp32-002" ESP32Device.online.
Proof.
  do 3 eexists. split; [vm_compute; reflexivity |].
  repeat split; reflexivity.
Qed.

Lemma refused_save_ends_the_sweep_witness :
  CronService.device_status_check Samples.first_device_down
    ([] ++ Samples.silent "esp32-001" ESP32Device.online
        :: [Samples.silent "esp32-002" ESP32Device.online])
  = ([Samples.silent "esp32-001" ESP32Device.online;
      Samples.silent "esp32-002" ESP32Device.online],
     [CronService.info_running;
      CronService.error_status_check (StorageError "write failed")]).
Proof.
  apply (refused_save_ends_the_sweep spec_float Samples.first_device_down
           [] (Samples.silent "esp32-001" ESP32Device.online)
           [Samples.silent "esp32-002" ESP32Device.online]
           (StorageError "write failed")).
  - intros device [].
  - reflexivity.
  - reflexivity.
Defined.

(* ================================================================== *)
(** ** The overall rating of a review *)

(** Whatever Number a review holds under [overallRating], the review
    loop reads no rating there: [reviewData.overallRating.rating] is
    [undefined] on a Number. *)
Lemma overall_rating_is_not_read (N : Type) {A : Arith N}
  (this : WaterQuality.doc N) (props : list (string * val N)) (n : N) :
  WaterQuality.reviewData this = VObj props ->
  lookup props "overallRating" = VNum n ->
  Spec.rating_of this "overallRating" = None.
Proof.
  intros Hrd Hn. unfold Spec.rating_of. rewrite Hrd. cbn [Spec.prop].
  rewrite Hn. cbn [Spec.prop truthy]. now rewrite andb_false_r.
Qed.

(** C1 (the code departs from the rule). A review with five stars
    overall and no other rating is scored 50 by [calculateQualityScore],
    where the rule (overall rating weighted 0.40, each rating worth
    [rating / 5 * 100]) gives 100; with one star for the taste added the
    code returns 20, the taste alone, where the rule gives 73. *)
Theorem overall_rating_never_counts :
  WaterQuality.calculateQualityScore
    (Samples.review_document Samples.five_stars_overall)
  = Normal (Binary64.of_Z 50)
  /\ Spec.score_of (Spec.review_contributions [Some 5%Q; None; None; None])
     = 100
  /\ WaterQuality.calculateQualityScore
       (Samples.review_document Samples.five_overall_one_taste)
     = Normal (Binary64.of_Z 20)
  /\ Spec.score_of
       (Spec.review_contributions [Some 5%Q; Some 1%Q; None; None])
     = 73.
Proof.
  split; [vm_compute; reflexivity |].
  split; [vm_compute; reflexivity |].
  split; vm_compute; reflexivity.
Qed.

(* ================================================================== *)
(** ** The theorems at work *)

Lemma sensor_score_is_weighted_average_witness :
  WaterQuality.calculateQualityScore Samples.turbid_reading
  = Normal (Binary64.of_Z 52).
Proof.
  exact (proj1 (sensor_score_is_weighted_average Samples.turbid_reading
                  eq_refl)).
Defined.

Lemma at_most_one_alert_per_parameter_witness :
  exists alerts : list (Esp32Routes.alert spec_float),
    Esp32Routes.checkForAlerts Samples.turbid_reading
      (Samples.silent "esp32-001" ESP32Device.online)
    = Normal (alerts ++ Esp32Routes.overall_alerts (Samples.stars 52))
    /\ (List.length (Rules.alerts_for alerts "turbidity") <= 1)%nat.
Proof.
  destruct (at_most_one_alert_per_parameter spec_float
              Samples.turbid_reading
              (Samples.silent "esp32-001" ESP32Device.online)
              _ _ eq_refl eq_refl)
    as (alerts & _ & Hcheck & Hkeys).
  exists alerts. split; [exact Hcheck |].
  exact (proj1 (Hkeys "turbidity")).
Defined.

Lemma calculateQualityScore_total_in_range_witness :
  exists n : Z,
    Spec.scored (Samples.review_document Samples.taste_three_and_a_half) n.
Proof.
  apply (proj2 (proj2 (proj2
    (calculateQualityScore_total_in_range
       (Samples.review_document Samples.taste_three_and_a_half))))).
  intros _. unfold Spec.ratings_1_5.
  assert (E : Spec.rating_row
                (Samples.review_document Samples.taste_three_and_a_half)
              = [None; Some (Binary64.decimal 35 10); None; None])
    by (vm_compute; reflexivity).
  rewrite E.
  constructor; [left; reflexivity |].
  constructor.
  { right. exists (Binary64.decimal 35 10). split; [| reflexivity].
    split; [vm_compute; reflexivity |].
    split; vm_compute; reflexivity. }
  constructor; [left; reflexivity |].
  constructor; [left; reflexivity |].
  constructor.
Defined.

(* ================================================================== *)
(** ** The scenarios of the specification *)

(** [updateStatus] stores the status it is given, whatever the current
    one; [online] also refreshes [lastSeen]. *)
Lemma updateStatus_stores (N : Type) {A : Arith N} (e : ESP32Device.env)
  (loaded : option (ESP32Device.doc N))
  (collection collection' : list (ESP32Device.doc N))
  (this saved : ESP32Device.doc N) (s : ESP32Device.status_t) :
  ESP32Device.updateStatus e loaded collection this s
  = Normal (saved, collection') ->
  ESP32Device.status saved = s
  /\ (s = ESP32Device.online ->
      ESP32Device.lastSeen saved = ESP32Device.now e).
Proof.
  unfold ESP32Device.updateStatus, ESP32Device.save.
  destruct (ESP32Device.save_doc e loaded _) as [saved' | err] eqn:Hsave;
    [| discriminate].
  cbn [bind]. intros [= <- <-].
  apply save_doc_fields in Hsave as (_ & Hst & Hseen & _).
  destruct s; cbn in Hst, Hseen; split; auto; try discriminate.
  intros _. tauto.
Qed.

(** The status breakpoints: 80, 60, 40 and 20. *)
Example status_breakpoints :
  map (fun n => WaterQuality.determineStatus
                  (WaterQuality.set_qualityScore Samples.turbid_reading
                     (Samples.stars n)))
      [0; 19; 20; 39; 40; 59; 60; 79; 80; 100]
  = [WaterQuality.critical; WaterQuality.critical; WaterQuality.poor;
     WaterQuality.poor; WaterQuality.fair; WaterQuality.fair;
     WaterQuality.good; WaterQuality.good; WaterQuality.excellent;
     WaterQuality.excellent].
Proof. vm_compute. reflexivity. Qed.

(** Scenario A: with every parameter in its ideal band the hook gives the
    score 100 and the status [excellent], and the check raises no
    alert. *)
Example scenario_ideal_reading :
  WaterQuality.pre_save (fun path => (path =? "sensorData")%string)
    (Esp32Routes.new_reading Samples.healthy Samples.clean_water
       (Samples.kept Samples.clean_water))
  = Normal (Samples.reading Samples.clean_water 100 WaterQuality.excellent)
  /\ Esp32Routes.checkForAlerts
       (Samples.reading Samples.clean_water 100 WaterQuality.excellent)
       (Samples.silent "esp32-001" ESP32Device.online)
     = Normal [].
Proof. split; vm_compute; reflexivity. Qed.

(** Scenario B, on a parameter without threshold: a single sub-score of
    30 gives the score 30, the status [poor] and the critical [overall]
    alert. *)
Example scenario_low_score :
  WaterQuality.pre_save (fun path => (path =? "sensorData")%string)
    (Esp32Routes.new_reading Samples.healthy Samples.airless_water
       (Samples.kept Samples.airless_water))
  = Normal (Samples.reading Samples.airless_water 30 WaterQuality.poor)
  /\ Esp32Routes.checkForAlerts
       (Samples.reading Samples.airless_water 30 WaterQuality.poor)
       (Samples.silent "esp32-001" ESP32Device.online)
     = Normal [Rules.overall Esp32Routes.critical
                 Esp32Routes.quality_critically_poor (Samples.stars 30) 40].
Proof. split; vm_compute; reflexivity. Qed.

(** Scenario D: a device silent for eleven minutes goes [offline] at the
    next run of the job, and [updateStatus] brings it back [online]. *)
Example scenario_offline_then_online :
  map (@ESP32Device.status spec_float)
      (fst (CronService.device_status_check Samples.healthy
              [Samples.silent "esp32-001" ESP32Device.online]))
  = [ESP32Device.offline]
  /\ ESP32Device.updateStatus Samples.healthy
       (Some (ESP32Device.set_status
                (Samples.silent "esp32-001" ESP32Device.online)
                ESP32Device.offline))
       (fst (CronService.device_status_check Samples.healthy
               [Samples.silent "esp32-001" ESP32Device.online]))
       (ESP32Device.set_status
          (Samples.silent "esp32-001" ESP32Device.online)
          ESP32Device.offline)
       ESP32Device.online
     = Normal (ESP32Device.create spec_float Samples.at_noon "esp32-001"
                 ESP32Device.online,
               [ESP32Device.create spec_float Samples.at_noon "esp32-001"
                  ESP32Device.online]).
Proof. split; vm_compute; reflexivity. Qed.

(* ================================================================== *)
(** ** The status of a sensor value and the alert it raises *)

(** X1. The status [POST /data] stores with a sensor value and the alert
    [checkForAlerts] raises for it agree: [normal] goes with no alert,
    [low] and [high] with one warning (below and above normal), and
    [critical] with one critical alert. *)
Theorem sensor_status_matches_alert (N : Type) {A : Arith N}
  (waterQualityData : WaterQuality.doc N) (device : ESP32Device.doc N)
  (sensorKey : string) (reading value thresholds : val N) :
  get (WaterQuality.sensorData waterQualityData) sensorKey = Normal reading ->
  truthy reading = true ->
  get reading "value" = Normal value ->
  get (ESP32Device.thresholds device) sensorKey = Normal thresholds ->
  exists status alerts,
    Esp32Helpers.determineSensorStatus sensorKey value thresholds
    = Normal status
    /\ Esp32Routes.check_sensor waterQualityData device [] sensorKey
       = Normal alerts
    /\ match status with
       | Esp32Helpers.normal => alerts = []
       | Esp32Helpers.low =>
           exists a, alerts = [a]
                     /\ Esp32Routes.type a = Esp32Routes.warning
                     /\ Esp32Routes.text a = Esp32Routes.is_below_normal
       | Esp32Helpers.high =>
           exists a, alerts = [a]
                     /\ Esp32Routes.type a = Esp32Routes.warning
                     /\ Esp32Routes.text a = Esp32Routes.is_above_normal
       | Esp32Helpers.critical =>
           exists a, alerts = [a]
                     /\ Esp32Routes.type a = Esp32Routes.critical
       end.
Proof.
  intros Hr Ht Hv Hth.
  unfold Esp32Helpers.determineSensorStatus, Esp32Routes.check_sensor.
  rewrite Hr, Hth. cbn [bind]. rewrite Ht. cbn [andb].
  destruct (truthy thresholds) eqn:Htt; cbn [negb].
  - rewrite Hv, !(get_prop _ _ Htt). cbn [bind app].
    repeat match goal with
           | |- context [if ?c then _ else _] => destruct c
           end;
      do 2 eexists; (split; [reflexivity |]); (split; [reflexivity |]);
      try reflexivity; eexists; repeat split.
  - do 2 eexists. repeat split.
Qed.

Lemma sensor_status_matches_alert_witness :
  exists status alerts,
    Esp32Helpers.determineSensorStatus "turbidity" (Samples.number 25 1)
      (VObj [("max", lit spec_float 5); ("criticalMax", lit spec_float 20)])
    = Normal status
    /\ Esp32Routes.check_sensor Samples.turbid_reading
         (Samples.silent "esp32-001" ESP32Device.online) [] "turbidity"
       = Normal alerts
    /\ match status with
       | Esp32Helpers.normal => alerts = []
       | Esp32Helpers.low =>
           exists a, alerts = [a]
                     /\ Esp32Routes.type a = Esp32Routes.warning
                     /\ Esp32Routes.text a = Esp32Routes.is_below_normal
       | Esp32Helpers.high =>
           exists a, alerts = [a]
                     /\ Esp32Routes.type a = Esp32Routes.warning
                     /\ Esp32Routes.text a = Esp32Routes.is_above_normal
       | Esp32Helpers.critical =>
           exists a, alerts = [a]
                     /\ Esp32Routes.type a = Esp32Routes.critical
       end.
Proof.
  apply (sensor_status_matches_alert spec_float Samples.turbid_reading
           (Samples.silent "esp32-001" ESP32Device.online) "turbidity"
           (Samples.measured (Samples.number 25 1)) (Samples.number 25 1));
    reflexivity.
Defined.
(* ================================================================== *)
(** ** The bands of a score: status, overall alert, statistics *)

Lemma bands_table : forallb Bands.check_bands Table.scores = true.
Proof. vm_compute. reflexivity. Qed.

Lemma bands (n k : Z) :
  0 <= n <= 100 ->
  In k [20; 40; 60; 80] ->
  ge (lit spec_float n) (lit spec_float k) = (k <=? n)
  /\ lt (lit spec_float n) (lit spec_float k) = (n <? k).
Proof.
  intros Hn Hk. pose proof bands_table as Ht.
  rewrite forallb_forall in Ht.
  assert (Hin : In n Table.scores).
  { unfold Table.scores. apply in_map_iff. exists (Z.to_nat n).
    split; [lia |]. apply in_seq. lia. }
  specialize (Ht _ Hin). unfold Bands.check_bands in Ht.
  rewrite forallb_forall in Ht. specialize (Ht _ Hk).
  apply andb_prop in Ht as [Hle Hlt].
  apply Bool.eqb_prop in Hle. apply Bool.eqb_prop in Hlt. auto.
Qed.

Lemma determineStatus_band (item : WaterQuality.doc spec_float) (n : Z) :
  0 <= n <= 100 ->
  WaterQuality.qualityScore item = lit spec_float n ->
  WaterQuality.determineStatus item = Bands.band n.
Proof.
  intros Hn Hq. unfold WaterQuality.determineStatus, Bands.band.
  rewrite Hq.
  destruct (bands n 80 Hn) as [-> _]; [simpl; tauto |].
  destruct (bands n 60 Hn) as [-> _]; [simpl; tauto |].
  destruct (bands n 40 Hn) as [-> _]; [simpl; tauto |].
  destruct (bands n 20 Hn) as [-> _]; [simpl; tauto |].
  reflexivity.
Qed.

(** X2. A better score never has a worse status: on whole scores between
    0 and 100, [determineStatus] is monotone, from [critical] up to
    [excellent]. *)
Theorem status_is_monotone (a b : WaterQuality.doc spec_float) (n m : Z) :
  WaterQuality.qualityScore a = lit spec_float n ->
  WaterQuality.qualityScore b = lit spec_float m ->
  0 <= n <= m ->
  m <= 100 ->
  Bands.rank (WaterQuality.determineStatus a)
  <= Bands.rank (WaterQuality.determineStatus b).
Proof.
  intros Ha Hb Hnm Hm.
  rewrite (determineStatus_band a n) by (lia || assumption).
  rewrite (determineStatus_band b m) by (lia || assumption).
  unfold Bands.band.
  destruct (Z.leb_spec 80 n); destruct (Z.leb_spec 60 n);
    destruct (Z.leb_spec 40 n); destruct (Z.leb_spec 20 n);
    destruct (Z.leb_spec 80 m); destruct (Z.leb_spec 60 m);
    destruct (Z.leb_spec 40 m); destruct (Z.leb_spec 20 m);
    cbn [Bands.rank]; lia.
Qed.

Lemma status_is_monotone_witness :
  Bands.rank (WaterQuality.determineStatus Samples.turbid_reading)
  <= Bands.rank
       (WaterQuality.determineStatus
          (WaterQuality.set_qualityScore Samples.turbid_reading
             (Samples.stars 80))).
Proof.
  apply (status_is_monotone Samples.turbid_reading
           (WaterQuality.set_qualityScore Samples.turbid_reading
              (Samples.stars 80)) 52 80);
    try reflexivity; lia.
Defined.

(** X3. The status the pre-save hook stores with a sensor reading and the
    check of the overall score agree: [excellent] and [good] go with no
    [overall] alert, [fair] with the warning, [poor] and [critical] with
    the critical alert; and whatever the thresholds of the device, the
    alerts of [checkForAlerts] end with those of that check. *)
Theorem overall_alert_follows_status
  (this this' : WaterQuality.doc spec_float) :
  WaterQuality.source this = "esp32" ->
  WaterQuality.pre_save (fun path => (path =? "sensorData")%string) this
  = Normal this' ->
  exists status,
    WaterQuality.assessment_status this' = Some status
    /\ Esp32Routes.overall_alerts (WaterQuality.qualityScore this')
       = match status with
         | WaterQuality.excellent | WaterQuality.good => []
         | WaterQuality.fair =>
             [Rules.overall Esp32Routes.warning
                Esp32Routes.quality_below_normal
                (WaterQuality.qualityScore this') 60]
         | WaterQuality.poor | WaterQuality.critical =>
             [Rules.overall Esp32Routes.critical
                Esp32Routes.quality_critically_poor
                (WaterQuality.qualityScore this') 40]
         end
    /\ forall (device : ESP32Device.doc spec_float)
              (al : list (Esp32Routes.alert spec_float)),
         Esp32Routes.checkForAlerts this' device = Normal al ->
         exists part,
           al = part
                ++ Esp32Routes.overall_alerts
                     (WaterQuality.qualityScore this').
Proof.
  intros Hsrc. unfold WaterQuality.pre_save.
  cbn [String.eqb Ascii.eqb Bool.eqb orb].
  destruct (sensor_score_whole this Hsrc) as (n & Hn & ->). cbn [bind].
  intros [= <-].
  cbn [WaterQuality.assessment_status WaterQuality.qualityScore
       WaterQuality.set_assessment_status WaterQuality.set_qualityScore].
  exists (Bands.band n). split; [| split].
  - f_equal. now apply determineStatus_band with (n := n).
  - change (VNum (Binary64.of_Z n)) with (lit spec_float n).
    unfold Esp32Routes.overall_alerts, Bands.band.
    destruct (bands n 40 Hn) as [_ ->]; [simpl; tauto |].
    destruct (bands n 60 Hn) as [_ ->]; [simpl; tauto |].
    destruct (Z.ltb_spec n 40); destruct (Z.ltb_spec n 60);
      destruct (Z.leb_spec 80 n); destruct (Z.leb_spec 60 n);
      destruct (Z.leb_spec 40 n); destruct (Z.leb_spec 20 n);
      try lia; reflexivity.
  - intros device al Hal.
    apply checkForAlerts_overall in Hal as (part & ->).
    now exists part.
Qed.

Lemma overall_alert_follows_status_witness :
  exists status,
    WaterQuality.assessment_status
      (Samples.reading Samples.airless_water 30 WaterQuality.poor)
    = Some status
    /\ Esp32Routes.overall_alerts
         (WaterQuality.qualityScore
            (Samples.reading Samples.airless_water 30 WaterQuality.poor))
       = match status with
         | WaterQuality.excellent | WaterQuality.good => []
         | WaterQuality.fair =>
             [Rules.overall Esp32Routes.warning
                Esp32Routes.quality_below_normal
                (WaterQuality.qualityScore
                   (Samples.reading Samples.airless_water 30
                      WaterQuality.poor)) 60]
         | WaterQuality.poor | WaterQuality.critical =>
             [Rules.overall Esp32Routes.critical
                Esp32Routes.quality_critically_poor
                (WaterQuality.qualityScore
                   (Samples.reading Samples.airless_water 30
                      WaterQuality.poor)) 40]
         end
    /\ forall (device : ESP32Device.doc spec_float)
              (al : list (Esp32Routes.alert spec_float)),
         Esp32Routes.checkForAlerts
           (Samples.reading Samples.airless_water 30 WaterQuality.poor)
           device = Normal al ->
         exists part,
           al = part
                ++ Esp32Routes.overall_alerts
                     (WaterQuality.qualityScore
                        (Samples.reading Samples.airless_water 30
                           WaterQuality.poor)).
Proof.
  apply (overall_alert_follows_status
           (Esp32Routes.new_reading Samples.healthy Samples.airless_water
              (Samples.kept Samples.airless_water))).
  - reflexivity.
  - vm_compute. reflexivity.
Defined.

Section Partition.

Variable T : Type.
Variable status_of : T -> WaterQuality.status.

Let in_band (s : WaterQuality.status) (l : list T) : Z :=
  Z.of_nat (List.length
              (filter (fun x => Bands.status_eqb (status_of x) s) l)).

Lemma bands_partition (l : list T) :
  in_band WaterQuality.excellent l + in_band WaterQuality.good l
  + in_band WaterQuality.fair l + in_band WaterQuality.poor l
  + in_band WaterQuality.critical l
  = Z.of_nat (List.length l).
Proof.
  unfold in_band. induction l as [| x l IH]; [reflexivity |].
  cbn [filter]. destruct (status_of x); cbn [Bands.status_eqb List.length];
    lia.
Qed.

End Partition.

Lemma count_ext (N : Type) (f g : WaterQuality.doc N -> bool)
  (data : list (WaterQuality.doc N)) :
  (forall item, In item data -> f item = g item) ->
  LocationStats.count f data = LocationStats.count g data.
Proof.
  intros H. unfold LocationStats.count. f_equal. f_equal.
  now apply filter_ext_in.
Qed.

Lemma band_tests (item : WaterQuality.doc spec_float) :
  Bands.whole_score item ->
  let score := WaterQuality.qualityScore item in
  let has s := Bands.status_eqb (WaterQuality.determineStatus item) s in
  ge score (lit spec_float 80) = has WaterQuality.excellent
  /\ ge score (lit spec_float 60) && lt score (lit spec_float 80)
     = has WaterQuality.good
  /\ ge score (lit spec_float 40) && lt score (lit spec_float 60)
     = has WaterQuality.fair
  /\ ge score (lit spec_float 20) && lt score (lit spec_float 40)
     = has WaterQuality.poor
  /\ lt score (lit spec_float 20) = has WaterQuality.critical.
Proof.
  intros (n & Hn & Hq) score has. subst score has.
  rewrite (determineStatus_band item n Hn Hq), Hq.
  destruct (bands n 80 Hn) as [-> ->]; [simpl; tauto |].
  destruct (bands n 60 Hn) as [-> ->]; [simpl; tauto |].
  destruct (bands n 40 Hn) as [-> ->]; [simpl; tauto |].
  destruct (bands n 20 Hn) as [-> ->]; [simpl; tauto |].
  unfold Bands.band.
  destruct (Z.leb_spec 80 n); destruct (Z.leb_spec 60 n);
    destruct (Z.leb_spec 40 n); destruct (Z.leb_spec 20 n);
    destruct (Z.ltb_spec n 80); destruct (Z.ltb_spec n 60);
    destruct (Z.ltb_spec n 40); destruct (Z.ltb_spec n 20);
    try lia; repeat split.
Qed.

(** X4. On readings with whole scores between 0 and 100,
    [calculateLocationStats] counts in each band of its distribution the
    readings whose status ([determineStatus]) is that band, and the five
    counts add up to the number of readings. *)
Theorem distribution_follows_status
  (data : list (WaterQuality.doc spec_float)) :
  (forall item, In item data -> Bands.whole_score item) ->
  let s := LocationStats.calculateLocationStats data in
  let dist := LocationStats.qualityDistribution s in
  LocationStats.totalReadings s = Z.of_nat (List.length data)
  /\ (forall status : WaterQuality.status,
        Bands.bucket dist status
        = LocationStats.count
            (fun item =>
               Bands.status_eqb (WaterQuality.determineStatus item) status)
            data)
  /\ LocationStats.excellent dist + LocationStats.good dist
     + LocationStats.fair dist + LocationStats.poor dist
     + LocationStats.critical dist
     = Z.of_nat (List.length data).
Proof.
  intros Hwhole s dist.
  assert (Hb : forall status : WaterQuality.status,
             Bands.bucket dist status
             = LocationStats.count
                 (fun item =>
                    Bands.status_eqb (WaterQuality.determineStatus item)
                      status) data).
  { subst s dist. unfold LocationStats.calculateLocationStats.
    destruct data as [| item0 rest]; [intros []; reflexivity |].
    cbn [List.length]. rewrite Nat2Z.inj_succ.
    destruct (Z.eqb_spec (Z.succ (Z.of_nat (List.length rest))) 0) as [E |_];
      [lia |].
    cbn [LocationStats.qualityDistribution].
    intros []; cbn [Bands.bucket LocationStats.excellent LocationStats.good
                    LocationStats.fair LocationStats.poor
                    LocationStats.critical];
      apply count_ext; intros item Hin;
      pose proof (band_tests item (Hwhole item Hin))
        as (H1 & H2 & H3 & H4 & H5);
      cbv zeta in H1, H2, H3, H4, H5; assumption. }
  split; [| split; [exact Hb |]].
  - subst s. unfold LocationStats.calculateLocationStats.
    destruct (Z.eqb_spec (Z.of_nat (List.length data)) 0) as [E | _];
      [symmetry; exact E | reflexivity].
  - pose proof (Hb WaterQuality.excellent) as H1.
    pose proof (Hb WaterQuality.good) as H2.
    pose proof (Hb WaterQuality.fair) as H3.
    pose proof (Hb WaterQuality.poor) as H4.
    pose proof (Hb WaterQuality.critical) as H5.
    cbn [Bands.bucket] in H1, H2, H3, H4, H5.
    rewrite H1, H2, H3, H4, H5. unfold LocationStats.count.
    apply (bands_partition _ (@WaterQuality.determineStatus spec_float _)).
Qed.

Lemma distribution_follows_status_witness :
  LocationStats.excellent
    (LocationStats.qualityDistribution
       (LocationStats.calculateLocationStats [Samples.turbid_reading]))
  + LocationStats.good
      (LocationStats.qualityDistribution
         (LocationStats.calculateLocationStats [Samples.turbid_reading]))
  + LocationStats.fair
      (LocationStats.qualityDistribution
         (LocationStats.calculateLocationStats [Samples.turbid_reading]))
  + LocationStats.poor
      (LocationStats.qualityDistribution
         (LocationStats.calculateLocationStats [Samples.turbid_reading]))
  + LocationStats.critical
      (LocationStats.qualityDistribution
         (LocationStats.calculateLocationStats [Samples.turbid_reading]))
  = Z.of_nat (List.length [Samples.turbid_reading]).
Proof.
  apply (distribution_follows_status [Samples.turbid_reading]).
  intros item [<- | []]. exists 52. split; [lia | reflexivity].
Defined.

(** X5. The trend of [calculateLocationStats] is read off the twenty
    most recent readings: older readings never change it. *)
Theorem trend_reads_the_twenty_latest (N : Type) {A : Arith N}
  (data older : list (WaterQuality.doc N)) :
  (20 <= List.length data)%nat ->
  LocationStats.recentTrend
    (LocationStats.calculateLocationStats (data ++ older))
  = LocationStats.recentTrend (LocationStats.calculateLocationStats data).
Proof.
  intros Hlen. unfold LocationStats.calculateLocationStats.
  rewrite length_app.
  destruct (Z.eqb_spec (Z.of_nat (List.length data + List.length older)) 0);
    [lia |].
  destruct (Z.eqb_spec (Z.of_nat (List.length data)) 0); [lia |].
  cbn [LocationStats.recentTrend].
  destruct (Z.leb_spec 20
              (Z.of_nat (List.length data + List.length older))); [| lia].
  destruct (Z.leb_spec 20 (Z.of_nat (List.length data))); [| lia].
  unfold LocationStats.slice.
  change (skipn 0 (data ++ older)) with (data ++ older).
  change (skipn 0 data) with data.
  change (10 - 0)%nat with 10%nat. change (20 - 10)%nat with 10%nat.
  rewrite skipn_app, !firstn_app, length_skipn.
  replace (10 - List.length data)%nat with 0%nat by lia.
  replace (10 - (List.length data - 10))%nat with 0%nat by lia.
  rewrite !firstn_O, !app_nil_r. reflexivity.
Qed.

Lemma trend_reads_the_twenty_latest_witness :
  LocationStats.recentTrend
    (LocationStats.calculateLocationStats
       (repeat Samples.turbid_reading 20 ++ [Samples.turbid_reading]))
  = LocationStats.recentTrend
      (LocationStats.calculateLocationStats
         (repeat Samples.turbid_reading 20)).
Proof.
  apply (trend_reads_the_twenty_latest spec_float
           (repeat Samples.turbid_reading 20) [Samples.turbid_reading]).
  vm_compute. lia.
Defined.
(* ================================================================== *)
(** ** Status, [lastSeen] and the counters of a stored device *)

Section DeviceLemmas.

Context (N : Type) {A : Arith N}.
Variable e : ESP32Device.env.

Lemma findOne_write_other (collection : list (ESP32Device.doc N))
  (this : ESP32Device.doc N) (id : string) :
  id <> ESP32Device.deviceId this ->
  ESP32Device.findOne (ESP32Device.write collection this) id
  = ESP32Device.findOne collection id.
Proof.
  intros Hne. induction collection as [| d rest IH]; simpl.
  - destruct (String.eqb_spec (ESP32Device.deviceId this) id);
      [congruence | reflexivity].
  - destruct (String.eqb_spec (ESP32Device.deviceId d)
                (ESP32Device.deviceId this)) as [He | Hd]; simpl.
    + rewrite He.
      destruct (String.eqb_spec (ESP32Device.deviceId this) id);
        [congruence | reflexivity].
    + now rewrite IH.
Qed.

Lemma In_write (collection : list (ESP32Device.doc N))
  (this device : ESP32Device.doc N) :
  In device (ESP32Device.write collection this) ->
  device = this \/ In device collection.
Proof.
  induction collection as [| d rest IH]; simpl.
  - intros [<- | []]. now left.
  - destruct (ESP32Device.deviceId d =? ESP32Device.deviceId this)%string;
      simpl; intros [<- | H]; auto.
    destruct (IH H); auto.
Qed.

Lemma save_doc_health (loaded : option (ESP32Device.doc N))
  (this saved : ESP32Device.doc N) :
  ESP32Device.save_doc e loaded this = Normal saved ->
  ESP32Device.batteryLevel saved = ESP32Device.batteryLevel this
  /\ ESP32Device.signalStrength saved = ESP32Device.signalStrength this
  /\ ESP32Device.temperature saved = ESP32Device.temperature this
  /\ ESP32Device.errorCount saved = ESP32Device.errorCount this
  /\ ESP32Device.lastReadingTime saved = ESP32Device.lastReadingTime this.
Proof.
  unfold ESP32Device.save_doc, ESP32Device.pre_save.
  destruct (ESP32Device.ESP32Device_save_error e _); [discriminate |].
  intros [= <-].
  destruct (_ && _); cbn; tauto.
Qed.

Lemma findOne_In (collection : list (ESP32Device.doc N)) (id : string)
  (device : ESP32Device.doc N) :
  ESP32Device.findOne collection id = Some device -> In device collection.
Proof.
  induction collection as [| d0 rest IH]; simpl; [discriminate |].
  destruct (ESP32Device.deviceId d0 =? id)%string.
  - intros [= ->]. now left.
  - intros H. right. auto.
Qed.

Lemma isOnline_in_getOnlineDevices (collection : list (ESP32Device.doc N))
  (device : ESP32Device.doc N) :
  In device collection ->
  DeviceMethods.isOnline e device = true ->
  In device (DeviceMethods.getOnlineDevices e collection).
Proof.
  unfold DeviceMethods.getOnlineDevices, DeviceMethods.isOnline.
  intros Hin H. apply andb_prop in H as [Hs Ht].
  apply filter_In. split; [exact Hin |]. rewrite Hs. cbn [andb].
  apply Z.ltb_lt in Ht. apply Z.leb_le. lia.
Qed.

End DeviceLemmas.

(** X6. The documents [getOnlineDevices] returns are those for which
    [isOnline] holds, and those with status [online] last seen exactly
    five minutes ago: the query keeps the boundary the method excludes. *)
Theorem getOnlineDevices_and_isOnline (N : Type) (e : ESP32Device.env)
  (collection : list (ESP32Device.doc N)) (device : ESP32Device.doc N) :
  In device (DeviceMethods.getOnlineDevices e collection)
  <-> In device collection
      /\ (DeviceMethods.isOnline e device = true
          \/ ESP32Device.status device = ESP32Device.online
             /\ ESP32Device.now e - ESP32Device.lastSeen device
                = 5 * 60 * 1000).
Proof.
  unfold DeviceMethods.getOnlineDevices, DeviceMethods.isOnline,
    DeviceMethods.timeout.
  rewrite filter_In, andb_true_iff, Z.leb_le.
  rewrite andb_true_iff, Z.ltb_lt.
  assert (Hs : ESP32Device.status_eqb (ESP32Device.status device)
                 ESP32Device.online = true
               <-> ESP32Device.status device = ESP32Device.online).
  { destruct (ESP32Device.status device); simpl; split;
      intros; congruence. }
  rewrite Hs. split.
  - intros (Hin & Hon & Hle). split; [exact Hin |].
    destruct (Z.eq_dec (ESP32Device.now e - ESP32Device.lastSeen device)
                (5 * 60 * 1000)) as [Heq | Hne].
    + right. split; assumption.
    + left. split; [exact Hon | lia].
  - intros (Hin & [[Hon Hlt] | [Hon Heq]]); repeat split;
      try assumption; lia.
Qed.

(* ================================================================== *)
(** ** More on the status job *)

Section SweepMore.

Context (N : Type) {A : Arith N}.
Variable e : ESP32Device.env.

(** Whatever the store does, a run changes nothing but the status of
    devices it found silent. *)
Lemma for_devices_changes (devices : list (ESP32Device.doc N)) :
  Forall2 (fun device device' =>
             device' = device
             \/ Sweep.silent e device = true
                /\ device' = ESP32Device.set_status device
                               ESP32Device.offline)
          devices (fst (fst (CronService.for_devices e devices))).
Proof.
  induction devices as [| device rest IH]; [constructor |].
  rewrite for_devices_cons.
  destruct (Sweep.silent e device) eqn:Hsilent.
  - destruct (ESP32Device.ESP32Device_save_error e _).
    + cbn [fst]. constructor; [now left |].
      clear. induction rest; constructor; auto.
    + destruct (CronService.for_devices e rest) as [[rest' log] thrown].
      cbn [fst] in *. constructor; [| assumption].
      right. unfold Sweep.swept. rewrite Hsilent. split; reflexivity.
  - destruct (CronService.for_devices e rest) as [[rest' log] thrown].
    cbn [fst] in *. constructor; auto.
Qed.

Lemma swept_not_silent (device : ESP32Device.doc N) :
  Sweep.silent e (Sweep.swept e device) = false.
Proof.
  unfold Sweep.swept.
  destruct (Sweep.silent e device) eqn:Hsilent; [| exact Hsilent].
  reflexivity.
Qed.

Lemma for_devices_again (devices : list (ESP32Device.doc N)) :
  fst (fst (CronService.for_devices e
              (fst (fst (CronService.for_devices e devices)))))
  = fst (fst (CronService.for_devices e devices)).
Proof.
  induction devices as [| device rest IH]; [reflexivity |].
  rewrite for_devices_cons.
  destruct (Sweep.silent e device) eqn:Hsilent.
  - destruct (ESP32Device.ESP32Device_save_error e
                (ESP32Device.deviceId device)) eqn:Herr.
    + cbn [fst]. rewrite for_devices_cons, Hsilent, Herr. reflexivity.
    + destruct (CronService.for_devices e rest) as [[rest' log] thrown].
      cbn [fst] in *. rewrite for_devices_cons, swept_not_silent.
      destruct (CronService.for_devices e rest') as [[rest'' log'] thrown'].
      cbn [fst] in *. now rewrite IH.
  - destruct (CronService.for_devices e rest) as [[rest' log] thrown].
    cbn [fst] in *. rewrite for_devices_cons, Hsilent.
    destruct (CronService.for_devices e rest') as [[rest'' log'] thrown'].
    cbn [fst] in *. now rewrite IH.
Qed.

Lemma isOnline_not_silent (device : ESP32Device.doc N) :
  DeviceMethods.isOnline e device = true -> Sweep.silent e device = false.
Proof.
  unfold DeviceMethods.isOnline, Sweep.silent, DeviceMethods.timeout,
    CronService.timeout.
  intros H. apply andb_prop in H as [-> H]. apply Z.ltb_lt in H.
  cbn [andb]. rewrite Z.gtb_ltb. apply Z.ltb_ge. lia.
Qed.

End SweepMore.

(** X8. In every run of the status job, refused saves or not, the
    devices come out in the same number and order, and each one is either
    exactly as it was or was found silent and differs by its status,
    now [offline], alone: [lastSeen], the counters and the thresholds are
    never written. *)
Theorem sweep_changes_status_only (N : Type) (e : ESP32Device.env)
  (devices : list (ESP32Device.doc N)) :
  Forall2 (fun device device' =>
             device' = device
             \/ ESP32Device.status device = ESP32Device.online
                /\ ESP32Device.now e - ESP32Device.lastSeen device
                   > 10 * 60 * 1000
                /\ device' = ESP32Device.set_status device
                               ESP32Device.offline)
          devices (fst (CronService.device_status_check e devices)).
Proof.
  unfold CronService.device_status_check.
  pose proof (for_devices_changes N e devices) as H.
  destruct (CronService.for_devices e devices) as [[devices' log] thrown].
  cbn [fst] in *.
  eapply Forall2_impl; [| exact H].
  intros device device' [-> | [Hsilent ->]]; [now left | right].
  split; [now apply (silent_online N e) |]. split; [| reflexivity].
  unfold Sweep.silent, CronService.timeout in Hsilent.
  apply andb_prop in Hsilent as [_ Hlate].
  apply Z.gtb_lt in Hlate. lia.
Qed.

(** X9. A device for which [isOnline] holds when the status job runs is
    left exactly as it was. *)
Theorem sweep_spares_online_devices (N : Type) (e : ESP32Device.env)
  (devices : list (ESP32Device.doc N)) :
  Forall2 (fun device device' =>
             DeviceMethods.isOnline e device = true -> device' = device)
          devices (fst (CronService.device_status_check e devices)).
Proof.
  unfold CronService.device_status_check.
  pose proof (for_devices_changes N e devices) as H.
  destruct (CronService.for_devices e devices) as [[devices' log] thrown].
  cbn [fst] in *.
  eapply Forall2_impl; [| exact H].
  intros device device' [-> | [Hsilent ->]] Hon; [reflexivity |].
  apply (isOnline_not_silent N e) in Hon. congruence.
Qed.

(** X10. Running the status job again at the same instant changes
    nothing: what one run leaves in the store is a fixed point of the
    job, refused saves or not. *)
Theorem sweep_is_idempotent (N : Type) (e : ESP32Device.env)
  (devices : list (ESP32Device.doc N)) :
  fst (CronService.device_status_check e
         (fst (CronService.device_status_check e devices)))
  = fst (CronService.device_status_check e devices).
Proof.
  unfold CronService.device_status_check.
  pose proof (for_devices_again N e devices) as H.
  destruct (CronService.for_devices e devices) as [[devices' log] thrown].
  cbn [fst] in *.
  destruct (CronService.for_devices e devices') as [[devices'' log'] thrown'].
  exact H.
Qed.
(* ================================================================== *)
(** ** The outcomes of [POST /data] *)

Section Outcomes.

Context (N : Type) {A : Arith N}.
Variable e : ESP32Device.env.

Lemma collect_sensor_spec (props : list (string * val N))
  (s : list (string * val N) * bool) (sensorKey : string) :
  Esp32Routes.collect_sensor (VObj props) s sensorKey
  = Normal (fst s ++ Intake.kept (VObj props) sensorKey,
            snd s || Intake.usable (VObj props) sensorKey).
Proof.
  unfold Esp32Routes.collect_sensor, Intake.kept, Intake.usable.
  cbn [get Spec.prop bind].
  destruct (truthy (lookup props sensorKey)) eqn:Ht; cbn [andb].
  - rewrite (get_prop _ _ Ht). cbn [bind].
    destruct (Spec.prop (lookup props sensorKey) "value"), s;
      cbn [fst snd]; rewrite ?app_nil_r, ?orb_false_r, ?orb_true_r;
      reflexivity.
  - destruct s. cbn [fst snd]. now rewrite app_nil_r, orb_false_r.
Qed.

Lemma forEach_collect_sensor (props : list (string * val N))
  (keys : list string) (s : list (string * val N) * bool) :
  forEach keys (Esp32Routes.collect_sensor (VObj props)) s
  = Normal (fst s ++ flat_map (Intake.kept (VObj props)) keys,
            snd s || existsb (Intake.usable (VObj props)) keys).
Proof.
  revert s. induction keys as [| k keys IH]; intros s; cbn [forEach].
  - destruct s. cbn. now rewrite app_nil_r, orb_false_r.
  - rewrite collect_sensor_spec. cbn [bind]. rewrite IH.
    cbn [fst snd flat_map existsb]. now rewrite app_assoc, orb_assoc.
Qed.

Lemma collected (req : Esp32Routes.body N) (props : list (string * val N)) :
  Esp32Routes.sensors req = VObj props ->
  (keys <- Object_keys (Esp32Routes.sensors req) ;;
   forEach keys (Esp32Routes.collect_sensor (Esp32Routes.sensors req))
     ([], false))
  = Normal (flat_map (Intake.kept (VObj props)) (uniq (map fst props)),
            existsb (Intake.usable (VObj props)) (uniq (map fst props))).
Proof.
  intros ->. cbn [Object_keys bind]. now rewrite forEach_collect_sensor.
Qed.

End Outcomes.

Section Validated.

Context (N : Type) {A : Arith N}.

Lemma is_sensor_usable (props : list (string * val N)) (key : string) :
  Esp32Routes.is_sensor (lookup props key) = true ->
  Intake.usable (VObj props) key = true.
Proof.
  unfold Esp32Routes.is_sensor, Intake.usable. cbn [Spec.prop].
  destruct (lookup props key) as [| | n | entry]; try discriminate.
  intros H. apply andb_prop in H as [_ H]. cbn [truthy Spec.prop andb].
  unfold Esp32Routes.is_number in H.
  destruct (lookup entry "value"); try discriminate; reflexivity.
Qed.

(** A body that passes the middleware has a sensor with a value. *)
Lemma validated_has_data (req : Esp32Routes.body N) :
  Esp32Routes.validateSensorData req = true ->
  exists sensorData,
    (keys <- Object_keys (Esp32Routes.sensors req) ;;
     forEach keys (Esp32Routes.collect_sensor (Esp32Routes.sensors req))
       ([], false))
    = Normal (sensorData, true).
Proof.
  unfold Esp32Routes.validateSensorData. intros H.
  do 3 (apply andb_prop in H as [H _]).
  apply andb_prop in H as [_ H].
  destruct (Esp32Routes.sensors req) as [| | n | props] eqn:Hs;
    try discriminate.
  apply andb_prop in H as [Hlen Hall].
  pose proof (collected N req props Hs) as Hc. rewrite Hs in Hc.
  rewrite Hc. eexists. f_equal. f_equal.
  destruct props as [| [k v] props]; [discriminate |].
  cbn [map fst uniq existsb]. apply orb_true_iff. left.
  apply is_sensor_usable. cbn [lookup]. rewrite String.eqb_refl.
  cbn [forallb fst snd] in Hall.
  apply andb_prop in Hall as [Hkv _].
  now apply andb_prop in Hkv as [_ Hv].
Qed.

End Validated.

(** X29. No request to [POST /data] gets a reading accepted: a body the
    middleware refuses is answered 400, [Invalid sensor data]; a body it
    lets through always has a sensor with a value, so the handler never
    answers [No valid sensor data provided], and the reading it builds,
    which has no score yet, is rejected by the validation of [save()]:
    the answer is 500 with the validation error. In both cases the
    database is as it was (no reading, no device created or marked
    online, no counter moved) and nothing is emitted. *)
Theorem no_reading_is_accepted (N : Type) {A : Arith N}
  (e : ESP32Device.env) (d : Esp32Routes.db N) (req : Esp32Routes.body N) :
  Esp32Routes.data_route e d req
  = (d, [],
     if Esp32Routes.validateSensorData req
     then Esp32Routes.R500 N "Failed to process sensor data"
            ValidationError
     else Esp32Routes.R400 N "Invalid sensor data").
Proof.
  unfold Esp32Routes.data_route.
  destruct (Esp32Routes.validateSensorData req) eqn:Hv; [| reflexivity].
  destruct (validated_has_data N req Hv) as (sensorData & Hc).
  now rewrite post_data_outcome, Hc.
Qed.

(** X30. [POST /api/water-quality/review] stores no review: the document
    it builds has no score yet, [save()] rejects it with the validation
    error, which goes to the error handler; the collection is as it was
    and nothing is emitted. *)
Theorem review_is_not_stored (N : Type) {A : Arith N} (now : Z)
  (save_error : option exn) (collection : list (WaterQuality.doc N))
  (reviewData : val N) :
  ReviewRoutes.post_review now save_error collection reviewData
  = (collection, [], ReviewRoutes.Rethrown N ValidationError).
Proof.
  unfold ReviewRoutes.post_review.
  now rewrite save_without_score.
Qed.

(** X31. A document that passes validation and whose [sensorData]
    changed is stored with the score and the status the hook computes
    for it, at the end of the collection, unless the store refuses it;
    a sensor document comes out with a whole score between 0 and 100. *)
Theorem valid_document_is_rescored (save_error : option exn)
  (collection : list (WaterQuality.doc spec_float))
  (this : WaterQuality.doc spec_float) :
  WaterQuality.validates this = true ->
  WaterQuality.source this = "esp32" ->
  exists n : Z,
    0 <= n <= 100
    /\ WaterQuality.calculateQualityScore this = Normal (Binary64.of_Z n)
    /\ WaterQuality.save save_error
         (fun path => (path =? "sensorData")%string) collection this
       = match save_error with
         | Some err => Throw err
         | None =>
             let saved :=
               WaterQuality.set_assessment_status
                 (WaterQuality.set_qualityScore this (lit spec_float n))
                 (Bands.band n) in
             Normal (saved, collection ++ [saved])
         end.
Proof.
  intros Hv Hsrc. destruct (sensor_score_whole this Hsrc) as (n & Hn & Hq).
  exists n. split; [exact Hn |]. split; [exact Hq |].
  unfold WaterQuality.save, WaterQuality.pre_save. rewrite Hv.
  cbn [negb String.eqb Ascii.eqb Bool.eqb orb]. rewrite Hq. cbn [bind].
  rewrite (determineStatus_band _ n Hn) by reflexivity.
  destruct save_error; reflexivity.
Qed.

Lemma valid_document_is_rescored_witness :
  exists n : Z,
    0 <= n <= 100
    /\ WaterQuality.calculateQualityScore Samples.turbid_reading
       = Normal (Binary64.of_Z n)
    /\ WaterQuality.save None
         (fun path => (path =? "sensorData")%string) []
         Samples.turbid_reading
       = let saved :=
           WaterQuality.set_assessment_status
             (WaterQuality.set_qualityScore Samples.turbid_reading
                (lit spec_float n))
             (Bands.band n) in
         Normal (saved, [] ++ [saved]).
Proof.
  apply (valid_document_is_rescored None [] Samples.turbid_reading);
    reflexivity.
Defined.

(* ================================================================== *)
(** ** [updateStatus], [recordReading] and the counters *)

(** X15. [updateStatus] stores the status it is given under the device's
    id, whatever the status was; [lastSeen] becomes the time of the call
    for [online] and is kept for every other status, and no counter
    moves. *)
Theorem updateStatus_round_trip (N : Type) {A : Arith N}
  (e : ESP32Device.env) (loaded : option (ESP32Device.doc N))
  (collection collection' : list (ESP32Device.doc N))
  (this saved : ESP32Device.doc N) (s : ESP32Device.status_t) :
  ESP32Device.updateStatus e loaded collection this s
  = Normal (saved, collection') ->
  ESP32Device.findOne collection' (ESP32Device.deviceId this) = Some saved
  /\ ESP32Device.status saved = s
  /\ ESP32Device.lastSeen saved
     = (if ESP32Device.status_eqb s ESP32Device.online
        then ESP32Device.now e
        else ESP32Device.lastSeen this)
  /\ ESP32Device.totalReadings saved = ESP32Device.totalReadings this
  /\ ESP32Device.successfulReadings saved
     = ESP32Device.successfulReadings this
  /\ ESP32Device.failedReadings saved = ESP32Device.failedReadings this.
Proof.
  unfold ESP32Device.updateStatus, ESP32Device.save.
  destruct (ESP32Device.save_doc e loaded _) as [saved' | err] eqn:Hsave;
    [| discriminate].
  cbn [bind]. intros [= <- <-].
  apply save_doc_fields in Hsave
    as (Hid & Hst & Hseen & Ht & Hs & Hf & _).
  split.
  - replace (ESP32Device.deviceId this) with (ESP32Device.deviceId saved').
    + apply findOne_write.
    + rewrite Hid. destruct s; reflexivity.
  - destruct s; cbn in Hst, Hseen, Ht, Hs, Hf |- *;
      repeat split; try assumption;
      destruct Hseen as [H | [H1 H]]; try assumption; discriminate.
Qed.

Lemma updateStatus_round_trip_witness :
  ESP32Device.findOne
    [ESP32Device.set_status (Samples.silent "esp32-001" ESP32Device.online)
       ESP32Device.maintenance]
    (ESP32Device.deviceId (Samples.silent "esp32-001" ESP32Device.online))
  = Some (ESP32Device.set_status
            (Samples.silent "esp32-001" ESP32Device.online)
            ESP32Device.maintenance)
  /\ ESP32Device.status
       (ESP32Device.set_status
          (Samples.silent "esp32-001" ESP32Device.online)
          ESP32Device.maintenance)
     = ESP32Device.maintenance
  /\ ESP32Device.lastSeen
       (ESP32Device.set_status
          (Samples.silent "esp32-001" ESP32Device.online)
          ESP32Device.maintenance)
     = (if ESP32Device.status_eqb ESP32Device.maintenance
             ESP32Device.online
        then ESP32Device.now Samples.healthy
        else ESP32Device.lastSeen
               (Samples.silent "esp32-001" ESP32Device.online))
  /\ ESP32Device.totalReadings
       (ESP32Device.set_status
          (Samples.silent "esp32-001" ESP32Device.online)
          ESP32Device.maintenance)
     = ESP32Device.totalReadings
         (Samples.silent "esp32-001" ESP32Device.online)
  /\ ESP32Device.successfulReadings
       (ESP32Device.set_status
          (Samples.silent "esp32-001" ESP32Device.online)
          ESP32Device.maintenance)
     = ESP32Device.successfulReadings
         (Samples.silent "esp32-001" ESP32Device.online)
  /\ ESP32Device.failedReadings
       (ESP32Device.set_status
          (Samples.silent "esp32-001" ESP32Device.online)
          ESP32Device.maintenance)
     = ESP32Device.failedReadings
         (Samples.silent "esp32-001" ESP32Device.online).
Proof.
  apply (updateStatus_round_trip spec_float Samples.healthy
           (Some (Samples.silent "esp32-001" ESP32Device.online))
           [Samples.silent "esp32-001" ESP32Device.online]
           [ESP32Device.set_status
              (Samples.silent "esp32-001" ESP32Device.online)
              ESP32Device.maintenance]
           (Samples.silent "esp32-001" ESP32Device.online)
           (ESP32Device.set_status
              (Samples.silent "esp32-001" ESP32Device.online)
              ESP32Device.maintenance)
           ESP32Device.maintenance).
  reflexivity.
Defined.



(* ================================================================== *)
(** ** The data cleanup job *)

Lemma filter_split_length {T : Type} (f : T -> bool) (l : list T) :
  (List.length (filter f l)
   + List.length (filter (fun x => negb (f x)) l))%nat
  = List.length l.
Proof.
  induction l as [| x l IH]; [reflexivity |].
  cbn [filter]. destruct (f x); cbn [negb List.length]; lia.
Qed.

(** X19. A run of the cleanup job removes exactly the readings of source
    [esp32] older than the cutoff: reviews and manual entries stay however
    old they are, the log carries the number removed, a second run with
    the same cutoff removes nothing, and when the store refuses the
    deletion the collection is as it was and the error is logged. *)
Theorem cleanup_removes_old_sensor_readings (N : Type)
  (thirtyDaysAgo : Z) (collection : list (WaterQuality.doc N)) :
  let after :=
    fst (DataCleanup.data_cleanup thirtyDaysAgo None collection) in
  (forall record : WaterQuality.doc N,
     In record after
     <-> In record collection
         /\ (WaterQuality.source record = "esp32" ->
             thirtyDaysAgo <= WaterQuality.timestamp record))
  /\ snd (DataCleanup.data_cleanup thirtyDaysAgo None collection)
     = [DataCleanup.info_running;
        DataCleanup.info_cleaned
          (Z.of_nat (List.length collection)
           - Z.of_nat (List.length after))]
  /\ DataCleanup.data_cleanup thirtyDaysAgo None after
     = (after, [DataCleanup.info_running; DataCleanup.info_cleaned 0])
  /\ forall err : exn,
       DataCleanup.data_cleanup thirtyDaysAgo (Some err) collection
       = (collection,
          [DataCleanup.info_running; DataCleanup.error_cleanup err]).
Proof.
  unfold DataCleanup.data_cleanup, DataCleanup.deleteMany. cbn [fst snd].
  set (old := DataCleanup.matches thirtyDaysAgo).
  assert (Hold : forall record : WaterQuality.doc N,
             old record = false
             <-> (WaterQuality.source record = "esp32" ->
                  thirtyDaysAgo <= WaterQuality.timestamp record)).
  { intros record. subst old. unfold DataCleanup.matches.
    destruct (Z.ltb_spec (WaterQuality.timestamp record) thirtyDaysAgo)
      as [Hlt | Hge];
      destruct (String.eqb_spec (WaterQuality.source record) "esp32")
        as [Hsrc | Hsrc];
      cbn [andb]; split; try reflexivity; try discriminate.
    - intros H. specialize (H Hsrc). lia.
    - intros _ H. contradiction.
    - intros _ _. exact Hge.
    - intros _ _. exact Hge. }
  split; [| split; [| split]].
  - intros record. rewrite filter_In, negb_true_iff, Hold. reflexivity.
  - assert (Hlen : Z.of_nat (List.length (filter old collection))
                   = Z.of_nat (List.length collection)
                     - Z.of_nat (List.length
                                   (filter (fun record => negb (old record))
                                      collection))).
    { pose proof (filter_split_length old collection). lia. }
    now rewrite Hlen.
  - f_equal.
    + apply forallb_filter_id. apply forallb_forall.
      intros record Hin. now apply filter_In in Hin.
    + do 2 f_equal.
      replace (filter old (filter (fun record => negb (old record))
                             collection)) with (@nil (WaterQuality.doc N));
        [reflexivity |].
      symmetry. induction collection as [| r rest IH]; [reflexivity |].
      cbn [filter]. destruct (old r) eqn:Hr; cbn [negb filter];
        rewrite ?Hr; exact IH.
  - reflexivity.
Qed.
(* ================================================================== *)
(** ** Paging *)

Section Paging.

Variable T : Type.

Lemma firstn_add (a b : nat) (l : list T) :
  firstn (a + b) l = firstn a l ++ firstn b (skipn a l).
Proof.
  revert l. induction a as [| a IH]; intros l; [reflexivity |].
  destruct l as [| x l]; cbn [Nat.add firstn skipn app].
  - now rewrite firstn_nil.
  - now rewrite IH.
Qed.

(** The first [k] pages, one after the other. *)
Lemma pages_prefix (found : list T) (limit : positive) (k : nat) :
  flat_map (fun p => Pagination.page_of found limit (Pos.of_nat p))
    (seq 1 k)
  = firstn (k * Pos.to_nat limit) found.
Proof.
  induction k as [| k IH]; [reflexivity |].
  rewrite seq_S, flat_map_app, IH. cbn [flat_map]. rewrite app_nil_r.
  unfold Pagination.page_of.
  rewrite Nat2Pos.id by lia.
  replace (1 + k - 1)%nat with k by lia.
  replace (S k * Pos.to_nat limit)%nat
    with (k * Pos.to_nat limit + Pos.to_nat limit)%nat by lia.
  now rewrite firstn_add.
Qed.

Lemma pages_enough (n : nat) (limit : positive) :
  (n <= Z.to_nat (Pagination.pages n limit) * Pos.to_nat limit)%nat
  /\ 0 <= Pagination.pages n limit
  /\ (Pagination.pages n limit - 1) * Z.pos limit < Z.of_nat n.
Proof.
  unfold Pagination.pages.
  pose proof (Z.div_mod (Z.of_nat n + Z.pos limit - 1) (Z.pos limit)
                ltac:(lia)) as Hdm.
  pose proof (Z.mod_pos_bound (Z.of_nat n + Z.pos limit - 1) (Z.pos limit)
                ltac:(lia)) as Hb.
  set (q := (Z.of_nat n + Z.pos limit - 1) / Z.pos limit) in *.
  set (r := (Z.of_nat n + Z.pos limit - 1) mod Z.pos limit) in *.
  assert (Hq : 0 <= q) by (subst q; apply Z.div_pos; lia).
  split; [| split; [exact Hq | nia]].
  apply Nat2Z.inj_le. rewrite Nat2Z.inj_mul, Z2Nat.id by exact Hq.
  rewrite positive_nat_Z. nia.
Qed.

End Paging.

(** X20. The pages of a listing cover it: for a positive [limit], pages 1
    to [Math.ceil(total / limit)] follow one another without gap or
    overlap and give back every document found, in order; no page holds
    more than [limit] documents, and every later page is empty. *)
Theorem pages_cover_the_listing (T : Type) (found : list T)
  (limit : positive) :
  let last := Z.to_nat (Pagination.pages (List.length found) limit) in
  flat_map (fun p => Pagination.page_of found limit (Pos.of_nat p))
    (seq 1 last)
  = found
  /\ (forall page : positive,
        (List.length (Pagination.page_of found limit page)
         <= Pos.to_nat limit)%nat)
  /\ (forall page : positive,
        (last < Pos.to_nat page)%nat ->
        Pagination.page_of found limit page = [])
  /\ forall page : positive,
       Pagination.count (snd (Pagination.get_reviews found limit page))
       = Z.of_nat (List.length
                     (fst (Pagination.get_reviews found limit page)))
       /\ Pagination.total (snd (Pagination.get_reviews found limit page))
          = Z.of_nat last.
Proof.
  intros last.
  destruct (pages_enough (List.length found) limit) as (Hle & Hq & _).
  fold last in Hle.
  split; [| split; [| split]].
  - rewrite pages_prefix. now apply firstn_all2.
  - intros page. unfold Pagination.page_of. rewrite length_firstn. lia.
  - intros page Hlate. unfold Pagination.page_of.
    rewrite skipn_all2; [apply firstn_nil | nia].
  - intros page. split; [reflexivity |].
    cbn [Pagination.get_reviews snd Pagination.total]. subst last.
    now rewrite Z2Nat.id.
Qed.

(* ================================================================== *)
(** ** The registry of devices *)

Section RegistryLemmas.

Variable D : Type.

Lemma registry_findOne_app (collection : list (DeviceRegistry.device D))
  (device : DeviceRegistry.device D) (id : string) :
  DeviceRegistry.findOne (collection ++ [device]) id
  = match DeviceRegistry.findOne collection id with
    | Some found => Some found
    | None =>
        if (DeviceRegistry.deviceId device =? id)%string
        then Some device else None
    end.
Proof.
  induction collection as [| d rest IH]; cbn [app DeviceRegistry.findOne].
  - reflexivity.
  - destruct (DeviceRegistry.deviceId d =? id)%string;
      [reflexivity | exact IH].
Qed.

Lemma registry_deleteOne_app (collection : list (DeviceRegistry.device D))
  (device : DeviceRegistry.device D) :
  DeviceRegistry.findOne collection (DeviceRegistry.deviceId device) = None ->
  DeviceRegistry.deleteOne (collection ++ [device])
    (DeviceRegistry.deviceId device)
  = collection.
Proof.
  induction collection as [| d rest IH];
    cbn [app DeviceRegistry.findOne DeviceRegistry.deleteOne].
  - now rewrite String.eqb_refl.
  - destruct (DeviceRegistry.deviceId d
              =? DeviceRegistry.deviceId device)%string; [discriminate |].
    intros H. now rewrite IH.
Qed.

Lemma registry_findOne_deleteOne (collection : list (DeviceRegistry.device D))
  (id other : string) :
  other <> id ->
  DeviceRegistry.findOne (DeviceRegistry.deleteOne collection id) other
  = DeviceRegistry.findOne collection other.
Proof.
  intros Hne.
  induction collection as [| d rest IH];
    cbn [DeviceRegistry.findOne DeviceRegistry.deleteOne]; [reflexivity |].
  destruct (String.eqb_spec (DeviceRegistry.deviceId d) id) as [He | Hd].
  - destruct (String.eqb_spec (DeviceRegistry.deviceId d) other);
      [congruence | reflexivity].
  - cbn [DeviceRegistry.findOne]. now rewrite IH.
Qed.

Lemma registry_deleteOne_gone (collection : list (DeviceRegistry.device D))
  (id : string) :
  NoDup (map (@DeviceRegistry.deviceId D) collection) ->
  DeviceRegistry.findOne (DeviceRegistry.deleteOne collection id) id = None.
Proof.
  induction collection as [| d rest IH];
    cbn [DeviceRegistry.findOne DeviceRegistry.deleteOne map];
    [reflexivity |].
  intros Hnd. inversion Hnd as [| x l Hx Hrest]; subst.
  destruct (String.eqb_spec (DeviceRegistry.deviceId d) id) as [He | Hd].
  - subst id. clear - Hx. induction rest as [| d' rest IH]; [reflexivity |].
    cbn [DeviceRegistry.findOne map] in *.
    destruct (String.eqb_spec (DeviceRegistry.deviceId d')
                (DeviceRegistry.deviceId d)) as [He | Hne].
    + exfalso. apply Hx. left. exact He.
    + apply IH. intros Hin. apply Hx. now right.
  - cbn [DeviceRegistry.findOne].
    apply String.eqb_neq in Hd. rewrite Hd. now apply IH.
Qed.

End RegistryLemmas.

(** X21. [POST /devices] registers an id once: a second registration of a
    stored id is answered 400 and changes nothing; a first one, when the
    body can be read and the store accepts it, is answered 201, the
    device is then found under its id with the caller as its only
    administrator, and every other id is found as before. *)
Theorem registration_is_unique (D : Type) (save_error : option exn)
  (collection : list (DeviceRegistry.device D))
  (req_user : DeviceRegistry.user) (id : string) (built : completion D) :
  let out :=
    DeviceRegistry.post_devices save_error collection req_user id built in
  (forall existing,
     DeviceRegistry.findOne collection id = Some existing ->
     out = (collection,
            DeviceRegistry.R400 D "Device with this ID already exists"))
  /\ (forall paths,
        DeviceRegistry.findOne collection id = None ->
        built = Normal paths ->
        save_error = None ->
        let device :=
          {| DeviceRegistry.deviceId := id;
             DeviceRegistry.adminUsers := [DeviceRegistry.id req_user];
             DeviceRegistry.document := paths |} in
        snd out = DeviceRegistry.R201 "Device registered successfully" device
        /\ DeviceRegistry.findOne (fst out) id = Some device
        /\ forall other,
             other <> id ->
             DeviceRegistry.findOne (fst out) other
             = DeviceRegistry.findOne collection other)
  /\ (fst out = collection
      \/ exists device,
           out = (collection ++ [device],
                  DeviceRegistry.R201 "Device registered successfully"
                    device)).
Proof.
  intros out. subst out. unfold DeviceRegistry.post_devices.
  split; [| split].
  - intros existing ->. reflexivity.
  - intros paths Hnone Hbuilt Herr. rewrite Hnone, Hbuilt, Herr.
    cbn [fst snd].
    split; [reflexivity |]. split.
    + rewrite registry_findOne_app, Hnone.
      cbn [DeviceRegistry.deviceId]. now rewrite String.eqb_refl.
    + intros other Hne. rewrite registry_findOne_app.
      destruct (DeviceRegistry.findOne collection other); [reflexivity |].
      cbn [DeviceRegistry.deviceId]. apply String.eqb_neq in Hne.
      rewrite String.eqb_sym in Hne. now rewrite Hne.
  - destruct (DeviceRegistry.findOne collection id); [now left |].
    destruct built; [| now left].
    destruct save_error; [now left |].
    right. eexists. reflexivity.
Qed.
(** X22. [DELETE /devices/:deviceId] deletes for an administrator of the
    device or a user of role [admin] only: anyone else is answered 403,
    an unknown id 404, and in every case but a 200 the collection is as
    it was. After a 200 the device is gone (ids being unique) and every
    other device is found as before. *)
Theorem only_administrators_delete (D : Type) (deleteOne_error : option exn)
  (collection : list (DeviceRegistry.device D))
  (req_user : DeviceRegistry.user) (id : string) :
  let out :=
    DeviceRegistry.delete_devices deleteOne_error collection req_user id in
  (DeviceRegistry.findOne collection id = None ->
   out = (collection, DeviceRegistry.R404 D "Device not found"))
  /\ (forall device,
        DeviceRegistry.findOne collection id = Some device ->
        ~ In (DeviceRegistry.id req_user)
             (DeviceRegistry.adminUsers device) ->
        DeviceRegistry.role req_user <> "admin" ->
        out = (collection, DeviceRegistry.R403 D "Access denied"))
  /\ (fst out = collection
      \/ exists device,
           DeviceRegistry.findOne collection id = Some device
           /\ (In (DeviceRegistry.id req_user)
                  (DeviceRegistry.adminUsers device)
               \/ DeviceRegistry.role req_user = "admin")
           /\ out = (DeviceRegistry.deleteOne collection id,
                     DeviceRegistry.R200 D "Device deleted successfully")
           /\ (NoDup (map (@DeviceRegistry.deviceId D) collection) ->
               DeviceRegistry.findOne (fst out) id = None)
           /\ forall other,
                other <> id ->
                DeviceRegistry.findOne (fst out) other
                = DeviceRegistry.findOne collection other).
Proof.
  intros out. subst out. unfold DeviceRegistry.delete_devices.
  assert (Hinc : forall (l : list string) (x : string),
             DeviceRegistry.includes l x = true <-> In x l).
  { intros l x. unfold DeviceRegistry.includes. rewrite existsb_exists.
    split.
    - intros (y & Hy & He). apply String.eqb_eq in He. now subst.
    - intros Hx. exists x. split; [exact Hx | apply String.eqb_refl]. }
  split; [| split].
  - intros ->. reflexivity.
  - intros device -> Hnot Hrole.
    destruct (DeviceRegistry.includes _ _) eqn:Hi;
      [apply Hinc in Hi; contradiction |].
    apply String.eqb_neq in Hrole. rewrite Hrole. reflexivity.
  - destruct (DeviceRegistry.findOne collection id) as [device |] eqn:Hf;
      [| now left].
    destruct (DeviceRegistry.includes _ _) eqn:Hi; cbn [negb andb].
    + destruct deleteOne_error; [now left |]. right. exists device.
      apply Hinc in Hi. cbn [fst].
      repeat split; auto using registry_deleteOne_gone.
      intros other Hne. now apply registry_findOne_deleteOne.
    + destruct (String.eqb_spec (DeviceRegistry.role req_user) "admin")
        as [Hadmin | Hno]; cbn [negb]; [| now left].
      destruct deleteOne_error; [now left |]. right. exists device.
      cbn [fst]. repeat split; auto using registry_deleteOne_gone.
      intros other Hne. now apply registry_findOne_deleteOne.
Qed.

(** X23. Whoever registers a device can delete it, whatever their role,
    and the collection is then what it was before the registration. *)
Theorem register_then_delete (D : Type)
  (collection : list (DeviceRegistry.device D))
  (req_user : DeviceRegistry.user) (id : string) (paths : D) :
  DeviceRegistry.findOne collection id = None ->
  DeviceRegistry.delete_devices None
    (fst (DeviceRegistry.post_devices None collection req_user id
            (Normal paths)))
    req_user id
  = (collection, DeviceRegistry.R200 D "Device deleted successfully").
Proof.
  intros Hnone. unfold DeviceRegistry.post_devices. rewrite Hnone.
  cbn [fst]. unfold DeviceRegistry.delete_devices.
  rewrite registry_findOne_app, Hnone. cbn [DeviceRegistry.deviceId].
  rewrite String.eqb_refl.
  cbn [DeviceRegistry.adminUsers DeviceRegistry.includes existsb].
  rewrite String.eqb_refl. cbn [orb negb andb].
  f_equal.
  apply (registry_deleteOne_app D collection
           {| DeviceRegistry.deviceId := id;
              DeviceRegistry.adminUsers := [DeviceRegistry.id req_user];
              DeviceRegistry.document := paths |}).
  exact Hnone.
Qed.

Lemma register_then_delete_witness :
  DeviceRegistry.delete_devices None
    (fst (DeviceRegistry.post_devices None []
            {| DeviceRegistry.id := "u1"; DeviceRegistry.role := "user" |}
            "esp32-001" (Normal tt)))
    {| DeviceRegistry.id := "u1"; DeviceRegistry.role := "user" |}
    "esp32-001"
  = ([], DeviceRegistry.R200 unit "Device deleted successfully").
Proof.
  apply (register_then_delete unit []
           {| DeviceRegistry.id := "u1"; DeviceRegistry.role := "user" |}
           "esp32-001" tt).
  reflexivity.
Defined.

(* ================================================================== *)
(** ** The cache of responses *)

Section CacheLemmas.

Variable D : Type.

Lemma Map_get_filter_set (keep : string * Cache.entry D -> bool)
  (c : Cache.cache D) (key : string) (value : Cache.entry D) :
  keep (key, value) = true ->
  Cache.Map_get (filter keep (Cache.Map_set c key value)) key = Some value.
Proof.
  intros Hkeep. induction c as [| [k v] rest IH]; cbn [Cache.Map_set].
  - cbn [filter]. rewrite Hkeep. cbn [Cache.Map_get].
    now rewrite String.eqb_refl.
  - destruct (String.eqb_spec k key) as [-> | Hne]; cbn [filter].
    + rewrite Hkeep. cbn [Cache.Map_get]. now rewrite String.eqb_refl.
    + destruct (keep (k, v)); [| exact IH].
      cbn [Cache.Map_get]. apply String.eqb_neq in Hne. now rewrite Hne.
Qed.

Lemma In_Map_set (c : Cache.cache D) (key : string) (value : Cache.entry D)
  (kv : string * Cache.entry D) :
  In kv (Cache.Map_set c key value) -> kv = (key, value) \/ In kv c.
Proof.
  induction c as [| [k v] rest IH]; cbn [Cache.Map_set].
  - intros [<- | []]. now left.
  - destruct (String.eqb_spec k key) as [-> | Hne].
    + intros [<- | H]; [now left | right; now right].
    + intros [<- | H]; [right; now left |].
      destruct (IH H); [now left | right; now right].
Qed.

Lemma keys_Map_set (c : Cache.cache D) (key : string)
  (value : Cache.entry D) (k : string) :
  In k (map fst (Cache.Map_set c key value)) ->
  k = key \/ In k (map fst c).
Proof.
  induction c as [| [k0 v] rest IH]; cbn [Cache.Map_set map fst].
  - intros [<- | []]. now left.
  - destruct (String.eqb_spec k0 key) as [-> | Hne]; cbn [map fst].
    + intros [<- | H]; [now left | right; now right].
    + intros [<- | H]; [right; now left |].
      destruct (IH H); [now left | right; now right].
Qed.

Lemma NoDup_Map_set (c : Cache.cache D) (key : string)
  (value : Cache.entry D) :
  NoDup (map fst c) -> NoDup (map fst (Cache.Map_set c key value)).
Proof.
  induction c as [| [k v] rest IH]; cbn [Cache.Map_set map fst].
  - intros _. constructor; [intros [] | constructor].
  - intros Hnd. inversion Hnd as [| x l Hx Hrest]; subst.
    destruct (String.eqb_spec k key) as [-> | Hne]; cbn [map fst].
    + constructor; assumption.
    + constructor; [| now apply IH].
      intros Hin. apply keys_Map_set in Hin as [-> | Hin]; contradiction.
Qed.

Lemma NoDup_keys_filter (keep : string * Cache.entry D -> bool)
  (c : Cache.cache D) :
  NoDup (map fst c) -> NoDup (map fst (filter keep c)).
Proof.
  induction c as [| [k v] rest IH]; cbn [filter map fst]; [auto |].
  intros Hnd. inversion Hnd as [| x l Hx Hrest]; subst.
  destruct (keep (k, v)); cbn [map fst]; [| now apply IH].
  constructor; [| now apply IH].
  intros Hin. apply Hx. apply in_map_iff in Hin as ([k' v'] & <- & Hin).
  apply filter_In in Hin as [Hin _].
  apply in_map_iff. now exists (k', v').
Qed.

Lemma Map_get_set_other (c : Cache.cache D) (key other : string)
  (value : Cache.entry D) :
  other <> key ->
  Cache.Map_get (Cache.Map_set c key value) other = Cache.Map_get c other.
Proof.
  intros Hne. induction c as [| [k v] rest IH];
    cbn [Cache.Map_set Cache.Map_get].
  - destruct (String.eqb_spec key other); [congruence | reflexivity].
  - destruct (String.eqb_spec k key) as [-> | Hk]; cbn [Cache.Map_get].
    + destruct (String.eqb_spec key other); [congruence | reflexivity].
    + now rewrite IH.
Qed.

Lemma Map_get_filter (keep : string * Cache.entry D -> bool)
  (c : Cache.cache D) (key : string) (value : Cache.entry D) :
  Cache.Map_get c key = Some value ->
  keep (key, value) = true ->
  Cache.Map_get (filter keep c) key = Some value.
Proof.
  intros Hget Hkeep. induction c as [| [k v] rest IH];
    cbn [Cache.Map_get filter] in *; [discriminate |].
  destruct (String.eqb_spec k key) as [-> | Hne].
  - injection Hget as ->. rewrite Hkeep. cbn [Cache.Map_get].
    now rewrite String.eqb_refl.
  - destruct (keep (k, v)); [| now apply IH].
    cbn [Cache.Map_get]. apply String.eqb_neq in Hne. rewrite Hne.
    now apply IH.
Qed.

End CacheLemmas.

(** X24. What a handler answers is served from the cache to the next
    request for the same key for as long as it is younger than the
    [duration] of the route: the body served is the body answered. *)
Theorem fresh_entry_is_served (D : Type) (c : Cache.cache D) (key : string)
  (body : D) (set_at cleanup_at now duration : Z) :
  cleanup_at - set_at <= Cache.CACHE_TTL ->
  now - set_at < duration ->
  Cache.cached_response duration now
    (Cache.res_json c key body set_at cleanup_at) key
  = Some body.
Proof.
  intros Hkept Hfresh. unfold Cache.cached_response, Cache.res_json,
    Cache.cleanupCache.
  rewrite Map_get_filter_set.
  - cbn [Cache.timestamp Cache.data].
    apply Z.ltb_lt in Hfresh. now rewrite Hfresh.
  - cbn [snd Cache.timestamp]. apply negb_true_iff.
    rewrite Z.gtb_ltb. apply Z.ltb_ge. exact Hkept.
Qed.

Lemma fresh_entry_is_served_witness :
  Cache.cached_response 300 1100 (Cache.res_json [] "GET:/current" 7 1000 1001)
    "GET:/current"
  = Some 7.
Proof.
  apply (fresh_entry_is_served Z [] "GET:/current" 7 1000 1001 1100 300).
  - vm_compute. discriminate.
  - reflexivity.
Defined.

(** X25. The cache is never answered from an entry as old as [duration];
    a store leaves no entry older than five minutes, keeps every entry of
    another key that is at most five minutes old, adds nothing but the
    new entry, and keeps the keys distinct. *)
Theorem store_keeps_young_entries (D : Type) (c : Cache.cache D)
  (key : string) (body : D) (set_at cleanup_at now duration : Z) :
  let c' := Cache.res_json c key body set_at cleanup_at in
  (forall served : D,
     Cache.cached_response duration now c key = Some served ->
     exists cached : Cache.entry D,
       Cache.Map_get c key = Some cached
       /\ Cache.data cached = served
       /\ now - Cache.timestamp cached < duration)
  /\ (forall (k : string) (cached : Cache.entry D),
        In (k, cached) c' ->
        cleanup_at - Cache.timestamp cached <= 5 * 60 * 1000
        /\ ((k, cached)
            = (key, {| Cache.data := body; Cache.timestamp := set_at |})
            \/ In (k, cached) c))
  /\ (forall (other : string) (cached : Cache.entry D),
        other <> key ->
        Cache.Map_get c other = Some cached ->
        cleanup_at - Cache.timestamp cached <= 5 * 60 * 1000 ->
        Cache.Map_get c' other = Some cached)
  /\ (NoDup (map fst c) -> NoDup (map fst c')).
Proof.
  intros c'. subst c'. split; [| split; [| split]].
  - intros served. unfold Cache.cached_response.
    destruct (Cache.Map_get c key) as [cached |]; [| discriminate].
    destruct (Z.ltb_spec (now - Cache.timestamp cached) duration);
      [| discriminate].
    intros [= <-]. exists cached. repeat split. assumption.
  - intros k cached. unfold Cache.res_json, Cache.cleanupCache.
    rewrite filter_In. cbn [snd]. intros [Hin Hfresh].
    apply negb_true_iff in Hfresh. rewrite Z.gtb_ltb in Hfresh.
    apply Z.ltb_ge in Hfresh. split; [exact Hfresh |].
    now apply In_Map_set in Hin.
  - intros other cached Hne Hget Hyoung.
    unfold Cache.res_json, Cache.cleanupCache.
    apply Map_get_filter.
    + now rewrite Map_get_set_other.
    + cbn [snd]. apply negb_true_iff. rewrite Z.gtb_ltb.
      apply Z.ltb_ge. exact Hyoung.
  - intros Hnd. unfold Cache.res_json, Cache.cleanupCache.
    apply NoDup_keys_filter. now apply NoDup_Map_set.
Qed.

(* ================================================================== *)
(** ** A reading without any weighted parameter *)

(** X26. A sensor reading that carries none of the four weighted
    parameters (conductivity alone, say) is scored 50 by the pre-save
    hook, which puts it in the status [fair], and the check of the
    overall score raises its warning for it. *)
Theorem unweighted_reading_scores_fifty
  (this this' : WaterQuality.doc spec_float) :
  WaterQuality.source this = "esp32" ->
  (forall param,
     In param ["turbidity"; "tds"; "temperature"; "dissolvedOxygen"] ->
     Spec.present this param = None) ->
  WaterQuality.pre_save (fun path => (path =? "sensorData")%string) this
  = Normal this' ->
  WaterQuality.qualityScore this' = lit spec_float 50
  /\ WaterQuality.assessment_status this' = Some WaterQuality.fair
  /\ Esp32Routes.overall_alerts (WaterQuality.qualityScore this')
     = [Rules.overall Esp32Routes.warning
          Esp32Routes.quality_below_normal (lit spec_float 50) 60].
Proof.
  intros Hsrc Hnone. unfold WaterQuality.pre_save.
  cbn [String.eqb Ascii.eqb Bool.eqb orb].
  rewrite (calculate_sensor_binary64 _ Hsrc).
  unfold Spec.sensor_row. cbn [map fst Spec.sensor_weights].
  rewrite !Hnone by (simpl; tauto).
  cbn [bind]. intros [= <-]. repeat split.
Qed.

Lemma unweighted_reading_scores_fifty_witness :
  WaterQuality.qualityScore
    (Samples.reading Requests.conductivity_only 50 WaterQuality.fair)
  = lit spec_float 50
  /\ WaterQuality.assessment_status
       (Samples.reading Requests.conductivity_only 50 WaterQuality.fair)
     = Some WaterQuality.fair
  /\ Esp32Routes.overall_alerts
       (WaterQuality.qualityScore
          (Samples.reading Requests.conductivity_only 50 WaterQuality.fair))
     = [Rules.overall Esp32Routes.warning
          Esp32Routes.quality_below_normal (lit spec_float 50) 60].
Proof.
  apply (unweighted_reading_scores_fifty
           (Esp32Routes.new_reading Samples.healthy
              Requests.conductivity_only
              (Samples.kept Requests.conductivity_only))).
  - reflexivity.
  - intros param Hin. simpl in Hin.
    destruct Hin as [<- | [<- | [<- | [<- | []]]]]; reflexivity.
  - vm_compute. reflexivity.
Defined.

(* ================================================================== *)
(** ** The log of the status job *)

Section SweepLogLemmas.

Context (N : Type) {A : Arith N}.
Variable e : ESP32Device.env.

Lemma status_eqb_refl (s : ESP32Device.status_t) :
  ESP32Device.status_eqb s s = true.
Proof. destruct s; reflexivity. Qed.

Lemma changed_same (devices : list (ESP32Device.doc N)) :
  SweepLog.changed devices devices = [].
Proof.
  unfold SweepLog.changed.
  induction devices as [| d rest IH]; [reflexivity |].
  cbn [combine filter fst snd]. now rewrite status_eqb_refl.
Qed.

Lemma for_devices_log (devices : list (ESP32Device.doc N)) :
  SweepLog.marked_offline (snd (fst (CronService.for_devices e devices)))
  = SweepLog.changed devices
      (fst (fst (CronService.for_devices e devices))).
Proof.
  induction devices as [| device rest IH]; [reflexivity |].
  rewrite for_devices_cons.
  destruct (Sweep.silent e device) eqn:Hsilent.
  - destruct (ESP32Device.ESP32Device_save_error e _).
    + cbn [fst snd]. now rewrite changed_same.
    + destruct (CronService.for_devices e rest) as [[rest' log] thrown].
      cbn [fst snd] in *. unfold Sweep.marked, Sweep.swept.
      rewrite Hsilent. unfold SweepLog.changed.
      cbn [app SweepLog.marked_offline flat_map combine filter fst snd].
      rewrite (silent_online N e device Hsilent).
      cbn [ESP32Device.status ESP32Device.set_status
           ESP32Device.status_eqb negb map fst].
      f_equal. exact IH.
  - destruct (CronService.for_devices e rest) as [[rest' log] thrown].
    cbn [fst snd] in *. unfold SweepLog.changed.
    cbn [combine filter fst snd]. rewrite status_eqb_refl. exact IH.
Qed.

Lemma marked_offline_app (l1 l2 : list CronService.log_entry) :
  SweepLog.marked_offline (l1 ++ l2)
  = SweepLog.marked_offline l1 ++ SweepLog.marked_offline l2.
Proof. unfold SweepLog.marked_offline. apply flat_map_app. Qed.

End SweepLogLemmas.

(** X28. The log of a run of the status job is faithful: it opens with
    the line of the run, and the ids it reports as marked offline are,
    in order, the ids of the devices whose stored status the run
    changed, refused saves or not. *)
Theorem sweep_logs_what_it_marks (N : Type) (e : ESP32Device.env)
  (devices : list (ESP32Device.doc N)) :
  let out := CronService.device_status_check e devices in
  hd_error (snd out) = Some CronService.info_running
  /\ SweepLog.marked_offline (snd out)
     = SweepLog.changed devices (fst out).
Proof.
  intros out. subst out. unfold CronService.device_status_check.
  pose proof (for_devices_log N e devices) as H.
  destruct (CronService.for_devices e devices) as [[devices' log] thrown].
  cbn [fst snd] in *. split; [reflexivity |].
  change (CronService.info_running :: log ++ _)
    with ([CronService.info_running] ++ log
          ++ match thrown with
             | Some err => [CronService.error_status_check err]
             | None => []
             end).
  rewrite !marked_offline_app, H.
  destruct thrown; cbn [SweepLog.marked_offline flat_map app];
    now rewrite app_nil_r.
Qed.
